(** * GitHub issues to Azure DevOps work items: synchronisation engine

    A shallow embedding of the state mapper ([stateMapper.js]), the iteration
    creator ([iterationCreator.js]) and the create-or-update workflow
    ([index-enhanced.js]), followed by the properties proved about them.

    Conventions of the embedding.
    - A JavaScript string is a [string] of 8-bit characters; [toLowerCase]
      and the character classes of regular expressions act on ASCII.
    - An object used as a table is a finite map ([gmap]) or, where the
      enumeration order matters, an association list; a lookup reads the
      table's own entries (properties inherited from [Object.prototype],
      such as [constructor], are outside the model).
    - An argument that may be [null] or [undefined] is a [jsval].
    - Numbers are exact integers ([Z]); [NaN] is [None]. *)

From Stdlib Require Import Ascii String ZArith.
From stdpp Require Import gmap strings list fin_maps pretty.

Open Scope string_scope.

(** ** JavaScript values and strings *)

Module JS.

(** The values a string-typed argument can take. *)
Inductive jsval : Type :=
  | JUndefined
  | JNull
  | JString (s : string).

(** [!!v] in JavaScript: [undefined], [null] and the empty string are falsy. *)
Definition truthy (v : jsval) : bool :=
    match v with
    | JString s => negb (String.eqb s "")
    | _ => false
    end.

(** Truthiness of a table lookup [t[k]] whose entries are strings. *)
Definition truthy_entry (o : option string) : bool :=
    match o with
    | Some s => negb (String.eqb s "")
    | None => false
    end.

(** [v || d] for a string default [d]. *)
Definition or_default (v : jsval) (d : string) : string :=
    match v with
    | JString s => if String.eqb s "" then d else s
    | _ => d
    end.

(** [ToPropertyKey]: the key under which [t[v]] is read. *)
Definition toPropertyKey (v : jsval) : string :=
    match v with
    | JUndefined => "undefined"
    | JNull => "null"
    | JString s => s
    end.

Definition is_upper (c : ascii) : bool :=
    let n := N_of_ascii c in (65 <=? n)%N && (n <=? 90)%N.

Definition is_lower (c : ascii) : bool :=
    let n := N_of_ascii c in (97 <=? n)%N && (n <=? 122)%N.

Definition is_digit (c : ascii) : bool :=
    let n := N_of_ascii c in (48 <=? n)%N && (n <=? 57)%N.

Definition lower_char (c : ascii) : ascii :=
    if is_upper c then ascii_of_N (N_of_ascii c + 32) else c.

Definition upper_char (c : ascii) : ascii :=
    if is_lower c then ascii_of_N (N_of_ascii c - 32) else c.

(** [String.prototype.toLowerCase]. *)
Fixpoint toLowerCase (s : string) : string :=
    match s with
    | EmptyString => EmptyString
    | String c s' => String (lower_char c) (toLowerCase s')
    end.

(** [s.substring(n)] *)
Fixpoint drop (n : nat) (s : string) : string :=
    match n, s with
    | O, _ => s
    | S n', String _ s' => drop n' s'
    | S _, EmptyString => EmptyString
    end.

(** [s.substring(0, n)] *)
Fixpoint take (n : nat) (s : string) : string :=
    match n, s with
    | O, _ => EmptyString
    | S n', String c s' => String c (take n' s')
    | S _, EmptyString => EmptyString
    end.

End JS.

Import JS.

(** ** Regular expressions

    The expressions of the sources are sequences of quantified character
    classes, some of them captured: [(\w+)], [\s*], [-], [(\d{4})].  A
    sequence is matched as the JavaScript engine does it: every quantifier
    is greedy, and on failure the last quantifier that can give up a
    character does so. *)

Module RegExp.

(** One quantified class [cls{lo,hi}]; [hi = None] is unbounded; [cap]
    marks a capturing group around it. *)
Record Item : Type := {
  cls : ascii -> bool;
  lo : nat;
  hi : option nat;
  cap : bool
}.

(** [\d] *)
Definition digit : ascii -> bool := is_digit.

(** [\w] *)
Definition word (c : ascii) : bool :=
  is_digit c || is_upper c || is_lower c || Ascii.eqb c "_".

(** [\s], on ASCII: tab, line feed, vertical tab, form feed, carriage
    return and space. *)
Definition space (c : ascii) : bool :=
  let n := N_of_ascii c in ((9 <=? n)%N && (n <=? 13)%N) || (n =? 32)%N.

(** A literal character, and the same under the [i] flag. *)
Definition lit (c : ascii) : ascii -> bool := Ascii.eqb c.
Definition lit_i (c : ascii) : ascii -> bool :=
  fun d => Ascii.eqb (lower_char c) (lower_char d).

Definition one (f : ascii -> bool) : Item :=
  {| cls := f; lo := 1; hi := Some 1; cap := false |}.
Definition plus (f : ascii -> bool) : Item :=
  {| cls := f; lo := 1; hi := None; cap := false |}.
Definition star (f : ascii -> bool) : Item :=
  {| cls := f; lo := 0; hi := None; cap := false |}.
Definition exactly (n : nat) (f : ascii -> bool) : Item :=
  {| cls := f; lo := n; hi := Some n; cap := false |}.
Definition group (i : Item) : Item :=
  {| cls := cls i; lo := lo i; hi := hi i; cap := true |}.

(** Length of the longest prefix of [s] made of characters of [f]. *)
Fixpoint run (f : ascii -> bool) (s : string) : nat :=
  match s with
  | String c s' => if f c then S (run f s') else O
  | EmptyString => O
  end.

Definition bound (hi : option nat) (n : nat) : nat :=
  match hi with
  | Some h => Nat.min h n
  | None => n
  end.

(** Try [k], [k-1], ..., [lo] repetitions, the first success wins. *)
Fixpoint try_counts {R : Type} (k lo : nat) (f : nat -> option R) : option R :=
  if (k <? lo)%nat then None else
  match f k with
  | Some r => Some r
  | None =>
    match k with
    | O => None
    | S k' => try_counts k' lo f
    end
  end.

(** Match the items at the start of [s]; the result lists the captures. *)
Fixpoint matchItems (p : list Item) (s : string) : option (list string) :=
  match p with
  | [] => Some []
  | i :: p' =>
    try_counts (bound (hi i) (run (cls i) s)) (lo i)
      (fun k =>
         match matchItems p' (drop k s) with
         | Some caps => Some (if cap i then take k s :: caps else caps)
         | None => None
         end)
  end.

(** [s.match(p)] for an expression without anchor and without the [g]
    flag: the leftmost position where the items match.  The result is
    [match[1], match[2], ...]. *)
Fixpoint exec (p : list Item) (s : string) : option (list string) :=
  match matchItems p s with
  | Some caps => Some caps
  | None =>
    match s with
    | EmptyString => None
    | String _ s' => exec p s'
    end
  end.

(** [p.test(s)] for an expression anchored by [^]. *)
Definition test_anchored (p : list Item) (s : string) : bool :=
  match matchItems p s with
  | Some _ => true
  | None => false
  end.

(** Characters with a meaning of their own in the source of an expression.
    A lone closing bracket or brace stands for itself. *)
Definition syntax_char (c : ascii) : bool :=
  existsb (Ascii.eqb c)
    ["\"; "^"; "$"; "."; "*"; "+"; "?"; "("; ")"; "["; "{"; "|"]%char.

(** The characters after the escape, when each stands for itself: ASCII
    characters outside the syntax of expressions. *)
Fixpoint literals_i (s : string) : option (list Item) :=
  match s with
  | EmptyString => Some []
  | String c s' =>
    if syntax_char c || (128 <=? N_of_ascii c)%N then None
    else match literals_i s' with
         | Some p => Some (one (lit_i c) :: p)
         | None => None
         end
  end.

(** The escape [\c] that opens the expression [^\prefix]: a class or a
    control character for the letters that name one, the character itself
    for punctuation; [None] for the escapes left out of the fragment
    (assertions, back references, hexadecimal and control escapes, and the
    other letters and digits). *)
Definition escape (c : ascii) : option Item :=
  if Ascii.eqb c "d" then Some (one digit)
  else if Ascii.eqb c "w" then Some (one word)
  else if Ascii.eqb c "s" then Some (one space)
  else if Ascii.eqb c "D" then Some (one (fun x => negb (digit x)))
  else if Ascii.eqb c "W" then Some (one (fun x => negb (word x)))
  else if Ascii.eqb c "S" then Some (one (fun x => negb (space x)))
  else if Ascii.eqb c "t" then Some (one (lit (ascii_of_N 9)))
  else if Ascii.eqb c "n" then Some (one (lit (ascii_of_N 10)))
  else if Ascii.eqb c "v" then Some (one (lit (ascii_of_N 11)))
  else if Ascii.eqb c "f" then Some (one (lit (ascii_of_N 12)))
  else if Ascii.eqb c "r" then Some (one (lit (ascii_of_N 13)))
  else if word c then None
  else if (N_of_ascii c <? 128)%N then Some (one (lit_i c))
  else None.

(** [new RegExp(`^\\${prefix}`, 'i')]: the first character of the prefix is
    escaped, the others are read as the source of an expression.  [None]
    when the prefix is empty (the constructor throws) or leaves the
    fragment of literal characters. *)
Definition compile_escaped_prefix (prefix : string) : option (list Item) :=
  match prefix with
  | EmptyString => None
  | String c rest =>
    match escape c, literals_i rest with
    | Some i, Some p => Some (i :: p)
    | _, _ => None
    end
  end.

End RegExp.

(** ** Numbers and dates of the JavaScript library *)

Module Num.

#[local] Open Scope Z_scope.

(** [StrWhiteSpaceChar], on ASCII. *)
Definition white (c : ascii) : bool := RegExp.space c.

Fixpoint trimStart (s : string) : string :=
  match s with
  | String c s' => if white c then trimStart s' else s
  | EmptyString => EmptyString
  end.

Fixpoint trimEnd (s : string) : string :=
  match s with
  | String c s' =>
    let r := trimEnd s' in
    if String.eqb r "" && white c then EmptyString else String c r
  | EmptyString => EmptyString
  end.

Definition trim (s : string) : string := trimEnd (trimStart s).

(** Value of a digit in a radix up to 16, if it is one. *)
Definition digit_of (radix : Z) (c : ascii) : option Z :=
  let n := Z.of_N (N_of_ascii c) in
  let v := if is_digit c then n - 48
           else if is_lower c then n - 87
           else if is_upper c then n - 55
           else 16 in
  if (v <? radix)%Z then Some v else None.

Definition is_digit_of (radix : Z) (c : ascii) : bool :=
  match digit_of radix c with Some _ => true | None => false end.

(** Value of the leading run of digits of [s], after [acc]. *)
Fixpoint digits_value (radix acc : Z) (s : string) : Z :=
  match s with
  | String c s' =>
    match digit_of radix c with
    | Some v => digits_value radix (acc * radix + v)%Z s'
    | None => acc
    end
  | EmptyString => acc
  end.

Definition all_digits (radix : Z) (s : string) : bool :=
  negb (String.eqb s "") && (RegExp.run (is_digit_of radix) s =? String.length s)%nat.

Definition starts_with (p s : string) : bool := String.eqb (take (String.length p) s) p.

(** [parseInt(s)] without a radix; [None] is [NaN]. *)
Definition parseInt (s : string) : option Z :=
  let s := trimStart s in
  let negative := starts_with "-" s in
  let s := if negative || starts_with "+" s then drop 1 s else s in
  let hex := starts_with "0x" s || starts_with "0X" s in
  let radix := if hex then 16%Z else 10%Z in
  let s := if hex then drop 2 s else s in
  if (RegExp.run (is_digit_of radix) s =? 0)%nat then None
  else
    let v := digits_value radix 0 s in
    Some (if negative then (- v)%Z else v).

(** [parseInt(match[i])], where [match[i]] may be [undefined]. *)
Definition parseInt_at (caps : list string) (i : nat) : option Z :=
  match caps !! i with
  | Some s => parseInt s
  | None => None
  end.

(** The exponent part that may close a decimal literal. *)
Definition exponent_ok (s : string) : bool :=
  String.eqb s ""
  || ((starts_with "e" s || starts_with "E" s)
      && (let t := drop 1 s in
          let t := if starts_with "+" t || starts_with "-" t then drop 1 t else t in
          all_digits 10 t)).

(** [StrUnsignedDecimalLiteral] *)
Definition decimal_literal (s : string) : bool :=
  String.eqb s "Infinity"
  || (let n1 := RegExp.run is_digit s in
      let s1 := drop n1 s in
      let dot := starts_with "." s1 in
      let s2 := if dot then drop 1 s1 else s1 in
      let n2 := if dot then RegExp.run is_digit s2 else O in
      (0 <? n1 + n2)%nat && exponent_ok (drop n2 s2)).

Definition prefixed_literal (lower upper : string) (radix : Z) (s : string) : bool :=
  (starts_with lower s || starts_with upper s) && all_digits radix (drop 2 s).

(** [isNaN(s)] for a string [s]: whether [s] fails to be a
    [StringNumericLiteral]. *)
Definition isNaN (s : string) : bool :=
  let t := trim s in
  negb (String.eqb t ""
        || prefixed_literal "0x" "0X" 16 t
        || prefixed_literal "0o" "0O" 8 t
        || prefixed_literal "0b" "0B" 2 t
        || decimal_literal
             (if starts_with "+" t || starts_with "-" t then drop 1 t else t)).

(** [isNaN(match[i])]; [isNaN(undefined)] is true. *)
Definition isNaN_at (caps : list string) (i : nat) : bool :=
  match caps !! i with
  | Some s => isNaN s
  | None => true
  end.

(** [Number(match[i])] as the date constructor converts its string
    arguments.  Exact on runs of decimal digits, which is all that the
    expression [(\d{4})-(\d{2})-(\d{2})] captures; any other string is
    taken to [NaN]. *)
Definition toNumber_at (caps : list string) (i : nat) : option Z :=
  match caps !! i with
  | Some s => if all_digits 10 s then Some (digits_value 10 0 s) else None
  | None => None
  end.

End Num.

Module Dates.

#[local] Open Scope Z_scope.

(** A date object, read through [getFullYear()], [getMonth()] (from 0) and
    [getDate()]; the time of day and the time zone play no part. *)
Inductive Date : Type :=
| InvalidDate
| MkDate (year month date : Z).

(** Days since 1970-01-01 of the civil date [y]-[m]-[d], [m] from 1. *)
Definition days_from_civil (y m d : Z) : Z :=
  let y := if (m <=? 2)%Z then (y - 1)%Z else y in
  let era := (y / 400)%Z in
  let yoe := (y - era * 400)%Z in
  let doy := ((153 * (m + (if (2 <? m)%Z then -3 else 9)) + 2) / 5 + d - 1)%Z in
  let doe := (yoe * 365 + yoe / 4 - yoe / 100 + doy)%Z in
  (era * 146097 + doe - 719468)%Z.

Definition civil_from_days (z : Z) : Z * Z * Z :=
  let z := (z + 719468)%Z in
  let era := (z / 146097)%Z in
  let doe := (z - era * 146097)%Z in
  let yoe := ((doe - doe / 1460 + doe / 36524 - doe / 146096) / 365)%Z in
  let y := (yoe + era * 400)%Z in
  let doy := (doe - (365 * yoe + yoe / 4 - yoe / 100))%Z in
  let mp := ((5 * doy + 2) / 153)%Z in
  let d := (doy - (153 * mp + 2) / 5 + 1)%Z in
  let m := if (mp <? 10)%Z then (mp + 3)%Z else (mp - 9)%Z in
  (if (m <=? 2)%Z then (y + 1)%Z else y, m, d).

(** [new Date(year, month, day)]: a year from 0 to 99 counts from 1900,
    months and days out of range carry over, and a day further than
    100 000 000 days from the epoch or a [NaN] argument gives an invalid
    date. *)
Definition new_Date (year month day : option Z) : Date :=
  match year, month, day with
  | Some y, Some m, Some d =>
    let y := if ((0 <=? y) && (y <=? 99))%Z then (1900 + y)%Z else y in
    let days := (days_from_civil (y + m / 12) (m mod 12 + 1) 1 + d - 1)%Z in
    if (Z.abs days <=? 100000000)%Z then
      let '(y', m', d') := civil_from_days days in MkDate y' (m' - 1) d'
    else InvalidDate
  | _, _, _ => InvalidDate
  end.

(** [String(n).padStart(2, '0')] *)
Definition pad2 (n : Z) : string :=
  let s := pretty n in
  if (String.length s <? 2)%nat then "0" +:+ s else s.

End Dates.

(** ** stateMapper.js *)

Module StateMapper.

Record ProjectConfig : Type := {
  name : string;
  adoAreaPath : string;
  (** [statusMappings[workItemType][issueState][projectStatus]] *)
  statusMappings : gmap string (gmap string (gmap string string))
}.

Record ClosedIssueHandling : Type := {
  inProduction : string;
  notInProduction : string;
  noProject : string
}.

Record GlobalSettings : Type := {
  closedIssueHandling : ClosedIssueHandling;
  unmappedStatusFallback : gmap string string
}.

(** The configuration object.  [workItemTypeMapping] is kept as the list
    that [Object.entries] enumerates, because [getWorkItemType] walks it
    in that order. *)
Record Config : Type := {
  version : string;
  defaultProject : string;
  globalSettings : GlobalSettings;
  workItemTypeMapping : list (string * string);
  projects : gmap string ProjectConfig
}.

(** The tables of the default configuration share the closed sub-table
    and differ in the open one; the tables of ["Product Backlog Item"] and
    of ["Bug"] are equal. *)
Definition closedWildcard : gmap string string := list_to_map [("*", "Done")].

Definition epicOpen : gmap string string :=
  list_to_map
    [("No status", "New"); ("Product Backlog", "New");
     ("Sprint Backlog", "New"); ("Ready", "New");
     ("In Progress", "In Progress"); ("In PR review", "In Progress");
     ("In Beta", "In Progress"); ("In Main", "In Progress");
     ("In Production", "Done")].

Definition backlogOpen : gmap string string :=
  list_to_map
    [("No status", "New"); ("Product Backlog", "New");
     ("Sprint Backlog", "Approved"); ("Ready", "Approved");
     ("In Progress", "Committed"); ("In PR review", "Committed");
     ("In Beta", "Committed"); ("In Main", "Committed");
     ("In Production", "Done")].

Definition taskOpen : gmap string string :=
  list_to_map
    [("No status", "To Do"); ("Product Backlog", "To Do");
     ("Sprint Backlog", "To Do"); ("Ready", "To Do");
     ("In Progress", "In Progress"); ("In PR review", "In Progress");
     ("In Beta", "In Progress"); ("In Main", "In Progress");
     ("In Production", "Done")].

Definition typeTable (open : gmap string string) : gmap string (gmap string string) :=
  list_to_map [("open", open); ("closed", closedWildcard)].

Definition siwar : ProjectConfig := {|
  name := "siwar";
  adoAreaPath := "سوار\سوار Team";
  statusMappings :=
    list_to_map
      [("Epic", typeTable epicOpen);
       ("Product Backlog Item", typeTable backlogOpen);
       ("Bug", typeTable backlogOpen);
       ("Task", typeTable taskOpen)]
|}.

(** [getDefaultConfig()] *)
Definition getDefaultConfig : Config := {|
  version := "1.0";
  defaultProject := "siwar";
  globalSettings := {|
    closedIssueHandling :=
      {| inProduction := "Done"; notInProduction := "Done"; noProject := "Done" |};
    unmappedStatusFallback := list_to_map [("open", "New"); ("closed", "Done")]
  |};
  workItemTypeMapping :=
    [("[Epic]", "Epic");
     ("[Story]", "Product Backlog Item");
     ("[Request]", "Product Backlog Item");
     ("[IMPROVEMENT]", "Product Backlog Item");
     ("[Bug]", "Bug");
     ("default", "Product Backlog Item")];
  projects := list_to_map [("siwar", siwar)]
|}.

Section Mapper.

(** [this.config] *)
Variable config : Config.

(** [getGlobalFallback(issueState)] *)
Definition getGlobalFallback (issueState : string) : string :=
  let fallbacks := unmappedStatusFallback (globalSettings config) in
  if truthy_entry (fallbacks !! issueState)
  then default "" (fallbacks !! issueState)
  else if String.eqb issueState "closed" then "Done" else "New".

(** [(issueState || 'open').toLowerCase()] *)
Definition normalizeState (issueState : jsval) : string :=
  toLowerCase (or_default issueState "open").

(** [(projectName || this.config.defaultProject).toLowerCase()] *)
Definition normalizeProject (projectName : jsval) : string :=
  toLowerCase (or_default projectName (defaultProject config)).

(** [getAdoState(workItemType, issueState, projectName, projectStatus)] *)
Definition getAdoState (workItemType issueState projectName projectStatus : jsval)
  : string :=
  let issueState := normalizeState issueState in
  let projectName := normalizeProject projectName in
  if negb (truthy projectStatus) then getGlobalFallback issueState
  else
    match projects config !! projectName with
    | None => getGlobalFallback issueState
    | Some project =>
      match statusMappings project !! toPropertyKey workItemType with
      | None => getGlobalFallback issueState
      | Some statusMappings =>
        match statusMappings !! issueState with
        | None => getGlobalFallback issueState
        | Some stateMap =>
          if truthy_entry (stateMap !! "*") then default "" (stateMap !! "*")
          else
            let adoState := stateMap !! toPropertyKey projectStatus in
            if truthy_entry adoState then default "" adoState
            else if truthy_entry (stateMap !! "No status")
                    || truthy_entry (stateMap !! "No Status")
            then
              if truthy_entry (stateMap !! "No status")
              then default "" (stateMap !! "No status")
              else default "" (stateMap !! "No Status")
            else getGlobalFallback issueState
        end
      end
    end.

End Mapper.

(** [labelMap] of [getWorkItemType] *)
Definition labelMap : gmap string string :=
  list_to_map
    [("epic", "Epic"); ("bug", "Bug");
     ("user-story", "Product Backlog Item"); ("task", "Task")].

(** [typeMapping[key]] on the list of entries *)
Fixpoint entry (key : string) (entries : list (string * string)) : option string :=
  match entries with
  | [] => None
  | (k, v) :: rest => if String.eqb k key then Some v else entry key rest
  end.

(** The loop over [Object.entries(typeMapping)].  [Some (Some adoType)]
    when a prefix matches, [Some None] when none does, and [None] when the
    expression built from a prefix reached by the loop is outside the
    fragment of [RegExp.compile_escaped_prefix]. *)
Fixpoint prefixType (entries : list (string * string)) (issueTitle : string)
  : option (option string) :=
  match entries with
  | [] => Some None
  | (prefix, adoType) :: rest =>
    if String.eqb prefix "default" then prefixType rest issueTitle
    else
      match RegExp.compile_escaped_prefix prefix with
      | None => None
      | Some regex =>
        if RegExp.test_anchored regex issueTitle then Some (Some adoType)
        else prefixType rest issueTitle
      end
  end.

(** The loop over [labels]. *)
Fixpoint labelType (labels : list string) : option string :=
  match labels with
  | [] => None
  | label :: rest =>
    let labelLower := toLowerCase label in
    if truthy_entry (labelMap !! labelLower) then labelMap !! labelLower
    else labelType rest
  end.

(** [getWorkItemType(issueTitle, labels)]; [None] as for [prefixType]. *)
Definition getWorkItemType (config : Config) (issueTitle : string) (labels : list string)
  : option string :=
  let typeMapping := workItemTypeMapping config in
  match prefixType typeMapping issueTitle with
  | None => None
  | Some (Some adoType) => Some adoType
  | Some None =>
    match labelType labels with
    | Some adoType => Some adoType
    | None =>
      Some (if truthy_entry (entry "default" typeMapping)
            then default "" (entry "default" typeMapping)
            else "Product Backlog Item")
    end
  end.

(** *** The type resolution as the design describes it *)









(** The wildcard entry the configuration holds for a work item type, a
    source state and a project, if any. *)
Definition wildcardEntry (config : Config) (workItemType issueState projectName : jsval)
  : option string :=
  project ← projects config !! normalizeProject config projectName;
  typeMappings ← statusMappings project !! toPropertyKey workItemType;
  stateMap ← typeMappings !! normalizeState issueState;
  stateMap !! "*".

(** A configuration with one project, siwar, whose only table maps closed
    bugs through [stateMap]. *)
Definition closedBugConfig (stateMap : gmap string string) : Config := {|
  version := "1.0";
  defaultProject := "siwar";
  globalSettings := globalSettings getDefaultConfig;
  workItemTypeMapping := workItemTypeMapping getDefaultConfig;
  projects :=
    list_to_map
      [("siwar",
        {| name := "siwar"; adoAreaPath := "";
           statusMappings :=
             list_to_map [("Bug", list_to_map [("closed", stateMap)])] |})]
|}.

(** *** The other methods of the mapper *)

(** [getAreaPath(projectName)] *)
Definition getAreaPath (config : Config) (projectName : jsval) : string :=
  let projectName := normalizeProject config projectName in
  match projects config !! projectName with
  | Some project =>
    if negb (String.eqb (adoAreaPath project) "") then adoAreaPath project
    else projectName
  | None => projectName
  end.

(** [isValidProject(projectName)] *)
Definition isValidProject (config : Config) (projectName : string) : bool :=
  bool_decide (is_Some (projects config !! toLowerCase projectName)).

(** The table [getAdoState] reaches for a work item type, a source state
    and a project: [projects[projectName].statusMappings[workItemType][issueState]]. *)
Definition stateMapOf (config : Config) (workItemType issueState projectName : jsval)
  : option (gmap string string) :=
  project ← projects config !! normalizeProject config projectName;
  typeMappings ← statusMappings project !! toPropertyKey workItemType;
  typeMappings !! normalizeState issueState.

End StateMapper.

(** ** Effects

    An asynchronous function is a computation that reads and writes a state
    (the fields of the objects it mutates and the remote systems it calls)
    and either returns a value or throws. *)

Module Eff.

(** The outcome of a call: a value or an exception. *)
Inductive Result (A : Type) : Type :=
| Return (a : A)
| Throw (message : string).

Arguments Return {A} a.
Arguments Throw {A} message.

(** Computations that read and write the state and may throw. *)
Definition M (S A : Type) : Type := S -> S * Result A.

Definition ret {S A : Type} (a : A) : M S A := fun s => (s, Return a).

Definition bind {S A B : Type} (m : M S A) (f : A -> M S B) : M S B :=
  fun s =>
    match m s with
    | (s', Return a) => f a s'
    | (s', Throw e) => (s', Throw e)
    end.

(** [try { m } catch (error) { h }] *)
Definition try_catch {S A : Type} (m : M S A) (h : string -> M S A) : M S A :=
  fun s =>
    match m s with
    | (s', Throw e) => h e s'
    | r => r
    end.

Definition throw {S A : Type} (e : string) : M S A := fun s => (s, Throw e).

Notation "'let!' x ':=' m 'in' k" := (bind m (fun x => k))
  (at level 10, x name, m at level 100, k at level 200).

End Eff.

(** ** iterationCreator.js *)

Module IterationCreator.

Import RegExp Num Dates Eff.

#[local] Open Scope Z_scope.

(** The pair [{ startDate, endDate }] *)
Record DateRange : Type := {
  startDate : Date;
  endDate : Date
}.

(** [months] of [parseMonth] *)
Definition months : gmap string Z :=
  list_to_map
    [("jan", 0); ("january", 0);
     ("feb", 1); ("february", 1);
     ("mar", 2); ("march", 2);
     ("apr", 3); ("april", 3);
     ("may", 4);
     ("jun", 5); ("june", 5);
     ("jul", 6); ("july", 6);
     ("aug", 7); ("august", 7);
     ("sep", 8); ("september", 8);
     ("oct", 9); ("october", 9);
     ("nov", 10); ("november", 10);
     ("dec", 11); ("december", 11)].

(** [n || 0] for a number or [undefined] *)
Definition or_zero (n : option Z) : Z :=
  match n with
  | Some n => if n =? 0 then 0 else n
  | None => 0
  end.

(** [parseMonth(monthStr)] *)
Definition parseMonth (monthStr : string) : Z :=
  or_zero (months !! toLowerCase monthStr).

(** [/(\w+)\s+(\d+)\s*-\s*(\w+)\s+(\d+)/i] *)
Definition monthNamePattern : list Item :=
  [group (plus word); plus space; group (plus digit); star space; one (lit "-");
   star space; group (plus word); plus space; group (plus digit)].

(** [/(\d+)\/(\d+)\s*-\s*(\d+)\/(\d+)/] *)
Definition numericPattern : list Item :=
  [group (plus digit); one (lit "/"); group (plus digit); star space; one (lit "-");
   star space; group (plus digit); one (lit "/"); group (plus digit)].

(** [/(\d{4})-(\d{2})-(\d{2})\s+to\s+(\d{4})-(\d{2})-(\d{2})/] *)
Definition isoPattern : list Item :=
  [group (exactly 4 digit); one (lit "-"); group (exactly 2 digit); one (lit "-");
   group (exactly 2 digit); plus space; one (lit "t"); one (lit "o"); plus space;
   group (exactly 4 digit); one (lit "-"); group (exactly 2 digit); one (lit "-");
   group (exactly 2 digit)].

Definition patterns : list (list Item) :=
  [monthNamePattern; numericPattern; isoPattern].

Definition minus_one (n : option Z) : option Z :=
  match n with
  | Some n => Some (n - 1)
  | None => None
  end.

(** [extractDatesFromMatch(match, year)].  [caps] is [match] without its
    first element, so [match[i]] is [caps !! (i - 1)] and [match.length] is
    one more than the length of [caps].  Calling [parseMonth] on a missing
    capture throws, which the function catches to return [null]. *)
Definition extractDatesFromMatch (caps : list string) (year : Z) : option DateRange :=
  if isNaN_at caps 0 then
    match caps !! 0%nat, caps !! 2%nat with
    | Some m1, Some m3 =>
      let startMonth := parseMonth m1 in
      let startDay := parseInt_at caps 1 in
      let endMonth := parseMonth m3 in
      let endDay := parseInt_at caps 3 in
      Some {| startDate := new_Date (Some year) (Some startMonth) startDay;
              endDate := new_Date (Some year) (Some endMonth) endDay |}
    | _, _ => None
    end
  else if (S (length caps) =? 5)%nat then
    let startMonth := minus_one (parseInt_at caps 0) in
    let startDay := parseInt_at caps 1 in
    let endMonth := minus_one (parseInt_at caps 2) in
    let endDay := parseInt_at caps 3 in
    Some {| startDate := new_Date (Some year) startMonth startDay;
            endDate := new_Date (Some year) endMonth endDay |}
  else if (S (length caps) =? 7)%nat then
    Some {| startDate :=
              new_Date (toNumber_at caps 0) (minus_one (parseInt_at caps 1))
                (toNumber_at caps 2);
            endDate :=
              new_Date (toNumber_at caps 3) (minus_one (parseInt_at caps 4))
                (toNumber_at caps 5) |}
  else None.

(** The first pattern, in order, that [sprintName] matches. *)
Fixpoint firstMatch (ps : list (list Item)) (sprintName : string) : option (list string) :=
  match ps with
  | [] => None
  | p :: ps' =>
    match exec p sprintName with
    | Some caps => Some caps
    | None => firstMatch ps' sprintName
    end
  end.

(** [parseSprintDates(sprintName, year)]; the default of [year], the
    current year, is left to the caller. *)
Definition parseSprintDates (sprintName : string) (year : Z) : option DateRange :=
  match firstMatch patterns sprintName with
  | Some caps => extractDatesFromMatch caps year
  | None => None
  end.

(** [formatDate(date)] for a date object *)
Definition formatDate (date : Date) : string :=
  match date with
  | MkDate year month day => pretty year +:+ "-" +:+ pad2 (month + 1) +:+ "-" +:+ pad2 day
  | InvalidDate => "NaN-NaN-NaN"
  end.

(** *** The month names of the calendar *)



(** *** The instance and the iteration store

    The iteration store of Azure DevOps is reached through
    [this.workClient].  Its answers are not computed here: the state of the
    remote side holds, for each operation, the outcomes of the calls still
    to come, a missing outcome being a failed call, and the log of the
    requests issued so far. *)

(** [iteration.attributes] *)
Record Attributes : Type := {
  attrStartDate : option string;
  attrFinishDate : option string
}.

(** An iteration, as posted to and as returned by the store. *)
Record Iteration : Type := {
  name : string;
  attributes : Attributes;
  path : string
}.

Inductive Request : Type :=
| GetWorkApi
| GetTeamIterations
| PostTeamIteration (iteration : Iteration).

Record Remote : Type := {
  (** outcomes of [connection.getWorkApi()]: [true] when it resolves *)
  connects : list bool;
  (** outcomes of [workClient.getTeamIterations] *)
  listings : list (option (list Iteration));
  (** outcomes of [workClient.postTeamIteration] *)
  postings : list (option Iteration);
  (** requests issued, oldest first *)
  requests : list Request;
  (** year, month (from 0) and day read by [new Date()] *)
  today : Z * Z * Z
}.

(** The fields of an instance; [connection] and [workClient] record
    whether the field is set. *)
Record Creator : Type := {
  project : string;
  connection : bool;
  workClient : bool;
  existingIterations : gmap string Iteration;
  cacheLoaded : bool
}.

Record State : Type := {
  this : Creator;
  remote : Remote
}.

Definition getThis : M State Creator := fun s => (s, Return (this s)).

Definition setThis (c : Creator) : M State unit :=
  fun s => ({| this := c; remote := remote s |}, Return tt).

Definition getRemote : M State Remote := fun s => (s, Return (remote s)).

Definition setRemote (r : Remote) : M State unit :=
  fun s => ({| this := this s; remote := r |}, Return tt).

(** [connection.getWorkApi()] *)
Definition getWorkApi : M State unit :=
  let! r := getRemote in
  let! _ :=
    setRemote {| connects := tail (connects r); listings := listings r;
                 postings := postings r; requests := requests r ++ [GetWorkApi];
                 today := today r |} in
  match connects r with
  | true :: _ => ret tt
  | _ => throw "getWorkApi failed"
  end.

(** [this.workClient.getTeamIterations(teamContext)]; reading a method of
    [null] throws before any request is made. *)
Definition getTeamIterations : M State (list Iteration) :=
  let! c := getThis in
  if workClient c then
    let! r := getRemote in
    let! _ :=
      setRemote {| connects := connects r; listings := tail (listings r);
                   postings := postings r;
                   requests := requests r ++ [GetTeamIterations];
                   today := today r |} in
    match listings r with
    | Some iterations :: _ => ret iterations
    | _ => throw "getTeamIterations failed"
    end
  else throw "Cannot read properties of null".

(** [this.workClient.postTeamIteration(iteration, teamContext)] *)
Definition postTeamIteration (iteration : Iteration) : M State Iteration :=
  let! c := getThis in
  if workClient c then
    let! r := getRemote in
    let! _ :=
      setRemote {| connects := connects r; listings := listings r;
                   postings := tail (postings r);
                   requests := requests r ++ [PostTeamIteration iteration];
                   today := today r |} in
    match postings r with
    | Some created :: _ => ret created
    | _ => throw "postTeamIteration failed"
    end
  else throw "Cannot read properties of null".

(** [initialize()]: the connection is stored before the work client is
    awaited, so a failure of [getWorkApi] leaves [connection] set and
    [workClient] unset. *)
Definition initialize : M State unit :=
  let! c := getThis in
  if connection c then ret tt
  else
    let! _ :=
      setThis {| project := project c; connection := true; workClient := workClient c;
                 existingIterations := existingIterations c;
                 cacheLoaded := cacheLoaded c |} in
    let! _ := getWorkApi in
    let! c := getThis in
    setThis {| project := project c; connection := connection c; workClient := true;
               existingIterations := existingIterations c;
               cacheLoaded := cacheLoaded c |}.

(** [this.existingIterations.set(key, iteration)] *)
Definition cacheSet (key : string) (iteration : Iteration) : M State unit :=
  let! c := getThis in
  setThis {| project := project c; connection := connection c;
             workClient := workClient c;
             existingIterations := <[key := iteration]> (existingIterations c);
             cacheLoaded := cacheLoaded c |}.

(** [iterations.forEach(iteration => this.existingIterations.set(...))] *)
Fixpoint cacheAll (iterations : list Iteration) : M State unit :=
  match iterations with
  | [] => ret tt
  | iteration :: rest =>
    let! _ := cacheSet (toLowerCase (name iteration)) iteration in
    cacheAll rest
  end.

(** [this.cacheLoaded = true] *)
Definition setCacheLoaded : M State unit :=
  let! c := getThis in
  setThis {| project := project c; connection := connection c;
             workClient := workClient c;
             existingIterations := existingIterations c;
             cacheLoaded := true |}.

(** [loadExistingIterations()] *)
Definition loadExistingIterations : M State unit :=
  let! c := getThis in
  if cacheLoaded c then ret tt
  else
    let! _ := initialize in
    try_catch
      (let! iterations := getTeamIterations in
       let! _ := cacheAll iterations in
       setCacheLoaded)
      (fun _ => ret tt).

(** [iterationExists(iterationName)] *)
Definition iterationExists (iterationName : string) : M State bool :=
  let! _ := loadExistingIterations in
  let! c := getThis in
  ret (bool_decide (is_Some (existingIterations c !! toLowerCase iterationName))).

(** [getIteration(iterationName)] *)
Definition getIteration (iterationName : string) : M State (option Iteration) :=
  let! _ := loadExistingIterations in
  let! c := getThis in
  ret (existingIterations c !! toLowerCase iterationName).

(** The iteration object that [createIteration] posts. *)
Definition newIteration (projectName iterationName : string)
    (startDate endDate : option Date) (path : option string) : Iteration :=
  {| name := iterationName;
     attributes :=
       {| attrStartDate := option_map formatDate startDate;
          attrFinishDate := option_map formatDate endDate |};
     path :=
       match path with
       | Some p => if String.eqb p "" then "\" +:+ projectName +:+ "\" +:+ iterationName
                   else p
       | None => "\" +:+ projectName +:+ "\" +:+ iterationName
       end |}.

(** The [try] block of [createIteration] with its handler. *)
Definition postAndCache (iterationName : string) (startDate endDate : option Date)
    (path : option string) : M State (option Iteration) :=
  try_catch
    (let! c := getThis in
     let! created :=
       postTeamIteration
         (newIteration (project c) iterationName startDate endDate path) in
     let! _ := cacheSet (toLowerCase iterationName) created in
     ret (Some created))
    (fun _ => ret None).

(** [createIteration(iterationName, startDate, endDate, path)] *)
Definition createIteration (iterationName : string) (startDate endDate : option Date)
    (path : option string) : M State (option Iteration) :=
  let! _ := initialize in
  let! found := iterationExists iterationName in
  if found then getIteration iterationName
  else postAndCache iterationName startDate endDate path.

(** The sprint of a project item: [{ name, startDate, duration }]. *)
Record SprintInfo : Type := {
  sprintName : string;
  sprintStartDate : option string;
  duration : option Z
}.

(** [date.setDate(date.getDate() + days)] on a copy of [date] *)
Definition addDays (date : Date) (days : Z) : Date :=
  match date with
  | MkDate y m d => new_Date (Some y) (Some m) (Some (d + days))
  | InvalidDate => InvalidDate
  end.

(** [new Date()] *)
Definition currentDate (r : Remote) : Date :=
  let '(y, m, d) := today r in MkDate y m d.

Section FromSprintInfo.

(** [new Date(text)] for the start date text of a sprint; how the runtime
    reads the text is left open. *)
Variable Date_parse : string -> Date.

(** The dates [createFromSprintInfo] settles on before it creates the
    iteration. *)
Definition sprintDates (r : Remote) (info : SprintInfo) (defaultDuration : Z)
  : option Date * option Date :=
  let startDate :=
    if truthy_entry (sprintStartDate info)
    then option_map Date_parse (sprintStartDate info) else None in
  let hasDuration :=
    match duration info with Some n => negb (n =? 0) | None => false end in
  let '(startDate, endDate) :=
    match startDate with
    | Some start =>
      if hasDuration then (Some start, Some (addDays start (default 0 (duration info))))
      else (Some start, None)
    | None =>
      match parseSprintDates (sprintName info) (today r).1.1 with
      | Some parsed => (Some (IterationCreator.startDate parsed), Some (endDate parsed))
      | None => (None, None)
      end
    end in
  match startDate with
  | Some _ => (startDate, endDate)
  | None => (Some (currentDate r), Some (addDays (currentDate r) defaultDuration))
  end.

(** [createFromSprintInfo(sprintInfo, defaultDuration)] *)
Definition createFromSprintInfo (sprintInfo : option SprintInfo) (defaultDuration : Z)
  : M State (option Iteration) :=
  match sprintInfo with
  | None => ret None
  | Some info =>
    if String.eqb (sprintName info) "" then ret None
    else
      let! r := getRemote in
      let '(startDate, endDate) := sprintDates r info defaultDuration in
      createIteration (sprintName info) startDate endDate None
  end.

End FromSprintInfo.

(** The requests of a log that create an iteration. *)
Definition creations (log : list Request) : list Iteration :=
  omap (fun q => match q with PostTeamIteration i => Some i | _ => None end) log.

(** What a state keeps across calls that only read the store. *)
Definition extends (s s' : State) : Prop :=
  connection (this s') = true
  /\ (forall k, is_Some (existingIterations (this s) !! k) ->
                is_Some (existingIterations (this s') !! k))
  /\ creations (requests (remote s')) = creations (requests (remote s))
  /\ (cacheLoaded (this s) = true -> s' = s).

(** [getIterationPath(sprintName)] *)
Definition getIterationPath (c : Creator) (sprintName : string) : string :=
  project c +:+ "\" +:+ sprintName.


(** The last iteration of a listing whose lowercased name is [key]. *)
Definition lastNamed (key : string) (iterations : list Iteration) : option Iteration :=
  last (filter (fun i => toLowerCase (name i) = key) iterations).

(** *** States used as examples *)

Definition sprint1 : SprintInfo :=
  {| sprintName := "Sprint 1"; sprintStartDate := None; duration := None |}.

Definition iterationA : Iteration :=
  {| name := "Sprint 1"; attributes := {| attrStartDate := None; attrFinishDate := None |};
     path := "A" |}.

Definition iterationB : Iteration :=
  {| name := "sprint 1"; attributes := {| attrStartDate := None; attrFinishDate := None |};
     path := "B" |}.

(** An instance connected to the store, its cache loaded and empty; the
    store answers the next create requests with [posts]. *)
Definition loadedState (posts : list (option Iteration)) : State :=
  {| this := {| project := "P"; connection := true; workClient := true;
                existingIterations := ∅; cacheLoaded := true |};
     remote := {| connects := []; listings := []; postings := posts; requests := [];
                  today := (2024, 0, 1)%Z |} |}.

(** A date parser that rejects every text. *)
Definition noDate : string -> Date := fun _ => InvalidDate.

(** A fresh instance; the store refuses the first listing and returns
    [iterationB] at the second. *)
Definition freshState : State :=
  {| this := {| project := "P"; connection := false; workClient := false;
                existingIterations := ∅; cacheLoaded := false |};
     remote := {| connects := [true]; listings := [None; Some [iterationB]];
                  postings := [Some iterationA]; requests := [];
                  today := (2024, 0, 1)%Z |} |}.

End IterationCreator.

(** ** githubProjects.js *)

Module GitHubProjects.

#[local] Open Scope Z_scope.

(** The value [parseProjectInfo] stores for a field of a project item: the
    name of a single select option, a text or a date (strings), a number
    or [null], or the object [{ title, startDate, duration }] of an
    iteration. *)
Inductive FieldValue : Type :=
| FNull
| FString (s : string)
| FNumber (n : Z)
| FIteration (title : string) (startDate : option string) (duration : option Z).

(** [!!value] *)
Definition truthyField (value : FieldValue) : bool :=
  match value with
  | FNull => false
  | FString s => negb (String.eqb s "")
  | FNumber n => negb (n =? 0)
  | FIteration _ _ _ => true
  end.

(** An object whose properties are assigned one by one, such as
    [projectInfo.fields]: its own entries, in the order of their first
    assignment, which is the order of [Object.entries] for keys that are
    not array indices. *)
Definition Object (V : Type) : Type := list (string * V).

(** [object[key]]; [None] is [undefined]. *)
Fixpoint get {V : Type} (key : string) (object : Object V) : option V :=
  match object with
  | [] => None
  | (k, v) :: rest => if String.eqb k key then Some v else get key rest
  end.




(** The object [parseProjectInfo] returns. *)
Record ProjectInfo : Type := {
  projectName : string;
  projectNumber : Z;
  fields : Object FieldValue
}.




(** The first of the fields named that holds a truthy value. *)
Fixpoint firstTruthy (fieldNames : list string) (fields : Object FieldValue)
  : option FieldValue :=
  match fieldNames with
  | [] => None
  | fieldName :: rest =>
    match get fieldName fields with
    | Some value => if truthyField value then Some value else firstTruthy rest fields
    | None => firstTruthy rest fields
    end
  end.

(** [getProjectStatus(projectInfo)] *)
Definition getProjectStatus (projectInfo : option ProjectInfo) : option FieldValue :=
  match projectInfo with
  | None => None
  | Some info => firstTruthy ["Status"; "State"; "Column"] (fields info)
  end.

(** The loop of [getSprintInfo] over the sprint field names. *)
Fixpoint sprintOf (fieldNames : list string) (fields : Object FieldValue)
  : option IterationCreator.SprintInfo :=
  match fieldNames with
  | [] => None
  | fieldName :: rest =>
    match get fieldName fields with
    | Some (FIteration title startDate duration) =>
      if negb (String.eqb title "")
      then Some {| IterationCreator.sprintName := title;
                   IterationCreator.sprintStartDate := startDate;
                   IterationCreator.duration := duration |}
      else sprintOf rest fields
    | Some (FString value) =>
      if negb (String.eqb value "")
      then Some {| IterationCreator.sprintName := value;
                   IterationCreator.sprintStartDate := None;
                   IterationCreator.duration := None |}
      else sprintOf rest fields
    | _ => sprintOf rest fields
    end
  end.

(** [getSprintInfo(projectInfo)] *)
Definition getSprintInfo (projectInfo : option ProjectInfo)
  : option IterationCreator.SprintInfo :=
  match projectInfo with
  | None => None
  | Some info => sprintOf ["Sprint"; "Iteration"] (fields info)
  end.

(** [getCustomField(projectInfo, fieldName)] *)
Definition getCustomField (projectInfo : option ProjectInfo) (fieldName : string)
  : option FieldValue :=
  match projectInfo with
  | None => None
  | Some info =>
    match get fieldName (fields info) with
    | Some value => if truthyField value then Some value else None
    | None => None
    end
  end.

(** [getProjectName(projectInfo)] *)
Definition getProjectName (projectInfo : option ProjectInfo) : option string :=
  match projectInfo with
  | None => None
  | Some info =>
    let lower := toLowerCase (projectName info) in
    if String.eqb lower "" then None else Some lower
  end.

(** [lines.join('\n')] and the like *)
Fixpoint join (separator : string) (lines : list string) : string :=
  match lines with
  | [] => ""
  | [line] => line
  | line :: rest => line +:+ separator +:+ join separator rest
  end.



Section Comment.

(** How a field value is printed in the comment: the string itself, the
    digits of a number, and [JSON.stringify] of an object. *)
Variable formatted : FieldValue -> string.



End Comment.

(** [config.customFields.mappings[fieldName]] *)
Record FieldMapping : Type := {
  adoField : option string;
  workItemTypes : option (list string);
  mapping : option (Object Z)
}.

(** [config.customFields.mappings] as [config.js] sets it, in the order
    of [Object.entries]. *)
Definition mappings : Object FieldMapping :=
  [("Business Priority",
    {| adoField := Some "Microsoft.VSTS.Common.Priority"; workItemTypes := None;
       mapping := Some [("High", 1); ("Normal", 2); ("Low", 3)] |});
   ("Time Priority", {| adoField := None; workItemTypes := None; mapping := None |});
   ("Time Estimation",
    {| adoField := Some "Microsoft.VSTS.Scheduling.Effort"; workItemTypes := None;
       mapping := None |});
   ("Start Date",
    {| adoField := Some "Microsoft.VSTS.Scheduling.StartDate";
       workItemTypes := Some ["Epic"]; mapping := None |});
   ("End Date",
    {| adoField := Some "Microsoft.VSTS.Scheduling.TargetDate";
       workItemTypes := Some ["Epic"]; mapping := None |});
   ("Business Value",
    {| adoField := Some "Microsoft.VSTS.Common.BusinessValue"; workItemTypes := None;
       mapping := None |});
   ("Product", {| adoField := None; workItemTypes := None; mapping := None |});
   ("Category", {| adoField := None; workItemTypes := None; mapping := None |});
   ("Assignee QA", {| adoField := None; workItemTypes := None; mapping := None |});
   ("Business Owner", {| adoField := None; workItemTypes := None; mapping := None |})].

(** An operation [{ op: "add", path, value }] of [mapCustomFields]. *)
Record FieldPatch : Type := {
  path : string;
  value : FieldValue
}.

(** [ToPropertyKey(value)] for the values a mapping table is read with. *)
Definition fieldKey (value : FieldValue) : string :=
  match value with
  | FNull => "null"
  | FString s => s
  | FNumber n => pretty n
  | FIteration _ _ _ => "[object Object]"
  end.

(** One turn of the loop of [mapCustomFields]. *)
Definition mapField (fields : Object FieldValue) (workItemType : string)
    (entry : string * FieldMapping) : option FieldPatch :=
  let '(fieldName, m) := entry in
  match get fieldName fields with
  | None => None
  | Some value =>
    if negb (truthyField value) then None
    else if match workItemTypes m with
            | Some types => negb (bool_decide (workItemType ∈ types))
            | None => false
            end
    then None
    else
      match adoField m with
      | None => None
      | Some field =>
        if String.eqb field "" then None
        else
          let mappedValue :=
            match mapping m with
            | Some table =>
              match get (fieldKey value) table with
              | Some n => FNumber n
              | None => value
              end
            | None => value
            end in
          Some {| path := "/fields/" +:+ field; value := mappedValue |}
      end
  end.

(** [mapCustomFields(vm, projectInfo, workItemType)] over the mappings
    [table]. *)
Definition mapCustomFields (table : Object FieldMapping) (projectInfo : option ProjectInfo)
    (workItemType : string) : list FieldPatch :=
  match projectInfo with
  | None => []
  | Some info => omap (mapField (fields info) workItemType) table
  end.

End GitHubProjects.

(** ** index-enhanced.js *)

Module Sync.

Import Eff.

(** [config.features] *)
Record Features : Type := {
  syncTitle : bool;
  syncDescription : bool;
  syncState : bool;
  syncAssignees : bool;
  syncLabels : bool;
  syncComments : bool;
  syncDates : bool;
  syncHierarchy : bool;
  syncProjectStatus : bool;
  syncPullRequests : bool;
  syncMilestones : bool;
  syncIterations : bool;
  syncCustomFields : bool;
  syncDevelopmentLinks : bool;
  syncReviewers : bool;
  createIterations : bool
}.

(** [config.features] as [config.js] sets it. *)
Definition defaultFeatures : Features := {|
  syncTitle := true;
  syncDescription := true;
  syncState := true;
  syncAssignees := true;
  syncLabels := true;
  syncComments := true;
  syncDates := true;
  syncHierarchy := true;
  syncProjectStatus := true;
  syncPullRequests := true;
  syncMilestones := false;
  syncIterations := true;
  syncCustomFields := false;
  syncDevelopmentLinks := true;
  syncReviewers := true;
  createIterations := true
|}.

(** The view model of an issue, with the fields the workflow reads;
    [ghToken] is [vm.env.ghToken] and [wit] is [vm.env.wit]. *)
Record VM : Type := {
  number : Z;
  title : string;
  body : string;
  state : string;
  user : string;
  labels : list string;
  repository : string;
  ghToken : string;
  wit : string
}.

(** A work item of the target system. *)
Record WorkItem : Type := {
  id : Z;
  fields : gmap string string
}.

(** What the variable [workItem] holds: a work item, [null] or [-1]. *)
Inductive Lookup : Type :=
| Item (workItem : WorkItem)
| Null
| MinusOne.

(** The project board entry of an issue. *)
Record ProjectInfo : Type := {
  projectName : string;
  projectNumber : Z;
  projectFields : gmap string string
}.

Record PatchOperation : Type := {
  op : string;
  path : string;
  value : string
}.

(** The calls made to Azure DevOps and to GitHub. *)
Inductive Call : Type :=
| GetIssueProjectInfo (issueNumber : Z)
| GetWorkItemTrackingApi
| QueryByWiql (issueNumber : Z) (repositoryTag : string)
| GetWorkItem (workItemId : Z)
| CreateWorkItem (type : string) (document : list PatchOperation)
| UpdateWorkItem (workItemId : Z) (document : list PatchOperation)
| UpdateIssue (issueNumber : Z) (newBody : string).

(** What a call is answered with. *)
Inductive Answer : Type :=
| Fails
| Resolves
| Ids (workItemIds : list Z)
| AWorkItem (workItem : WorkItem)
| AProjectInfo (projectInfo : option ProjectInfo).

(** The remote systems: the answers to the calls still to come, in the
    order of the calls (the workflow is sequential), and the calls made so
    far, oldest first.  A missing answer and an answer of a kind the call
    cannot return are failed calls. *)
Record Remote : Type := {
  answers : list Answer;
  calls : list Call
}.

Definition call (c : Call) : M Remote Answer :=
  fun r =>
    ({| answers := tail (answers r); calls := calls r ++ [c] |},
     Return (default Fails (head (answers r)))).

(** [s.includes(t)] *)
Fixpoint includes (t s : string) : bool :=
  String.prefix t s
  || match s with
     | String _ s' => includes t s'
     | EmptyString => false
     end.

Definition crlf : string := String (ascii_of_N 13) (String (ascii_of_N 10) EmptyString).

(** [projectsClient.getIssueProjectInfo(owner, repo, issue.number)]; the
    method catches its errors and returns [null]. *)
Definition getIssueProjectInfo (issueNumber : Z) : M Remote (option ProjectInfo) :=
  let! a := call (GetIssueProjectInfo issueNumber) in
  match a with
  | AProjectInfo p => ret p
  | _ => ret None
  end.

(** [connection.getWorkItemTrackingApi()] *)
Definition getWorkItemTrackingApi : M Remote unit :=
  let! a := call GetWorkItemTrackingApi in
  match a with
  | Resolves => ret tt
  | _ => throw "getWorkItemTrackingApi failed"
  end.

(** [find(vm)] *)
Definition find (vm : VM) : M Remote Lookup :=
  let! client :=
    try_catch (let! _ := getWorkItemTrackingApi in ret true) (fun _ => ret false) in
  if negb client then ret MinusOne
  else
    try_catch
      (let! queryResult := call (QueryByWiql (number vm) (repository vm)) in
       match queryResult with
       | Ids [] => ret Null
       | Ids (workItemRef :: _) =>
         let! workItem := call (GetWorkItem workItemRef) in
         match workItem with
         | AWorkItem w => ret (Item w)
         | _ => throw "getWorkItem failed"
         end
       | _ => throw "queryByWiql failed"
       end)
      (fun _ => ret MinusOne).

(** [executeWorkItemCreate(patchDocument, env)] *)
Definition executeWorkItemCreate (patchDocument : list PatchOperation) (type : string)
  : M Remote Lookup :=
  let! _ := getWorkItemTrackingApi in
  try_catch
    (let! workItem := call (CreateWorkItem type patchDocument) in
     match workItem with
     | AWorkItem w => ret (Item w)
     | _ => throw "createWorkItem failed"
     end)
    (fun _ => ret MinusOne).

(** [updateWorkItemDirect(patchDocument, workItemId, env)] *)
Definition updateWorkItemDirect (patchDocument : list PatchOperation) (workItemId : Z)
  : M Remote Lookup :=
  let! _ := getWorkItemTrackingApi in
  try_catch
    (let! workItem := call (UpdateWorkItem workItemId patchDocument) in
     match workItem with
     | AWorkItem w => ret (Item w)
     | _ => throw "updateWorkItem failed"
     end)
    (fun _ => ret Null).

(** [updateIssueBody(vm, workItem)] *)
Definition updateIssueBody (vm : VM) (workItem : WorkItem) : M Remote unit :=
  if includes ("AB#" +:+ pretty (id workItem)) (body vm) then ret tt
  else
    try_catch
      (let! result := call (UpdateIssue (number vm)
                              (body vm +:+ crlf +:+ crlf +:+ "AB#" +:+ pretty (id workItem))) in
       match result with
       | Resolves => ret tt
       | _ => throw "issues.update failed"
       end)
      (fun _ => ret tt).

(** The functions of this file read [projectsClient], which is a local
    variable of [handleSingleIssue] and of [handleBulkMigration] and is
    bound nowhere else: evaluating it throws. *)
Definition projectsClient_unbound : string :=
  "ReferenceError: projectsClient is not defined".

Section Workflow.

(** [config.features] and [config.errorHandling.continueOnError] *)
Variable features : Features.
Variable continueOnError : bool.

(** [converter.makeHtml] of showdown *)
Variable makeHtml : string -> string.

(** [stateMapper.getWorkItemType] *)
Variable getWorkItemType : string -> list string -> string.

(** The patch document [createWorkItem] assembles for an issue that is on
    no project board; its content has no bearing on the workflow. *)
Variable createPatch : VM -> list PatchOperation.

(** [createWorkItem(vm, projectInfo, stateMapper, userMapper)] for a view
    model without comments, as bulk migration builds it.  With a project
    entry the function stops at its first use of [projectsClient]. *)
Definition createWorkItem (vm : VM) (projectInfo : option ProjectInfo) : M Remote Lookup :=
  match projectInfo with
  | Some _ => throw projectsClient_unbound
  | None => executeWorkItemCreate (createPatch vm) (wit vm)
  end.

(** The patch document of [updateWorkItem]. *)
Definition updatePatch (vm : VM) (workItem : WorkItem) (projectInfo : option ProjectInfo)
  : Result (list PatchOperation) :=
  let newTitle := title vm +:+ " (GitHub Issue #" +:+ pretty (number vm) +:+ ")" in
  let titlePatch :=
    if syncTitle features
       && negb (bool_decide (fields workItem !! "System.Title" = Some newTitle))
    then [{| op := "replace"; path := "/fields/System.Title"; value := newTitle |}]
    else [] in
  let descriptionPatch :=
    if syncDescription features
    then [{| op := "replace"; path := "/fields/System.Description";
             value := makeHtml (body vm) |}]
    else [] in
  if syncProjectStatus features && bool_decide (is_Some projectInfo)
  then Throw projectsClient_unbound
  else
    Return (titlePatch ++ descriptionPatch
            ++ [{| op := "add"; path := "/fields/System.History";
                   value := "Issue updated on GitHub by " +:+ user vm |}])%list.

(** [updateWorkItem(vm, workItem, projectInfo, stateMapper, userMapper)] *)
Definition updateWorkItem (vm : VM) (workItem : WorkItem) (projectInfo : option ProjectInfo)
  : M Remote Lookup :=
  match updatePatch vm workItem projectInfo with
  | Throw e => throw e
  | Return patchDocument =>
    if (0 <? length patchDocument)%nat
    then updateWorkItemDirect patchDocument (id workItem)
    else ret (Item workItem)
  end.

Definition withType (vm : VM) (workItemType : string) : VM :=
  {| number := number vm; title := title vm; body := body vm; state := state vm;
     user := user vm; labels := labels vm; repository := repository vm;
     ghToken := ghToken vm; wit := workItemType |}.

(** The counters of [handleBulkMigration]. *)
Record Summary : Type := {
  successCount : nat;
  failCount : nat;
  failedIssues : list (Z * string * string)
}.

Definition succeeded (s : Summary) : Summary :=
  {| successCount := S (successCount s); failCount := failCount s;
     failedIssues := failedIssues s |}.

Definition failed (s : Summary) (vm : VM) (error : string) : Summary :=
  {| successCount := successCount s; failCount := S (failCount s);
     failedIssues := failedIssues s ++ [(number vm, title vm, error)] |}.

(** The body of the loop of [handleBulkMigration] over the issues of a
    batch, for the view model of one issue; [projectsClient] is set when
    [syncProjectStatus] is. *)
Definition migrateIssue (vm : VM) (summary : Summary) : M Remote Summary :=
  try_catch
    (let! projectInfo :=
       if syncProjectStatus features then getIssueProjectInfo (number vm) else ret None in
     let! workItem := find vm in
     match workItem with
     | Null | MinusOne =>
       let vm := withType vm (getWorkItemType (title vm) (labels vm)) in
       let! workItem := createWorkItem vm projectInfo in
       match workItem with
       | Item w =>
         let! _ := if String.eqb (ghToken vm) "" then ret tt else updateIssueBody vm w in
         ret (succeeded summary)
       | _ => ret (failed summary vm "Creation failed")
       end
     | Item w =>
       let! _ := updateWorkItem vm w projectInfo in
       ret (succeeded summary)
     end)
    (fun error =>
       if continueOnError then ret (failed summary vm error) else throw error).

(** The loop itself. *)
Fixpoint migrateAll (issues : list VM) (summary : Summary) : M Remote Summary :=
  match issues with
  | [] => ret summary
  | vm :: rest =>
    let! summary := migrateIssue vm summary in
    migrateAll rest summary
  end.

(** The part of [handleSingleIssue] that finds or creates the work item:
    [None] when the function returns early after a failure (or is left
    with [null]), the work item otherwise. *)
Definition findOrCreate (vm : VM) (projectInfo : option ProjectInfo)
  : M Remote (option WorkItem) :=
  let! workItem := find vm in
  match workItem with
  | MinusOne => ret None
  | Null =>
    let vm := withType vm (getWorkItemType (title vm) (labels vm)) in
    let! workItem := createWorkItem vm projectInfo in
    match workItem with
    | MinusOne => ret None
    | Null =>
      if String.eqb (ghToken vm) "" then ret None
      else throw "Cannot read properties of null"
    | Item w =>
      let! _ := if String.eqb (ghToken vm) "" then ret tt else updateIssueBody vm w in
      ret (Some w)
    end
  | Item w => ret (Some w)
  end.

End Workflow.

(** The create requests of a log. *)
Definition creates (log : list Call) : list (string * list PatchOperation) :=
  omap (fun c => match c with CreateWorkItem t d => Some (t, d) | _ => None end) log.

(** The update requests of a log. *)
Definition updates (log : list Call) : list Z :=
  omap (fun c => match c with UpdateWorkItem i _ => Some i | _ => None end) log.

(** *** The event handlers and the helpers of [createWorkItem] *)

(** The fields of the view model that the handlers below read besides
    those of [VM]; [bypassRules] is [vm.env.bypassRules]. *)
Record Event : Type := {
  action : string;
  repo_name : string;
  label : string;
  assignees : list string;
  closed_at : option string;
  bypassRules : bool;
  comment_text : string;
  comment_url : string
}.


(** [config.comments] *)
Record Comments : Type := {
  includeAuthor : bool;
  includeDate : bool;
  includeLinkBack : bool
}.





(** [s.split(separator)] for a separator that is not empty: [s] is cut at
    each occurrence of the separator, found from left to right.  [skip]
    counts the characters of an occurrence still to pass and [piece] holds
    the piece being read. *)
Fixpoint splitFrom (separator s : string) (skip : nat) (piece : string) : list string :=
  match s with
  | EmptyString => [piece]
  | String c s' =>
    match skip with
    | S n => splitFrom separator s' n piece
    | O =>
      if String.prefix separator s
      then piece :: splitFrom separator s' (String.length separator - 1) ""
      else splitFrom separator s' 0 (piece +:+ String c EmptyString)
    end
  end.

Definition split (separator s : string) : list string := splitFrom separator s 0 "".

(** [workItem.fields["System.Tags"] || ""] *)
Definition currentTags (workItem : WorkItem) : string :=
  default "" (fields workItem !! "System.Tags").

(** [workItem.fields["System.WorkItemType"]] *)
Definition workItemType (workItem : WorkItem) : jsval :=
  match fields workItem !! "System.WorkItemType" with
  | Some type => JString type
  | None => JUndefined
  end.

(** [addComment(workItemId, commentText, env)] *)
Definition addComment (workItemId : Z) (commentText : string) : M Remote Lookup :=
  updateWorkItemDirect
    [{| op := "add"; path := "/fields/System.History"; value := commentText |}] workItemId.

(** [addLabel(vm, workItem)] *)
Definition addLabel (event : Event) (workItem : WorkItem) : M Remote Lookup :=
  let currentTags := currentTags workItem in
  if includes (label event) currentTags then ret (Item workItem)
  else
    let currentTags :=
      if negb (String.eqb currentTags "") then currentTags +:+ "; " +:+ label event
      else label event in
    updateWorkItemDirect
      [{| op := "replace"; path := "/fields/System.Tags"; value := currentTags |}]
      (id workItem).

(** [removeLabel(vm, workItem)] *)
Definition removeLabel (event : Event) (workItem : WorkItem) : M Remote Lookup :=
  let currentTags := currentTags workItem in
  if negb (includes (label event) currentTags) then ret (Item workItem)
  else
    let currentTags :=
      GitHubProjects.join "; "
        (List.filter (fun tag => negb (String.eqb tag (label event)))
           (split "; " currentTags)) in
    updateWorkItemDirect
      [{| op := "replace"; path := "/fields/System.Tags"; value := currentTags |}]
      (id workItem).

Section Handlers.

(** [config.features], [config.comments] and the configuration of the
    state mapper *)
Variable features : Features.
Variable comments : Comments.
Variable stateConfig : StateMapper.Config.

(** [converter.makeHtml] of showdown, [new Date(text).toLocaleString()],
    and [new Date().toISOString()] *)
Variable makeHtml : string -> string.
Variable toLocaleString : string -> string.
Variable now : string.

(** [updateAssignee(vm, workItem, userMapper)], whose patch document holds
    an operation without a value *)
Variable updateAssignee : VM -> Event -> WorkItem -> M Remote Lookup.

Definition quote : string := String (ascii_of_N 34) EmptyString.

(** [buildCommentHtml(comment)] for
    [{ body, user: { login }, created_at, html_url }] *)
Definition buildCommentHtml (body login created_at html_url : string) : string :=
  let bodyHtml := makeHtml body in
  let html := "" in
  let html :=
    if includeAuthor comments
    then html +:+ "<strong>@" +:+ (if String.eqb login "" then "unknown" else login)
         +:+ "</strong>"
    else html in
  let html :=
    if includeDate comments
    then html +:+ " <em>(" +:+ toLocaleString created_at +:+ ")</em>"
    else html in
  let html := html +:+ "<br/>" +:+ bodyHtml in
  if includeLinkBack comments && negb (String.eqb html_url "")
  then html +:+ "<br/><small><a href=" +:+ quote +:+ html_url +:+ quote +:+ " target="
       +:+ quote +:+ "_blank" +:+ quote +:+ ">View on GitHub</a></small>"
  else html.

(** [closeWorkItem(vm, workItem, projectInfo, stateMapper)]; with a
    project entry the function stops at [projectsClient]. *)
Definition closeWorkItem (vm : VM) (event : Event) (workItem : WorkItem)
    (projectInfo : option ProjectInfo) : M Remote Lookup :=
  match projectInfo with
  | Some _ => throw projectsClient_unbound
  | None =>
    let closedState :=
      StateMapper.getAdoState stateConfig (workItemType workItem) (JString "closed") JNull
        (JString "In Production") in
    let patchDocument :=
      [{| op := "replace"; path := "/fields/System.State"; value := closedState |};
       {| op := "add"; path := "/fields/System.History";
          value := "Issue closed on GitHub by " +:+ user vm |}] in
    let patchDocument :=
      if syncDates features && truthy_entry (closed_at event) && bypassRules event
      then (patchDocument
            ++ [{| op := "add"; path := "/fields/System.ClosedDate";
                   value := default "" (closed_at event) |}])%list
      else patchDocument in
    updateWorkItemDirect patchDocument (id workItem)
  end.

(** [reopenWorkItem(vm, workItem, projectInfo, stateMapper)] *)
Definition reopenWorkItem (vm : VM) (workItem : WorkItem)
    (projectInfo : option ProjectInfo) : M Remote Lookup :=
  match projectInfo with
  | Some _ => throw projectsClient_unbound
  | None =>
    let reopenedState :=
      StateMapper.getAdoState stateConfig (workItemType workItem) (JString "open") JNull
        (JString "No status") in
    updateWorkItemDirect
      [{| op := "replace"; path := "/fields/System.State"; value := reopenedState |};
       {| op := "add"; path := "/fields/System.History";
          value := "Issue reopened on GitHub by " +:+ user vm |}]
      (id workItem)
  end.

(** [handleAction(vm, workItem, projectInfo, stateMapper, userMapper)];
    [workItem] is [None] when the variable holds [null]. *)
Definition handleAction (vm : VM) (event : Event) (workItem : option WorkItem)
    (projectInfo : option ProjectInfo) : M Remote unit :=
  let run (handler : WorkItem -> M Remote Lookup) : M Remote unit :=
    match workItem with
    | Some w => let! _ := handler w in ret tt
    | None => ret tt
    end in
  if String.eqb (action event) "opened" then ret tt
  else if String.eqb (action event) "edited"
  then run (fun w => updateWorkItem features makeHtml vm w projectInfo)
  else if String.eqb (action event) "created"
  then
    if negb (String.eqb (comment_text event) "")
    then run (fun w =>
                addComment (id w)
                  (buildCommentHtml (comment_text event) (user vm) now (comment_url event)))
    else ret tt
  else if String.eqb (action event) "closed"
  then run (fun w => closeWorkItem vm event w projectInfo)
  else if String.eqb (action event) "reopened"
  then run (fun w => reopenWorkItem vm w projectInfo)
  else if String.eqb (action event) "assigned" || String.eqb (action event) "unassigned"
  then run (updateAssignee vm event)
  else if String.eqb (action event) "labeled"
  then if negb (String.eqb (label event) "") then run (addLabel event) else ret tt
  else if String.eqb (action event) "unlabeled"
  then if negb (String.eqb (label event) "") then run (removeLabel event) else ret tt
  else ret tt.

End Handlers.

(** *** The issues of the repository, fetched page by page *)

(** An entry of [response.data]; [pull_request] tells whether the entry
    has that property. *)
Record Issue : Type := {
  issue_number : Z;
  issue_title : string;
  pull_request : bool
}.

(** The answers of [octokit.issues.listForRepo] still to come, [None] for
    a call that fails (a missing answer is a failed call), and the numbers
    of the pages asked for so far. *)
Record Listing : Type := {
  pages : list (option (list Issue));
  asked : list Z
}.

Definition perPage : nat := 100.

(** The loop of [handleBulkMigration] that fetches the issues, from page
    [page] on, [issues] being those gathered so far.  It runs until the
    service answers with an empty or a short page, or fails. *)
Fixpoint fetchPages (answers : list (option (list Issue))) (page : Z)
    (asked : list Z) (issues : list Issue) : Listing * Result (list Issue) :=
  match answers with
  | Some data :: rest =>
    let asked := (asked ++ [page])%list in
    if (length data =? 0)%nat then ({| pages := rest; asked := asked |}, Return issues)
    else
      let onlyIssues := List.filter (fun issue => negb (pull_request issue)) data in
      let issues := (issues ++ onlyIssues)%list in
      if (length data <? perPage)%nat
      then ({| pages := rest; asked := asked |}, Return issues)
      else fetchPages rest (page + 1) asked issues
  | None :: rest =>
    ({| pages := rest; asked := (asked ++ [page])%list |}, Throw "listForRepo failed")
  | [] =>
    ({| pages := []; asked := (asked ++ [page])%list |}, Throw "listForRepo failed")
  end.

(** The fetch of [handleBulkMigration]: [page] starts at 1. *)
Definition fetchIssues : M Listing (list Issue) :=
  fun listing => fetchPages (pages listing) 1 (asked listing) [].

(** The view model with another body. *)
Definition withBody (vm : VM) (newBody : string) : VM :=
  {| number := number vm; title := title vm; body := newBody; state := state vm;
     user := user vm; labels := labels vm; repository := repository vm;
     ghToken := ghToken vm; wit := wit vm |}.

(** The tags [addLabel] writes when the label is not among the current
    tags. *)
Definition labelled (currentTags label : string) : string :=
  if String.eqb currentTags "" then label else currentTags +:+ "; " +:+ label.

(** What a call leaves in the log: nothing, the connection alone, or the
    connection and one update of the work item [workItemId]. *)
Definition atMostOneUpdate (workItemId : Z) (r r' : Remote) : Prop :=
  calls r' = calls r
  \/ calls r' = (calls r ++ [GetWorkItemTrackingApi])%list
  \/ exists document,
       calls r' = (calls r ++ [GetWorkItemTrackingApi; UpdateWorkItem workItemId document])%list.

(** *** An issue and its work items, used as examples *)

Definition crash : VM :=
  {| number := 7; title := "Crash"; body := "It crashes."; state := "open";
     user := "octocat"; labels := ["bug"]; repository := "app"; ghToken := "token";
     wit := "Product Backlog Item" |}.

(** The work item of [crash] with a given description, under two ids. *)
Definition workItem101 (description : string) : WorkItem :=
  {| id := 101;
     fields := list_to_map [("System.Title", "Crash (GitHub Issue #7)");
                            ("System.Description", description)] |}.

Definition workItem102 (description : string) : WorkItem :=
  {| id := 102;
     fields := list_to_map [("System.Title", "Crash (GitHub Issue #7)");
                            ("System.Description", description)] |}.

Definition emptySummary : Summary :=
  {| successCount := 0; failCount := 0; failedIssues := [] |}.

End Sync.

(** ** userMapper.js *)

Module UserMapper.

Import Eff.

#[local] Open Scope Z_scope.

#[local] Set Warnings "-register-all".

(** A value read by [JSON.parse]; the entries of an object are listed as
    [Object.entries] enumerates them. *)
Inductive Json : Type :=
| JsNull
| JsBool (b : bool)
| JsNumber (n : Z)
| JsString (s : string)
| JsArray (items : list Json)
| JsObject (entries : list (string * Json)).

(** [!!v] *)
Definition truthyJson (v : Json) : bool :=
  match v with
  | JsNull => false
  | JsBool b => b
  | JsNumber n => negb (n =? 0)
  | JsString s => negb (String.eqb s "")
  | JsArray _ | JsObject _ => true
  end.

(** [this.mapping]: a [Map], which keeps its entries in the order of their
    first insertion. *)
Definition Mapping : Type := list (string * Json).

(** [mapping.get(key)] *)
Fixpoint Map_get (key : string) (mapping : Mapping) : option Json :=
  match mapping with
  | [] => None
  | (k, v) :: rest => if String.eqb k key then Some v else Map_get key rest
  end.

(** [mapping.has(key)] *)
Definition Map_has (key : string) (mapping : Mapping) : bool :=
  bool_decide (is_Some (Map_get key mapping)).

(** [mapping.set(key, value)]: the value of a key already present is
    replaced where it stands, a new key goes last. *)
Fixpoint Map_set (key : string) (value : Json) (mapping : Mapping) : Mapping :=
  match mapping with
  | [] => [(key, value)]
  | (k, v) :: rest =>
    if String.eqb k key then (k, value) :: rest else (k, v) :: Map_set key value rest
  end.

(** [mapping.delete(key)] *)
Fixpoint Map_delete (key : string) (mapping : Mapping) : Mapping :=
  match mapping with
  | [] => []
  | (k, v) :: rest =>
    if String.eqb k key then Map_delete key rest else (k, v) :: Map_delete key rest
  end.

(** [this.mapping.set(...)] as a step of a method *)
Definition set (key : string) (value : Json) : M Mapping unit :=
  fun mapping => (Map_set key value mapping, Return tt).

(** [array.forEach(f)] *)
Fixpoint forEach {A : Type} (f : A -> M Mapping unit) (array : list A) : M Mapping unit :=
  match array with
  | [] => ret tt
  | a :: rest => let! _ := f a in forEach f rest
  end.

(** [item.name] for a property that no prototype defines; [None] is
    [undefined].  Reading a property of [null] throws and is handled by
    the callers. *)
Definition property (name : string) (item : Json) : option Json :=
  match item with
  | JsObject entries => Map_get name entries
  | _ => None
  end.

(** The callback of [loadMappingData] on an array:
    [if (item.github && item.ado) this.mapping.set(item.github.toLowerCase(), item.ado)] *)
Definition setItem (item : Json) : M Mapping unit :=
  match item with
  | JsNull => throw "TypeError: Cannot read properties of null"
  | _ =>
    match property "github" item, property "ado" item with
    | Some github, Some ado =>
      if truthyJson github && truthyJson ado then
        match github with
        | JsString g => set (toLowerCase g) ado
        | _ => throw "TypeError: item.github.toLowerCase is not a function"
        end
      else ret tt
    | _, _ => ret tt
    end
  end.

(** The callback of [loadFromJsonString]:
    [if (Array.isArray(tuple) && tuple.length >= 2)
       this.mapping.set(tuple[0].toLowerCase(), tuple[1])] *)
Definition setTuple (tuple : Json) : M Mapping unit :=
  match tuple with
  | JsArray (JsString github :: ado :: _) => set (toLowerCase github) ado
  | JsArray (JsNull :: _ :: _) => throw "TypeError: Cannot read properties of null"
  | JsArray (_ :: _ :: _) => throw "TypeError: tuple[0].toLowerCase is not a function"
  | _ => ret tt
  end.

Section Loading.

(** [JSON.parse]; [None] when it throws a [SyntaxError]. *)
Variable JSON_parse : string -> option Json.

(** [fs.existsSync] and [fs.readFileSync]: the content of the file at a
    path, if there is one. *)
Variable readFile : string -> option string.

(** [loadMappingData(data)] *)
Definition loadMappingData (data : Json) : M Mapping unit :=
  let! data :=
    match data with
    | JsString path =>
      match readFile path with
      | Some content =>
        match JSON_parse content with
        | Some parsed => ret (Some parsed)
        | None => throw "SyntaxError"
        end
      | None => ret None
      end
    | _ => ret (Some data)
    end in
  match data with
  | None => ret tt
  | Some (JsArray items) => forEach setItem items
  | Some JsNull => throw "TypeError: Cannot convert undefined or null to object"
  | Some (JsObject entries) =>
    forEach (fun e : string * Json => set (toLowerCase e.1) e.2) entries
  | Some _ => ret tt
  end.

(** [loadFromJsonString(jsonString)] *)
Definition loadFromJsonString (jsonString : string) : M Mapping unit :=
  try_catch
    (match JSON_parse jsonString with
     | None => throw "SyntaxError"
     | Some (JsArray data) => forEach setTuple data
     | Some _ => ret tt
     end)
    (fun _ => ret tt).

End Loading.

(** [getAdoUser(githubUsername)]; [None] is [null]. *)
Definition getAdoUser (mapping : Mapping) (githubUsername : string) : option Json :=
  if String.eqb githubUsername "" then None
  else
    match Map_get (toLowerCase githubUsername) mapping with
    | Some adoUser => if truthyJson adoUser then Some adoUser else None
    | None => None
    end.

(** [getAdoUsers(githubUsernames)] *)
Definition getAdoUsers (mapping : Mapping) (githubUsernames : list string) : list Json :=
  omap (getAdoUser mapping) githubUsernames.

(** [getPrimaryAdoUser(githubUsernames)] *)
Definition getPrimaryAdoUser (mapping : Mapping) (githubUsernames : list string)
  : option Json :=
  head (getAdoUsers mapping githubUsernames).

(** [getAdditionalAdoUsers(githubUsernames)] *)
Definition getAdditionalAdoUsers (mapping : Mapping) (githubUsernames : list string)
  : list Json :=
  tail (getAdoUsers mapping githubUsernames).

(** [hasmapping(githubUsername)] *)
Definition hasmapping (mapping : Mapping) (githubUsername : string) : bool :=
  if String.eqb githubUsername "" then false
  else Map_has (toLowerCase githubUsername) mapping.

(** [exportToJson()] *)
Definition exportToJson (mapping : Mapping) : Json :=
  JsArray ((fun e : string * Json =>
              JsObject [("github", JsString e.1); ("ado", e.2)]) <$> mapping).

(** [addMapping(githubUsername, adoEmail)] *)
Definition addMapping (githubUsername : string) (adoEmail : Json) (mapping : Mapping)
  : Mapping :=
  if negb (String.eqb githubUsername "") && truthyJson adoEmail
  then Map_set (toLowerCase githubUsername) adoEmail mapping
  else mapping.

(** [removeMapping(githubUsername)] *)
Definition removeMapping (githubUsername : string) (mapping : Mapping) : Mapping :=
  Map_delete (toLowerCase githubUsername) mapping.

(** [clearAll()] *)
Definition clearAll (mapping : Mapping) : Mapping := [].

(** The keys of a mapping are pairwise distinct and in lower case. *)
Definition lowerKeys (mapping : Mapping) : Prop :=
  NoDup mapping.*1 /\ Forall (fun key => toLowerCase key = key) mapping.*1.

(** The tuple [[github, ado]] that [loadFromJsonString] reads. *)
Definition tuple (e : string * Json) : Json := JsArray [JsString e.1; e.2].

(** The mapping after setting each pair in turn, the names lowercased. *)
Definition setAll (pairs : list (string * Json)) (mapping : Mapping) : Mapping :=
  foldl (fun m e => Map_set (toLowerCase e.1) e.2 m) mapping pairs.

End UserMapper.

(** ** Calendar dates and their text

    What the round trip between [formatDate] and [parseSprintDates] is
    stated with: the dates of the calendar, and the strings of decimal
    digits. *)

Module Calendar.

Import RegExp Num Dates.

#[local] Open Scope Z_scope.

Definition leapYear (y : Z) : bool :=
  (y mod 4 =? 0) && (negb (y mod 100 =? 0) || (y mod 400 =? 0)).

(** The days of month [m], counted from 0, in year [y]. *)
Definition daysInMonth (y m : Z) : Z :=
  if m =? 1 then (if leapYear y then 29 else 28)
  else if (m =? 3) || (m =? 5) || (m =? 8) || (m =? 10) then 30
  else 31.

(** A date of the calendar whose year has four digits. *)
Definition calendarDate (date : Date) : bool :=
  match date with
  | MkDate y m d =>
    (1000 <=? y) && (y <=? 9999) && (0 <=? m) && (m <=? 11)
    && (1 <=? d) && (d <=? daysInMonth y m)
  | InvalidDate => false
  end.

(** The character of the decimal digit [k]. *)
Definition digitChar (k : Z) : ascii := pretty_N_char (Z.to_N k).

Fixpoint allChars (f : ascii -> bool) (s : string) : bool :=
  match s with
  | String c s' => f c && allChars f s'
  | EmptyString => true
  end.

(** [n] decimal digits *)
Definition digits (n : nat) (s : string) : bool :=
  (String.length s =? n)%nat && allChars is_digit s.

Fixpoint zeros (n : nat) : string :=
  match n with
  | O => EmptyString
  | S n' => String "0" (zeros n')
  end.

(** Two strings of one length whose characters are related one by one. *)
Fixpoint similar (R : ascii -> ascii -> Prop) (s s' : string) : Prop :=
  match s, s' with
  | EmptyString, EmptyString => True
  | String c t, String c' t' => R c c' /\ similar R t t'
  | _, _ => False
  end.

(** A digit against [0], any character against itself. *)
Definition digitOrSame (c c' : ascii) : Prop :=
  (is_digit c = true /\ c' = "0"%char) \/ c = c'.

End Calendar.

(** * Properties *)

Import StateMapper.

(** ** The state mapper *)

(** A truthy entry is a non-empty string. *)
Lemma truthy_entry_Some (o : option string) :
  truthy_entry o = true -> exists v, o = Some v /\ v <> "" /\ default "" o = v.
Proof.
  destruct o as [v|]; simpl; [|discriminate].
  destruct (String.eqb_spec v ""); [discriminate|]. eauto.
Qed.

Lemma truthy_entry_value (o : option string) (v : string) :
  o = Some v -> v <> "" -> truthy_entry o = true.
Proof.
  intros -> Hv. simpl. destruct (String.eqb_spec v ""); [contradiction|reflexivity].
Qed.

(** Membership in a list written out. *)
Ltac find_elem :=
  first [apply list_elem_of_here | apply list_elem_of_further; find_elem].

(** The entries a lookup in a table written out can have found. *)
Ltac table_entry H :=
  apply elem_of_list_to_map_2 in H;
  repeat (apply elem_of_cons in H; destruct H as [H|H]);
  [..|apply elem_of_nil in H; contradiction].







(** Under the default configuration the global fallback is ["Done"] for
    ["closed"] and ["New"] for every other state. *)
Lemma default_fallback_closed_or_new (s : string) :
  getGlobalFallback getDefaultConfig s = if String.eqb s "closed" then "Done" else "New".
Proof.
  unfold getGlobalFallback.
  cbn [getDefaultConfig globalSettings unmappedStatusFallback].
  destruct (truthy_entry _) eqn:E.
  - apply truthy_entry_Some in E as (v & Hv & _ & ->).
    table_entry Hv; injection Hv as -> ->; reflexivity.
  - reflexivity.
Qed.




(** C2 as stated fails, in two ways.  A status that is not [null] can be
    the empty string, which the guard [!projectStatus] treats as absent:
    the global fallback is returned, not the wildcard.  And a wildcard
    entry can be the empty string, which the test [stateMap["*"]] treats
    as missing: the status column is mapped as if there were no
    wildcard. *)
Lemma getAdoState_wildcard_counterexample :
  ~ (forall (config : Config) (workItemType issueState projectName projectStatus : jsval)
            (w : string),
        projectStatus <> JNull -> projectStatus <> JUndefined ->
        wildcardEntry config workItemType issueState projectName = Some w ->
        w <> "" ->
        getAdoState config workItemType issueState projectName projectStatus = w)
  /\ ~ (forall (config : Config) (workItemType issueState projectName projectStatus : jsval)
               (w : string),
           truthy projectStatus = true ->
           wildcardEntry config workItemType issueState projectName = Some w ->
           getAdoState config workItemType issueState projectName projectStatus = w).
Proof.
  split; intros H.
  - specialize (H (closedBugConfig (list_to_map [("*", "Resolved")]))
                  (JString "Bug") (JString "closed") (JString "siwar") (JString "")
                  "Resolved").
    assert (E : getAdoState (closedBugConfig (list_to_map [("*", "Resolved")]))
                  (JString "Bug") (JString "closed") (JString "siwar") (JString "")
                = "Done") by (vm_compute; reflexivity).
    rewrite E in H.
    assert (Hw : wildcardEntry (closedBugConfig (list_to_map [("*", "Resolved")]))
                   (JString "Bug") (JString "closed") (JString "siwar")
                 = Some "Resolved") by (vm_compute; reflexivity).
    specialize (H ltac:(discriminate) ltac:(discriminate) Hw ltac:(discriminate)).
    discriminate H.
  - specialize (H (closedBugConfig (list_to_map [("*", ""); ("Done", "Closed")]))
                  (JString "Bug") (JString "closed") (JString "siwar") (JString "Done")
                  "").
    assert (E : getAdoState
                  (closedBugConfig (list_to_map [("*", ""); ("Done", "Closed")]))
                  (JString "Bug") (JString "closed") (JString "siwar") (JString "Done")
                = "Closed") by (vm_compute; reflexivity).
    rewrite E in H.
    assert (Hw : wildcardEntry
                   (closedBugConfig (list_to_map [("*", ""); ("Done", "Closed")]))
                   (JString "Bug") (JString "closed") (JString "siwar")
                 = Some "") by (vm_compute; reflexivity).
    specialize (H eq_refl Hw). discriminate H.
Qed.

(** C2, amended. For every non-empty project status and every non-empty
    wildcard entry of the sub-table selected by project, work item type and
    source state, [getAdoState] returns the wildcard entry whatever the
    status is; and under the default configuration a closed bug of project
    siwar maps to ["Done"] for every status value, absent ones included. *)
Theorem getAdoState_wildcard
    (config : Config) (workItemType issueState projectName projectStatus : jsval)
    (w : string) :
  (truthy projectStatus = true ->
   wildcardEntry config workItemType issueState projectName = Some w ->
   w <> "" ->
   getAdoState config workItemType issueState projectName projectStatus = w)
  /\ getAdoState getDefaultConfig (JString "Bug") (JString "closed") (JString "siwar")
       projectStatus = "Done"
  /\ getAdoState getDefaultConfig (JString "Bug") (JString "closed") (JString "siwar")
       (JString "In Production") = "Done".
Proof.
  split; [|split].
  - intros Hps Hw Hne. unfold wildcardEntry in Hw. unfold getAdoState.
    rewrite Hps. cbn [negb].
    destruct (projects config !! _) as [project|]; [|discriminate].
    cbn [mbind option_bind] in Hw.
    destruct (statusMappings project !! _) as [sm|]; [|discriminate].
    cbn [mbind option_bind] in Hw.
    destruct (sm !! _) as [stateMap|]; [|discriminate].
    cbn [mbind option_bind] in Hw.
    rewrite (truthy_entry_value _ w Hw Hne), Hw. reflexivity.
  - destruct projectStatus as [| |s]; try (vm_compute; reflexivity).
    unfold getAdoState. destruct (negb (truthy (JString s))); vm_compute; reflexivity.
  - vm_compute; reflexivity.
Qed.

Lemma getAdoState_wildcard_witness :
  (truthy (JString "In Beta") = true
   /\ wildcardEntry getDefaultConfig (JString "Task") (JString "CLOSED") JNull = Some "Done"
   /\ "Done" <> "")
  /\ getAdoState getDefaultConfig (JString "Task") (JString "CLOSED") JNull
       (JString "In Beta") = "Done".
Proof.
  assert (Hw : wildcardEntry getDefaultConfig (JString "Task") (JString "CLOSED") JNull
               = Some "Done") by (vm_compute; reflexivity).
  assert (Hne : "Done" <> "") by discriminate.
  split; [split; [reflexivity|split; [exact Hw|exact Hne]]|].
  exact (proj1 (getAdoState_wildcard getDefaultConfig (JString "Task") (JString "CLOSED")
                  JNull (JString "In Beta") "Done") eq_refl Hw Hne).
Defined.

(** ** The work item type *)












(** ** Sprint names and dates *)

Import IterationCreator.




(** C5. With the year 2024, ["Sprint 68 oct 13 - oct 26"] and
    ["10/13 - 10/26"] both parse to the dates 2024-10-13 and 2024-10-26;
    ["2024-10-13 to 2024-10-26"] parses to the same dates whatever the year
    argument; and a name that none of the three expressions matches parses
    to [null]. *)
Theorem parseSprintDates_round_trip (sprintName : string) (year : Z) :
  let range := {| startDate := Dates.MkDate 2024 9 13; endDate := Dates.MkDate 2024 9 26 |} in
  parseSprintDates "Sprint 68 oct 13 - oct 26" 2024 = Some range
  /\ parseSprintDates "10/13 - 10/26" 2024 = Some range
  /\ parseSprintDates "2024-10-13 to 2024-10-26" year = Some range
  /\ formatDate (startDate range) = "2024-10-13"
  /\ formatDate (endDate range) = "2024-10-26"
  /\ (RegExp.exec monthNamePattern sprintName = None ->
      RegExp.exec numericPattern sprintName = None ->
      RegExp.exec isoPattern sprintName = None ->
      parseSprintDates sprintName year = None).
Proof.
  intros range.
  do 5 (split; [vm_compute; reflexivity|]).
  intros H1 H2 H3. unfold parseSprintDates, patterns. cbn [firstMatch].
  rewrite H1, H2, H3. reflexivity.
Qed.

Lemma parseSprintDates_round_trip_witness :
  (RegExp.exec monthNamePattern "Sprint 70" = None
   /\ RegExp.exec numericPattern "Sprint 70" = None
   /\ RegExp.exec isoPattern "Sprint 70" = None)
  /\ parseSprintDates "Sprint 70" 2024 = None.
Proof.
  assert (H1 : RegExp.exec monthNamePattern "Sprint 70" = None) by (vm_compute; reflexivity).
  assert (H2 : RegExp.exec numericPattern "Sprint 70" = None) by (vm_compute; reflexivity).
  assert (H3 : RegExp.exec isoPattern "Sprint 70" = None) by (vm_compute; reflexivity).
  split; [split; [exact H1|split; [exact H2|exact H3]]|].
  exact (proj2 (proj2 (proj2 (proj2 (proj2
           (parseSprintDates_round_trip "Sprint 70" 2024))))) H1 H2 H3).
Defined.

(** ** The iteration cache *)

Import Eff Dates.

(** Caching a listing inserts its iterations in order and changes nothing
    else. *)
Lemma cacheAll_state (iterations : list Iteration) (c : Creator) (r : Remote) :
  cacheAll iterations {| this := c; remote := r |}
  = ({| this :=
          {| project := project c; connection := connection c;
             workClient := workClient c;
             existingIterations :=
               foldl (fun m i => <[toLowerCase (name i) := i]> m)
                     (existingIterations c) iterations;
             cacheLoaded := cacheLoaded c |};
        remote := r |}, Return tt).
Proof.
  revert c. induction iterations as [|i rest IH]; intros c.
  - destruct c; reflexivity.
  - cbn [cacheAll]. unfold bind at 1. unfold cacheSet at 1, bind, getThis, setThis.
    cbn [this remote]. rewrite IH. reflexivity.
Qed.

(** Caching a listing removes no key. *)
Lemma foldl_insert_is_Some (iterations : list Iteration) (m : gmap string Iteration) (k : string) :
  is_Some (m !! k) ->
  is_Some (foldl (fun m i => <[toLowerCase (name i) := i]> m) m iterations !! k).
Proof.
  revert m. induction iterations as [|i rest IH]; intros m H; [exact H|].
  cbn [foldl]. apply IH. rewrite lookup_insert. case_decide; [eauto|exact H].
Qed.

(** The create requests of a log with one more request. *)
Lemma creations_app l q : creations (l ++ [q])%list = (creations l ++ creations [q])%list.
Proof. unfold creations. apply omap_app. Qed.

(** Closes the goals of [load_connected]. *)
Ltac solve_extends :=
  eexists; split; [reflexivity|];
  repeat split; cbn; auto;
  try discriminate;
  try (rewrite creations_app; cbn; rewrite app_nil_r; reflexivity);
  try (intros k; apply foldl_insert_is_Some).

(** On a connected instance [loadExistingIterations] returns, loses no
    key, requests no creation, and does nothing once the cache is
    loaded. *)
Lemma load_connected (s : State) :
  connection (this s) = true ->
  exists s', loadExistingIterations s = (s', Return tt) /\ extends s s'.
Proof.
  destruct s as [[proj conn wc cache loaded] [cs ls ps rq td]]. cbn. intros ->.
  unfold loadExistingIterations, bind, getThis. cbn.
  destruct loaded; [solve_extends|].
  unfold try_catch, bind, getTeamIterations, bind, getThis. cbn.
  destruct wc; cbn; [|solve_extends].
  destruct ls as [|[l|] ls]; cbn; [solve_extends| |solve_extends].
  rewrite cacheAll_state. cbn. solve_extends.
Qed.

(** Unfolds the operations of the store down to the state. *)
Ltac run_monad :=
  unfold postAndCache, postTeamIteration, getTeamIterations, getWorkApi, cacheSet,
    setCacheLoaded, try_catch, bind, getThis, setThis, getRemote, setRemote, ret, throw;
  cbn.

(** [extends] is reflexive on connected instances, and transitive. *)
Lemma extends_refl (s : State) : connection (this s) = true -> extends s s.
Proof. intros H. repeat split; auto. Qed.

Lemma extends_trans (s s' s'' : State) : extends s s' -> extends s' s'' -> extends s s''.
Proof.
  intros (_ & Hk & Hc & Hl) (Hconn & Hk' & Hc' & Hl'). repeat split; auto.
  - congruence.
  - intros H. specialize (Hl H). subst s'. auto.
Qed.

(** [initialize] does nothing on a connected instance, and leaves the
    instance connected when it returns. *)
Lemma initialize_connected (s : State) :
  connection (this s) = true -> initialize s = (s, Return tt).
Proof.
  destruct s as [[proj conn wc cache loaded] r]. cbn. intros ->. reflexivity.
Qed.

Lemma initialize_returns (s s' : State) :
  initialize s = (s', Return tt) -> connection (this s') = true.
Proof.
  destruct s as [[proj conn wc cache loaded] [cs ls ps rq td]].
  unfold initialize. run_monad. destruct conn; cbn.
  - intros [= <-]. reflexivity.
  - destruct cs as [|[] cs]; cbn; intros [= <-]; reflexivity.
Qed.

(** On a connected instance [iterationExists] and [getIteration] read the
    cache as [loadExistingIterations] leaves it. *)
Lemma iterationExists_connected (iterationName : string) (s : State) :
  connection (this s) = true ->
  exists s',
    iterationExists iterationName s
    = (s', Return (bool_decide
                     (is_Some (existingIterations (this s') !! toLowerCase iterationName))))
    /\ extends s s'.
Proof.
  intros H. destruct (load_connected s H) as (s' & Hload & Hext).
  exists s'. split; [|exact Hext].
  unfold iterationExists, bind. rewrite Hload. reflexivity.
Qed.

Lemma getIteration_connected (iterationName : string) (s : State) :
  connection (this s) = true ->
  exists s',
    getIteration iterationName s
    = (s', Return (existingIterations (this s') !! toLowerCase iterationName))
    /\ extends s s'.
Proof.
  intros H. destruct (load_connected s H) as (s' & Hload & Hext).
  exists s'. split; [|exact Hext].
  unfold getIteration, bind. rewrite Hload. reflexivity.
Qed.

(** With the name already cached, [createIteration] reads the cache and
    issues no create request. *)
Lemma createIteration_cached (iterationName : string) (startDate endDate : option Date)
    (path : option string) (s : State) (it : Iteration) :
  connection (this s) = true ->
  existingIterations (this s) !! toLowerCase iterationName = Some it ->
  exists s' it',
    createIteration iterationName startDate endDate path s = (s', Return (Some it'))
    /\ existingIterations (this s') !! toLowerCase iterationName = Some it'
    /\ extends s s'.
Proof.
  intros Hconn Hit. unfold createIteration, bind.
  rewrite (initialize_connected s Hconn).
  destruct (iterationExists_connected iterationName s Hconn) as (s1 & -> & Hext1).
  assert (Hsome : is_Some (existingIterations (this s1) !! toLowerCase iterationName)).
  { apply Hext1. rewrite Hit. eauto. }
  rewrite (bool_decide_eq_true_2 _ Hsome).
  destruct (getIteration_connected iterationName s1 (proj1 Hext1)) as (s2 & -> & Hext2).
  assert (Hsome2 : is_Some (existingIterations (this s2) !! toLowerCase iterationName)).
  { apply Hext2, Hsome. }
  destruct Hsome2 as [it' Hit'].
  exists s2, it'. rewrite Hit'.
  split; [reflexivity|]. split; [reflexivity|].
  exact (extends_trans _ _ _ Hext1 Hext2).
Qed.

(** The create request either succeeds, and its iteration is cached
    under the lowercased name, or fails, and the cache is untouched. *)
Lemma postAndCache_outcome (iterationName : string) (startDate endDate : option Date)
    (path : option string) (s s' : State) (r : Result (option Iteration)) :
  postAndCache iterationName startDate endDate path s = (s', r) ->
  connection (this s') = connection (this s)
  /\ ((exists created,
         r = Return (Some created)
         /\ workClient (this s) = true
         /\ head (postings (remote s)) = Some (Some created)
         /\ existingIterations (this s')
            = <[toLowerCase iterationName := created]> (existingIterations (this s)))
      \/ (r = Return None
          /\ existingIterations (this s') = existingIterations (this s)
          /\ cacheLoaded (this s') = cacheLoaded (this s))).
Proof.
  destruct s as [[proj conn wc cache loaded] [cs ls ps rq td]].
  run_monad. destruct wc; cbn.
  - destruct ps as [|[created|] ps]; cbn; intros [= <- <-]; cbn; (split; [reflexivity|]);
      [right|left; exists created|right]; auto.
  - intros [= <- <-]. cbn. auto.
Qed.

(** An iteration returned by [createIteration] is the one the cache holds
    under the lowercased name. *)
Lemma createIteration_returns (iterationName : string) (startDate endDate : option Date)
    (path : option string) (s s' : State) (it : Iteration) :
  createIteration iterationName startDate endDate path s = (s', Return (Some it)) ->
  existingIterations (this s') !! toLowerCase iterationName = Some it
  /\ connection (this s') = true.
Proof.
  unfold createIteration, bind.
  destruct (initialize s) as [sa [[]|e]] eqn:Hi; [|discriminate].
  apply initialize_returns in Hi.
  destruct (iterationExists_connected iterationName sa Hi) as (sb & -> & Hext).
  destruct (bool_decide _).
  - destruct (getIteration_connected iterationName sb (proj1 Hext)) as (sc & -> & Hext').
    intros [= <- Hit]. split; [exact Hit|apply Hext'].
  - intros Hpost. apply postAndCache_outcome in Hpost as [Hconn [Hok|Hfail]].
    + destruct Hok as (created & [= <-] & _ & _ & ->).
      rewrite lookup_insert_eq. split; [reflexivity|]. rewrite Hconn. apply Hext.
    + destruct Hfail as [[=] _].
Qed.

(** [createFromSprintInfo] returns [null] for an empty name and calls
    [createIteration] with the name otherwise. *)
Lemma createFromSprintInfo_named (Date_parse : string -> Date) (info : SprintInfo)
    (days : Z) (s s' : State) (r : Result (option Iteration)) :
  createFromSprintInfo Date_parse (Some info) days s = (s', r) ->
  (sprintName info = "" /\ s' = s /\ r = Return None)
  \/ (sprintName info <> ""
      /\ exists startDate endDate,
           createIteration (sprintName info) startDate endDate None s = (s', r)).
Proof.
  unfold createFromSprintInfo.
  destruct (String.eqb_spec (sprintName info) "") as [E|E].
  - intros [= <- <-]. left. auto.
  - unfold bind at 1, getRemote.
    destruct (sprintDates Date_parse (remote s) info days) as [startDate endDate].
    intros H. right. eauto.
Qed.

(** C7, amended. When a first call of [createFromSprintInfo] returns an
    iteration, the cache holds that iteration under the lowercased sprint
    name; a second call with the same name issues no create request and
    returns the one entry the cache then holds under that key; and when the
    listing of existing iterations had been loaded by the end of the first
    call, that entry is the result of the first call and the second call
    changes nothing. *)
Theorem createFromSprintInfo_idempotent
    (Date_parse : string -> Date) (info info' : SprintInfo) (days days' : Z)
    (s s1 s2 : State) (it : Iteration) (r : Result (option Iteration)) :
  sprintName info' = sprintName info ->
  createFromSprintInfo Date_parse (Some info) days s = (s1, Return (Some it)) ->
  createFromSprintInfo Date_parse (Some info') days' s1 = (s2, r) ->
  let key := toLowerCase (sprintName info) in
  existingIterations (this s1) !! key = Some it
  /\ creations (requests (remote s2)) = creations (requests (remote s1))
  /\ (exists it', r = Return (Some it') /\ existingIterations (this s2) !! key = Some it')
  /\ (cacheLoaded (this s1) = true -> r = Return (Some it) /\ s2 = s1).
Proof.
  intros Hname H1 H2 key.
  apply createFromSprintInfo_named in H1 as [(_ & _ & [=])|(Hne & sd & ed & H1)].
  apply createIteration_returns in H1 as [Hit Hconn]. fold key in Hit.
  apply createFromSprintInfo_named in H2 as [(E & _)|(_ & sd' & ed' & H2)];
    [rewrite Hname in E; contradiction|].
  rewrite Hname in H2.
  destruct (createIteration_cached _ sd' ed' None s1 it Hconn Hit)
    as (s' & it' & H2' & Hit' & Hext).
  rewrite H2' in H2. injection H2 as <- <-.
  split; [exact Hit|]. split; [apply Hext|]. split; [eauto|].
  intros Hloaded. destruct Hext as (_ & _ & _ & Hsame). specialize (Hsame Hloaded).
  subst s'. split; [|reflexivity]. fold key in Hit'. congruence.
Qed.

(** C7 as stated fails, in two ways.  When the store refuses the create
    request of the first call, nothing is cached and the second call
    invokes the store's create again.  And when the listing of existing
    iterations fails during the first call and succeeds during the second,
    the listed iteration replaces the entry the first call cached: the
    second call returns another iteration than the first. *)
Lemma createFromSprintInfo_idempotent_counterexample :
  ~ (forall (Date_parse : string -> Date) (info : SprintInfo) (days : Z)
            (s s1 s2 : State) (r1 r2 : Result (option Iteration)),
        createFromSprintInfo Date_parse (Some info) days s = (s1, r1) ->
        createFromSprintInfo Date_parse (Some info) days s1 = (s2, r2) ->
        (exists it,
            existingIterations (this s1) !! toLowerCase (sprintName info) = Some it
            /\ existingIterations (this s2) !! toLowerCase (sprintName info) = Some it
            /\ r2 = Return (Some it))
        /\ creations (requests (remote s2)) = creations (requests (remote s1)))
  /\ ~ (forall (Date_parse : string -> Date) (info : SprintInfo) (days : Z)
               (s s1 s2 : State) (it : Iteration) (r2 : Result (option Iteration)),
           createFromSprintInfo Date_parse (Some info) days s = (s1, Return (Some it)) ->
           createFromSprintInfo Date_parse (Some info) days s1 = (s2, r2) ->
           r2 = Return (Some it)).
Proof.
  split; intros H.
  - destruct (createFromSprintInfo noDate (Some sprint1) 14
                (loadedState [None; Some iterationA])) as [s1 r1] eqn:E1.
    destruct (createFromSprintInfo noDate (Some sprint1) 14 s1) as [s2 r2] eqn:E2.
    destruct (H _ _ _ _ _ _ _ _ E1 E2) as [_ Hc].
    vm_compute in E1. injection E1 as <- <-.
    vm_compute in E2. injection E2 as <- <-.
    vm_compute in Hc. discriminate Hc.
  - destruct (createFromSprintInfo noDate (Some sprint1) 14 freshState)
      as [s1 r1] eqn:E1.
    destruct (createFromSprintInfo noDate (Some sprint1) 14 s1) as [s2 r2] eqn:E2.
    assert (Hr1 : r1 = Return (Some iterationA)).
    { vm_compute in E1. injection E1 as _ <-. reflexivity. }
    subst r1. specialize (H _ _ _ _ _ _ _ _ E1 E2).
    vm_compute in E1. injection E1 as <-.
    vm_compute in E2. injection E2 as _ <-.
    discriminate H.
Qed.

(** A listing that fails during the first call and succeeds during the
    second replaces the entry the first call cached. *)
Example createFromSprintInfo_reload :
  let '(s1, r1) := createFromSprintInfo noDate (Some sprint1) 14 freshState in
  let '(s2, r2) := createFromSprintInfo noDate (Some sprint1) 14 s1 in
  r1 = Return (Some iterationA) /\ cacheLoaded (this s1) = false
  /\ r2 = Return (Some iterationB).
Proof. vm_compute. auto. Qed.

Lemma createFromSprintInfo_idempotent_witness :
  let s := loadedState [Some iterationA] in
  let s1 := (createFromSprintInfo noDate (Some sprint1) 14 s).1 in
  (sprintName sprint1 = sprintName sprint1
   /\ createFromSprintInfo noDate (Some sprint1) 14 s = (s1, Return (Some iterationA))
   /\ createFromSprintInfo noDate (Some sprint1) 7 s1 = (s1, Return (Some iterationA)))
  /\ existingIterations (this s1) !! "sprint 1" = Some iterationA
  /\ creations (requests (remote s1)) = creations (requests (remote s1)).
Proof.
  intros s s1.
  assert (H1 : createFromSprintInfo noDate (Some sprint1) 14 s
               = (s1, Return (Some iterationA))) by (vm_compute; reflexivity).
  assert (H2 : createFromSprintInfo noDate (Some sprint1) 7 s1
               = (s1, Return (Some iterationA))) by (vm_compute; reflexivity).
  split; [split; [reflexivity|split; [exact H1|exact H2]]|].
  destruct (createFromSprintInfo_idempotent noDate sprint1 sprint1 14 7 s s1 s1
              iterationA (Return (Some iterationA)) eq_refl H1 H2) as (Hit & Hc & _).
  split; [exact Hit|exact Hc].
Defined.

(** The create request does not touch the instance. *)
Lemma postTeamIteration_this (iteration : Iteration) (s s' : State) (r : Result Iteration) :
  postTeamIteration iteration s = (s', r) -> this s' = this s.
Proof.
  destruct s as [[proj conn wc cache loaded] [cs ls ps rq td]].
  run_monad. destruct wc; cbn.
  - destruct ps as [|[created|] ps]; cbn; intros [= <- <-]; reflexivity.
  - intros [= <- <-]. reflexivity.
Qed.

(** [initialize] does not touch the cache. *)
Lemma initialize_cache (s s' : State) (r : Result unit) :
  initialize s = (s', r) ->
  existingIterations (this s') = existingIterations (this s)
  /\ cacheLoaded (this s') = cacheLoaded (this s).
Proof.
  destruct s as [[proj conn wc cache loaded] [cs ls ps rq td]].
  unfold initialize. run_monad. destruct conn; cbn.
  - intros [= <- <-]. auto.
  - destruct cs as [|[] cs]; cbn; intros [= <- <-]; auto.
Qed.

(** The state in which [createIteration] finds the name missing. *)
Lemma createIteration_check (iterationName : string) (s s0 : State) (found : bool) :
  (let! _ := initialize in iterationExists iterationName) s = (s0, Return found) ->
  connection (this s0) = true
  /\ found = bool_decide (is_Some (existingIterations (this s0) !! toLowerCase iterationName))
  /\ (cacheLoaded (this s) = true ->
      existingIterations (this s0) = existingIterations (this s))
  /\ forall startDate endDate path,
       createIteration iterationName startDate endDate path s
       = (if found then getIteration iterationName s0
          else postAndCache iterationName startDate endDate path s0).
Proof.
  unfold createIteration, bind.
  destruct (initialize s) as [sa [[]|e]] eqn:Hi; [|discriminate].
  destruct (initialize_cache _ _ _ Hi) as [Hcache Hloaded].
  apply initialize_returns in Hi.
  destruct (iterationExists_connected iterationName sa Hi) as (sb & -> & Hext).
  intros [= <- <-]. split; [apply Hext|]. split; [reflexivity|]. split.
  - intros Hl. rewrite <- Hloaded in Hl. destruct Hext as (_ & _ & _ & Hsame).
    rewrite (Hsame Hl). exact Hcache.
  - intros startDate endDate path. destruct (bool_decide _); reflexivity.
Qed.

(** C10. Take a call of [createIteration] that finds the name missing
    from the cache.  If the store's create call fails, the call returns
    [null] and leaves the cache as the check found it, without an entry for
    the name (and as it was before the call when the cache was already
    loaded); a later call with the same name that finds it missing again,
    as it always does once the cache is loaded, goes to the create request
    again.  Whatever the store answers, the name has an entry after the
    call only if the create call succeeded, and the entry is then the
    iteration the store returned. *)
Theorem createIteration_failure_atomic
    (iterationName : string) (startDate endDate startDate' endDate' : option Date)
    (path path' : option string) (s s0 : State) :
  (let! _ := initialize in iterationExists iterationName) s = (s0, Return false) ->
  let key := toLowerCase iterationName in
  let iteration := newIteration (project (this s0)) iterationName startDate endDate path in
  (forall s1 e,
      postTeamIteration iteration s0 = (s1, Throw e) ->
      createIteration iterationName startDate endDate path s = (s1, Return None)
      /\ existingIterations (this s1) = existingIterations (this s0)
      /\ existingIterations (this s1) !! key = None
      /\ (cacheLoaded (this s) = true ->
          existingIterations (this s1) = existingIterations (this s))
      /\ (forall s2,
            (let! _ := initialize in iterationExists iterationName) s1
            = (s2, Return false) ->
            createIteration iterationName startDate' endDate' path' s1
            = postAndCache iterationName startDate' endDate' path' s2)
      /\ (cacheLoaded (this s1) = true ->
          (let! _ := initialize in iterationExists iterationName) s1
          = (s1, Return false)))
  /\ (forall s1 r created,
        createIteration iterationName startDate endDate path s = (s1, r) ->
        existingIterations (this s1) !! key = Some created ->
        r = Return (Some created)
        /\ head (postings (remote s0)) = Some (Some created)
        /\ existingIterations (this s1) = <[key := created]> (existingIterations (this s0))).
Proof.
  intros Hcheck key iteration.
  destruct (createIteration_check _ _ _ _ Hcheck) as (Hconn & Hfound & Hsame & Hcreate).
  symmetry in Hfound. apply bool_decide_eq_false in Hfound.
  assert (Hnone : existingIterations (this s0) !! key = None).
  { destruct (existingIterations (this s0) !! key) eqn:E; [|reflexivity].
    exfalso. apply Hfound. eauto. }
  split.
  - intros s1 e Hpost. pose proof (postTeamIteration_this _ _ _ _ Hpost) as Hthis.
    split; [|split; [|split; [|split; [|split]]]].
    + rewrite Hcreate. unfold postAndCache, try_catch, bind at 1, getThis.
      unfold bind at 1. fold iteration. rewrite Hpost. reflexivity.
    + rewrite Hthis. reflexivity.
    + rewrite Hthis. exact Hnone.
    + rewrite Hthis. exact Hsame.
    + intros s2 Hcheck1.
      destruct (createIteration_check _ _ _ _ Hcheck1) as (_ & _ & _ & Hcreate1).
      apply Hcreate1.
    + intros Hloaded.
      assert (Hconn1 : connection (this s1) = true) by (rewrite Hthis; exact Hconn).
      unfold bind. rewrite (initialize_connected s1 Hconn1).
      destruct (iterationExists_connected iterationName s1 Hconn1) as (s2 & -> & Hext).
      destruct Hext as (_ & _ & _ & Hsame1). rewrite (Hsame1 Hloaded), Hthis.
      fold key. rewrite Hnone. reflexivity.
  - intros s1 r created Hrun Hgain. rewrite Hcreate in Hrun.
    apply postAndCache_outcome in Hrun as [_ [Hok|Hfail]].
    + destruct Hok as (c & -> & _ & Hhead & Hcache). fold key in Hcache.
      rewrite Hcache, lookup_insert_eq in Hgain. injection Hgain as ->. auto.
    + destruct Hfail as (_ & Hcache & _). rewrite Hcache, Hnone in Hgain. discriminate.
Qed.

Lemma createIteration_failure_atomic_witness :
  let s := loadedState [None] in
  let iteration := newIteration "P" "Sprint 1" None None None in
  let s1 := (postTeamIteration iteration s).1 in
  ((let! _ := initialize in iterationExists "Sprint 1") s = (s, Return false)
   /\ postTeamIteration iteration s = (s1, Throw "postTeamIteration failed"))
  /\ createIteration "Sprint 1" None None None s = (s1, Return None)
  /\ existingIterations (this s1) = existingIterations (this s).
Proof.
  intros s iteration s1.
  assert (H1 : (let! _ := initialize in iterationExists "Sprint 1") s = (s, Return false))
    by (vm_compute; reflexivity).
  assert (H2 : postTeamIteration iteration s = (s1, Throw "postTeamIteration failed"))
    by (vm_compute; reflexivity).
  split; [split; [exact H1|exact H2]|].
  destruct (proj1 (createIteration_failure_atomic "Sprint 1" None None None None None None
                     s s H1) s1 _ H2) as (Hr & Hc & _).
  split; [exact Hr|exact Hc].
Defined.

(** ** The create-or-update workflow *)

Import Sync.

(** The create requests of a log with one more call. *)
Lemma creates_app (log : list Call) (c : Call) :
  creates (log ++ [c])%list = (creates log ++ creates [c])%list.
Proof. unfold creates. apply omap_app. Qed.

(** [find] returns without throwing and requests no creation. *)
Lemma find_reads_only (vm : VM) (r r' : Remote) (res : Result Lookup) :
  find vm r = (r', res) ->
  (exists l, res = Return l) /\ creates (calls r') = creates (calls r).
Proof.
  destruct r as [ans log].
  unfold find, getWorkItemTrackingApi, try_catch, bind, call, ret, throw. cbn.
  destruct ans as [|a1 ans]; cbn.
  { intros [= <- <-]. cbn. rewrite creates_app, app_nil_r. eauto. }
  destruct a1; cbn;
    try (intros [= <- <-]; cbn; rewrite creates_app, app_nil_r; eauto; fail).
  destruct ans as [|a2 ans]; cbn.
  { intros [= <- <-]. cbn. rewrite !creates_app, !app_nil_r. eauto. }
  destruct a2 as [| |ids| |]; cbn;
    try (intros [= <- <-]; cbn; rewrite !creates_app, !app_nil_r; eauto; fail).
  destruct ids as [|i ids]; cbn.
  { intros [= <- <-]. cbn. rewrite !creates_app, !app_nil_r. eauto. }
  destruct ans as [|a3 ans]; cbn.
  { intros [= <- <-]. cbn. rewrite !creates_app, !app_nil_r. eauto. }
  destruct a3; cbn; intros [= <- <-]; cbn; rewrite !creates_app, !app_nil_r; eauto.
Qed.

(** The event-driven path stops at a lookup error: it returns early and
    requests no creation. *)
Lemma findOrCreate_lookup_error
    (getWorkItemType : string -> list string -> string)
    (createPatch : VM -> list PatchOperation)
    (vm : VM) (projectInfo : option ProjectInfo) (r r' : Remote) :
  find vm r = (r', Return MinusOne) ->
  findOrCreate getWorkItemType createPatch vm projectInfo r = (r', Return None)
  /\ creates (calls r') = creates (calls r).
Proof.
  intros H. split.
  - unfold findOrCreate, bind. rewrite H. reflexivity.
  - apply (find_reads_only _ _ _ _ H).
Qed.

(** The bulk path does not: whenever the lookup of an issue on no project
    board fails and Azure DevOps then accepts a creation, the loop body
    requests one. *)
Lemma migrateIssue_lookup_error
    (features : Features) (continueOnError : bool) (makeHtml : string -> string)
    (getWorkItemType : string -> list string -> string)
    (createPatch : VM -> list PatchOperation)
    (vm : VM) (summary : Summary) (r r1 r2 : Remote) (w : WorkItem) (rest : list Answer) :
  (if syncProjectStatus features then getIssueProjectInfo (number vm) else ret None) r
  = (r1, Return None) ->
  find vm r1 = (r2, Return MinusOne) ->
  answers r2 = Resolves :: AWorkItem w :: rest ->
  let typed := withType vm (getWorkItemType (title vm) (labels vm)) in
  exists r3,
    migrateIssue features continueOnError makeHtml getWorkItemType createPatch vm summary r
    = (r3, Return (succeeded summary))
    /\ creates (calls r3) = (creates (calls r2) ++ [(wit typed, createPatch typed)])%list.
Proof.
  intros Hinfo Hfind Hans typed.
  unfold migrateIssue, try_catch, bind at 1. rewrite Hinfo.
  unfold bind at 1. rewrite Hfind.
  destruct r2 as [ans log]. cbn in Hans. subst ans.
  unfold createWorkItem, executeWorkItemCreate, getWorkItemTrackingApi, updateIssueBody,
    try_catch, bind, call, ret, throw. cbn.
  destruct (String.eqb (ghToken vm) ""); cbn.
  - eexists; split; [reflexivity|]. cbn. rewrite !creates_app, app_nil_r. reflexivity.
  - destruct (includes _ (body vm)); cbn.
    + eexists; split; [reflexivity|]. cbn. rewrite !creates_app, app_nil_r. reflexivity.
    + destruct rest as [|[] rest]; cbn;
        (eexists; split; [reflexivity|]); cbn; rewrite !creates_app, !app_nil_r;
        reflexivity.
Qed.

(** C1, on the code.  Bulk migration runs the loop body twice on the same
    issue.  The first run finds no work item and creates number 101.  In
    the second run the query of [find] fails, [find] returns [-1], and the
    loop body creates a second work item, number 102, instead of updating
    number 101 or reporting the failure. *)
Theorem migrateIssue_lookup_error_creates
    (makeHtml : string -> string) (getWorkItemType : string -> list string -> string)
    (createPatch : VM -> list PatchOperation) :
  let run := migrateIssue defaultFeatures true makeHtml getWorkItemType createPatch crash in
  let typed := withType crash (getWorkItemType "Crash" ["bug"]) in
  let request := (wit typed, createPatch typed) in
  let remote :=
    {| answers :=
         [AProjectInfo None; Resolves; Ids []; Resolves; AWorkItem (workItem101 ""); Resolves;
          AProjectInfo None; Resolves; Fails; Resolves; AWorkItem (workItem102 ""); Resolves];
       calls := [] |} in
  let '(remote1, summary1) := run emptySummary remote in
  let '(remote2, summary2) := run (succeeded emptySummary) remote1 in
  summary1 = Return (succeeded emptySummary)
  /\ creates (calls remote1) = [request]
  /\ summary2 = Return (succeeded (succeeded emptySummary))
  /\ creates (calls remote2) = [request; request]
  /\ updates (calls remote2) = [].
Proof. vm_compute. auto. Qed.

(** ** The update patch *)

(** A title replace is emitted exactly when the new title differs from the
    title of the snapshot. *)
Lemma updatePatch_title (features : Features) (makeHtml : string -> string)
    (vm : VM) (workItem : WorkItem) (patchDocument : list PatchOperation)
    (newTitle : string) :
  updatePatch features makeHtml vm workItem None = Return patchDocument ->
  {| op := "replace"; path := "/fields/System.Title"; value := newTitle |} ∈ patchDocument ->
  newTitle = title vm +:+ " (GitHub Issue #" +:+ pretty (number vm) +:+ ")"
  /\ fields workItem !! "System.Title" <> Some newTitle.
Proof.
  unfold updatePatch. rewrite andb_false_r. intros [= <-] Hin.
  apply elem_of_app in Hin as [Hin|Hin].
  - destruct (syncTitle features); cbn [andb] in Hin; [|by apply elem_of_nil in Hin].
    case_bool_decide as Hd; cbn [negb] in Hin; [by apply elem_of_nil in Hin|].
    apply list_elem_of_singleton in Hin. injection Hin as ->. split; [reflexivity|exact Hd].
  - exfalso. apply elem_of_app in Hin as [Hin|Hin].
    + destruct (syncDescription features); [|by apply elem_of_nil in Hin].
      apply list_elem_of_singleton in Hin. discriminate Hin.
    + apply list_elem_of_singleton in Hin. discriminate Hin.
Qed.

(** With a project entry no patch is built at all. *)
Lemma updatePatch_project_throws (makeHtml : string -> string) (vm : VM)
    (workItem : WorkItem) (projectInfo : ProjectInfo) :
  updatePatch defaultFeatures makeHtml vm workItem (Some projectInfo)
  = Throw projectsClient_unbound.
Proof. reflexivity. Qed.

(** The description is replaced whether it changed or not. *)
Lemma updatePatch_description (features : Features) (makeHtml : string -> string)
    (vm : VM) (workItem : WorkItem) (patchDocument : list PatchOperation) :
  syncDescription features = true ->
  updatePatch features makeHtml vm workItem None = Return patchDocument ->
  {| op := "replace"; path := "/fields/System.Description"; value := makeHtml (body vm) |}
  ∈ patchDocument.
Proof.
  unfold updatePatch. rewrite andb_false_r. intros -> [= <-].
  apply elem_of_app. right. apply list_elem_of_here.
Qed.

(** C8, on the code.  The work item already carries the title and the
    description computed from the issue; the patch holds no title
    operation, yet replaces the description with the value it already
    has, before its one history entry. *)
Theorem updatePatch_unchanged_description (makeHtml : string -> string) :
  updatePatch defaultFeatures makeHtml crash (workItem101 (makeHtml (body crash))) None
  = Return
      [{| op := "replace"; path := "/fields/System.Description";
          value := makeHtml "It crashes." |};
       {| op := "add"; path := "/fields/System.History";
          value := "Issue updated on GitHub by octocat" |}].
Proof. vm_compute. reflexivity. Qed.

(** * Further properties *)

(** ** The state mapper, for every configuration *)

Lemma toLowerCase_empty (s : string) : toLowerCase s = "" <-> s = "".
Proof.
  destruct s; simpl; split; intros H; first [reflexivity|discriminate].
Qed.

Lemma lower_char_idemp (c : ascii) : lower_char (lower_char c) = lower_char c.
Proof.
  destruct c as [[] [] [] [] [] [] [] []]; reflexivity.
Qed.

Lemma toLowerCase_idemp (s : string) : toLowerCase (toLowerCase s) = toLowerCase s.
Proof.
  induction s as [|c s IH]; [reflexivity|].
  simpl. rewrite lower_char_idemp, IH. reflexivity.
Qed.

(** The global fallback is never the empty string. *)
Lemma getGlobalFallback_nonempty (config : Config) (issueState : string) :
  getGlobalFallback config issueState <> "".
Proof.
  unfold getGlobalFallback.
  destruct (truthy_entry _) eqn:E.
  - apply truthy_entry_Some in E as (v & _ & Hv & ->). exact Hv.
  - destruct (String.eqb issueState "closed"); discriminate.
Qed.

(** Whatever the configuration holds, empty entries included, and whatever
    the arguments are, [getAdoState] never returns the empty string: every
    table entry it returns has passed a truthiness test, and the global
    fallback ends in ["Done"] or ["New"]. *)
Theorem getAdoState_nonempty
    (config : Config) (workItemType issueState projectName projectStatus : jsval) :
  getAdoState config workItemType issueState projectName projectStatus <> "".
Proof.
  unfold getAdoState.
  destruct (negb (truthy projectStatus)); [apply getGlobalFallback_nonempty|].
  destruct (projects config !! _) as [project|]; [|apply getGlobalFallback_nonempty].
  destruct (statusMappings project !! _) as [sm|]; [|apply getGlobalFallback_nonempty].
  destruct (sm !! _) as [stateMap|]; [|apply getGlobalFallback_nonempty].
  repeat match goal with
  | |- context [truthy_entry ?o] =>
      let E := fresh "E" in
      destruct (truthy_entry o) eqn:E;
      [apply truthy_entry_Some in E as (? & _ & ? & ->); assumption|]
  end.
  cbn [orb]. apply getGlobalFallback_nonempty.
Qed.

(** [getAdoState] in terms of the table it reaches. *)
Lemma getAdoState_stateMapOf
    (config : Config) (workItemType issueState projectName projectStatus : jsval) :
  truthy projectStatus = true ->
  getAdoState config workItemType issueState projectName projectStatus
  = match stateMapOf config workItemType issueState projectName with
    | None => getGlobalFallback config (normalizeState issueState)
    | Some stateMap =>
      if truthy_entry (stateMap !! "*") then default "" (stateMap !! "*")
      else if truthy_entry (stateMap !! toPropertyKey projectStatus)
      then default "" (stateMap !! toPropertyKey projectStatus)
      else if truthy_entry (stateMap !! "No status")
      then default "" (stateMap !! "No status")
      else if truthy_entry (stateMap !! "No Status")
      then default "" (stateMap !! "No Status")
      else getGlobalFallback config (normalizeState issueState)
    end.
Proof.
  intros Hst. unfold getAdoState, stateMapOf. rewrite Hst. cbn [negb].
  destruct (projects config !! _) as [project|]; [|reflexivity]. cbn [mbind option_bind].
  destruct (statusMappings project !! _) as [sm|]; [|reflexivity]. cbn [mbind option_bind].
  destruct (sm !! _) as [stateMap|]; [|reflexivity].
  destruct (truthy_entry (stateMap !! "*")); [reflexivity|].
  destruct (truthy_entry (stateMap !! toPropertyKey projectStatus)); [reflexivity|].
  destruct (truthy_entry (stateMap !! "No status")); [reflexivity|].
  destruct (truthy_entry (stateMap !! "No Status")); reflexivity.
Qed.





Lemma normalizeState_case (s s' : string) :
  toLowerCase s = toLowerCase s' ->
  normalizeState (JString s) = normalizeState (JString s').
Proof.
  intros H. unfold normalizeState. cbn [or_default].
  destruct (String.eqb_spec s "") as [->|Hs], (String.eqb_spec s' "") as [->|Hs'].
  - reflexivity.
  - symmetry in H. apply (proj1 (toLowerCase_empty _)) in H. contradiction.
  - apply (proj1 (toLowerCase_empty _)) in H. contradiction.
  - exact H.
Qed.

Lemma normalizeProject_case (config : Config) (p p' : string) :
  toLowerCase p = toLowerCase p' ->
  normalizeProject config (JString p) = normalizeProject config (JString p').
Proof.
  intros H. unfold normalizeProject. cbn [or_default].
  destruct (String.eqb_spec p "") as [->|Hp], (String.eqb_spec p' "") as [->|Hp'].
  - reflexivity.
  - symmetry in H. apply (proj1 (toLowerCase_empty _)) in H. contradiction.
  - apply (proj1 (toLowerCase_empty _)) in H. contradiction.
  - exact H.
Qed.

(** [getAdoState] reads the source state and the project name letter case
    apart: two states, and two project names, that agree once lowercased
    give the same result, for any type and status. *)
Theorem getAdoState_case_insensitive
    (config : Config) (workItemType projectStatus : jsval)
    (issueState issueState' projectName projectName' : string) :
  toLowerCase issueState = toLowerCase issueState' ->
  toLowerCase projectName = toLowerCase projectName' ->
  getAdoState config workItemType (JString issueState) (JString projectName) projectStatus
  = getAdoState config workItemType (JString issueState') (JString projectName')
      projectStatus.
Proof.
  intros Hs Hp. unfold getAdoState.
  rewrite (normalizeState_case _ _ Hs), (normalizeProject_case config _ _ Hp).
  reflexivity.
Qed.

Lemma getAdoState_case_insensitive_witness :
  getAdoState getDefaultConfig (JString "Epic") (JString "Closed") (JString "SIWAR")
    (JString "Ready")
  = getAdoState getDefaultConfig (JString "Epic") (JString "closed") (JString "siwar")
      (JString "Ready").
Proof.
  apply (getAdoState_case_insensitive getDefaultConfig (JString "Epic") (JString "Ready")
           "Closed" "closed" "SIWAR" "siwar"); reflexivity.
Defined.

(** [getAreaPath] returns the configured area path of the project when the
    project is configured with a non-empty one, and the lowercased project
    name (the default project for a missing name) otherwise, in particular
    for a name that [isValidProject] rejects; the result is empty only
    when that name is, so never when the configuration names a default
    project. *)
Theorem getAreaPath_result (config : Config) (projectName : jsval) :
  let name := normalizeProject config projectName in
  (forall project, projects config !! name = Some project -> adoAreaPath project <> "" ->
                   getAreaPath config projectName = adoAreaPath project)
  /\ (projects config !! name = None -> getAreaPath config projectName = name)
  /\ (forall given, given <> "" -> isValidProject config given = false ->
                    getAreaPath config (JString given) = toLowerCase given)
  /\ (defaultProject config <> "" -> getAreaPath config projectName <> "").
Proof.
  cbn zeta. unfold getAreaPath. split; [|split; [|split]].
  - intros project -> Hne.
    destruct (String.eqb_spec (adoAreaPath project) ""); [contradiction|reflexivity].
  - intros ->. reflexivity.
  - intros given Hne Hinvalid. unfold isValidProject in Hinvalid.
    apply bool_decide_eq_false in Hinvalid.
    unfold normalizeProject. cbn [or_default].
    destruct (String.eqb_spec given ""); [contradiction|].
    destruct (projects config !! toLowerCase given); [|reflexivity].
    exfalso. apply Hinvalid. eauto.
  - intros Hdef.
    assert (Hname : normalizeProject config projectName <> "").
    { unfold normalizeProject. intros H. apply (proj1 (toLowerCase_empty _)) in H.
      destruct projectName as [| |s]; cbn [or_default] in H; try contradiction.
      revert H. destruct (String.eqb_spec s ""); intros H; contradiction. }
    destruct (projects config !! _) as [project|]; [|exact Hname].
    destruct (String.eqb_spec (adoAreaPath project) "") as [|Hne]; [exact Hname|exact Hne].
Qed.

Lemma getAreaPath_result_witness :
  getAreaPath getDefaultConfig JNull = adoAreaPath siwar
  /\ getAreaPath getDefaultConfig (JString "Falak") = "falak"
  /\ getAreaPath getDefaultConfig JUndefined <> "".
Proof.
  pose proof (getAreaPath_result getDefaultConfig JNull) as (H1 & _ & _ & _).
  pose proof (getAreaPath_result getDefaultConfig (JString "Falak")) as (_ & _ & H2 & _).
  pose proof (getAreaPath_result getDefaultConfig JUndefined) as (_ & _ & _ & H3).
  split; [|split].
  - apply (H1 siwar); [reflexivity|discriminate].
  - apply H2; [discriminate|reflexivity].
  - apply H3. discriminate.
Defined.

(** ** The user mapper *)

Import UserMapper.

Lemma Map_get_set (key key' : string) (value : Json) (mapping : Mapping) :
  Map_get key' (Map_set key value mapping)
  = if String.eqb key key' then Some value else Map_get key' mapping.
Proof.
  induction mapping as [|[k v] rest IH]; cbn [Map_set Map_get].
  - reflexivity.
  - destruct (String.eqb_spec k key) as [->|Hk]; cbn [Map_get].
    + destruct (String.eqb key key'); reflexivity.
    + rewrite IH. destruct (String.eqb_spec k key') as [->|Hk']; [|reflexivity].
      destruct (String.eqb_spec key key') as [->|]; [contradiction|reflexivity].
Qed.

Lemma Map_get_delete (key key' : string) (mapping : Mapping) :
  Map_get key' (Map_delete key mapping)
  = if String.eqb key key' then None else Map_get key' mapping.
Proof.
  induction mapping as [|[k v] rest IH]; cbn [Map_delete Map_get].
  - destruct (String.eqb key key'); reflexivity.
  - destruct (String.eqb_spec k key) as [->|Hk]; cbn [Map_get].
    + rewrite IH. destruct (String.eqb key key'); reflexivity.
    + rewrite IH. destruct (String.eqb_spec k key') as [->|Hk']; [|reflexivity].
      destruct (String.eqb_spec key key') as [->|]; [contradiction|reflexivity].
Qed.

(** What a user name is mapped to after [addMapping]. *)
Lemma addMapping_lookup
    (mapping : Mapping) (githubUsername other : string) (adoEmail : Json) :
  githubUsername <> "" ->
  truthyJson adoEmail = true ->
  getAdoUser (addMapping githubUsername adoEmail mapping) other
  = if String.eqb (toLowerCase githubUsername) (toLowerCase other)
    then Some adoEmail
    else getAdoUser mapping other.
Proof.
  intros Hg Ha. unfold addMapping, getAdoUser. rewrite Ha.
  destruct (String.eqb_spec githubUsername ""); [contradiction|]. cbn [negb andb].
  rewrite Map_get_set.
  destruct (String.eqb_spec other "") as [->|Ho].
  - destruct (String.eqb_spec (toLowerCase githubUsername) (toLowerCase "")) as [E|];
      [|reflexivity].
    apply (proj1 (toLowerCase_empty _)) in E. contradiction.
  - destruct (String.eqb (toLowerCase githubUsername) (toLowerCase other));
      [rewrite Ha|]; reflexivity.
Qed.

(** After [addMapping] with a non-empty user name and a truthy identity,
    [getAdoUser] returns that identity for the name in any letter case,
    and what it returned before for every other name.  After
    [removeMapping], the user has no mapping and no identity in any letter
    case of the name, and every other user keeps theirs. *)
Theorem addMapping_removeMapping_lookup
    (mapping : Mapping) (githubUsername other : string) (adoEmail : Json) :
  let same := String.eqb (toLowerCase githubUsername) (toLowerCase other) in
  (githubUsername <> "" ->
   truthyJson adoEmail = true ->
   getAdoUser (addMapping githubUsername adoEmail mapping) other
   = if same then Some adoEmail else getAdoUser mapping other)
  /\ getAdoUser (removeMapping githubUsername mapping) other
     = (if same then None else getAdoUser mapping other)
  /\ hasmapping (removeMapping githubUsername mapping) other
     = (if same then false else hasmapping mapping other).
Proof.
  cbn zeta. split; [apply addMapping_lookup|].
  unfold removeMapping, getAdoUser, hasmapping, Map_has. rewrite Map_get_delete.
  destruct (String.eqb other ""), (String.eqb (toLowerCase githubUsername) (toLowerCase other));
    split; reflexivity.
Qed.

Lemma addMapping_removeMapping_lookup_witness :
  getAdoUser (addMapping "OctoCat" (JsString "octo@example.com") []) "octocat"
  = Some (JsString "octo@example.com").
Proof.
  rewrite (proj1 (addMapping_removeMapping_lookup [] "OctoCat" "octocat"
                    (JsString "octo@example.com"))).
  - reflexivity.
  - discriminate.
  - reflexivity.
Defined.

(** [getAdoUsers] keeps, in order, the identities of the names that have a
    truthy one; the primary user is the first of them, so the identity of
    the first name that is mapped, and the additional users are the rest. *)
Theorem getPrimaryAdoUser_first_mapped (mapping : Mapping) (githubUsernames : list string) :
  getAdoUsers mapping githubUsernames
  = (option_list (getPrimaryAdoUser mapping githubUsernames)
     ++ getAdditionalAdoUsers mapping githubUsernames)%list
  /\ (forall name rest, githubUsernames = name :: rest ->
        getPrimaryAdoUser mapping githubUsernames
        = match getAdoUser mapping name with
          | Some adoUser => Some adoUser
          | None => getPrimaryAdoUser mapping rest
          end)
  /\ (getPrimaryAdoUser mapping githubUsernames = None
      <-> Forall (fun name => getAdoUser mapping name = None) githubUsernames)
  /\ (length (getAdoUsers mapping githubUsernames) <= length githubUsernames)%nat.
Proof.
  unfold getPrimaryAdoUser, getAdditionalAdoUsers, getAdoUsers. repeat split.
  - destruct (omap _ _); reflexivity.
  - intros name rest ->. cbn [omap list_omap].
    destruct (getAdoUser mapping name); reflexivity.
  - induction githubUsernames as [|name rest IH]; intros H; [constructor|].
    cbn [omap list_omap] in H. destruct (getAdoUser mapping name) eqn:E; [discriminate|].
    constructor; [exact E|exact (IH H)].
  - induction 1 as [|name rest Hn _ IH]; [reflexivity|].
    cbn [omap list_omap]. rewrite Hn. exact IH.
  - induction githubUsernames as [|name rest IH]; [reflexivity|].
    cbn [omap list_omap]. destruct (getAdoUser mapping name); cbn [length]; lia.
Qed.

Lemma forEach_app {A : Type} (f : A -> Eff.M Mapping unit) (l l' : list A) (m : Mapping) :
  forEach f (l ++ l') m
  = match forEach f l m with
    | (m', Eff.Return _) => forEach f l' m'
    | (m', Eff.Throw e) => (m', Eff.Throw e)
    end.
Proof.
  revert m. induction l as [|a l IH]; intros m; [reflexivity|].
  cbn [app forEach]. unfold Eff.bind. destruct (f a m) as [m' [[]|e]]; [apply IH|reflexivity].
Qed.

Lemma forEach_setTuple (pairs : list (string * Json)) (m : Mapping) :
  forEach setTuple (tuple <$> pairs) m = (setAll pairs m, Eff.Return tt).
Proof.
  revert m. induction pairs as [|[g a] pairs IH]; intros m; [reflexivity|].
  cbn [fmap list_fmap forEach tuple setTuple fst snd]. unfold Eff.bind, set.
  rewrite IH. reflexivity.
Qed.

(** [loadFromJsonString] never throws.  When a tuple of the parsed array
    has two elements or more and its first element is not a string, the
    tuples before it have been stored and the tuples after it are not
    read. *)
Theorem loadFromJsonString_keeps_prefix
    (JSON_parse : string -> option Json) (jsonString : string) (mapping : Mapping) :
  (exists mapping', loadFromJsonString JSON_parse jsonString mapping
                    = (mapping', Eff.Return tt))
  /\ (forall pairs first second more rest,
        (forall github, first <> JsString github) ->
        JSON_parse jsonString
        = Some (JsArray ((tuple <$> pairs) ++ JsArray (first :: second :: more) :: rest)) ->
        loadFromJsonString JSON_parse jsonString mapping
        = (setAll pairs mapping, Eff.Return tt)).
Proof.
  split.
  - unfold loadFromJsonString, Eff.try_catch.
    destruct (JSON_parse jsonString) as [[| | | |data|]|]; cbn; eauto.
    destruct (forEach setTuple data mapping) as [m' [[]|e]]; eauto.
  - intros pairs first second more rest Hfirst Hparse.
    unfold loadFromJsonString, Eff.try_catch. rewrite Hparse.
    rewrite forEach_app, forEach_setTuple. cbn [forEach]. unfold Eff.bind.
    destruct first as [| | |g| |]; cbn; try reflexivity.
    exfalso. exact (Hfirst g eq_refl).
Qed.

Lemma loadFromJsonString_keeps_prefix_witness :
  let JSON_parse := fun _ : string =>
    Some (JsArray [tuple ("Ann", JsString "ann@example.com");
                   JsArray [JsNumber 7; JsString "seven@example.com"];
                   tuple ("Bob", JsString "bob@example.com")]) in
  loadFromJsonString JSON_parse "..." []
  = ([("ann", JsString "ann@example.com")], Eff.Return tt).
Proof.
  intros JSON_parse.
  apply (proj2 (loadFromJsonString_keeps_prefix JSON_parse "..." [])
           [("Ann", JsString "ann@example.com")] (JsNumber 7)
           (JsString "seven@example.com") []
           [tuple ("Bob", JsString "bob@example.com")]).
  - discriminate.
  - reflexivity.
Defined.

Lemma Map_set_keys (key : string) (value : Json) (mapping : Mapping) :
  (Map_set key value mapping).*1
  = if bool_decide (key ∈ mapping.*1) then mapping.*1 else (mapping.*1 ++ [key])%list.
Proof.
  induction mapping as [|[k v] rest IH]; [reflexivity|].
  cbn [Map_set fmap list_fmap fst].
  destruct (String.eqb_spec k key) as [->|Hk].
  - rewrite bool_decide_eq_true_2 by apply list_elem_of_here. reflexivity.
  - cbn [fmap list_fmap fst]. fold (rest.*1). fold ((Map_set key value rest).*1).
    rewrite IH. case_bool_decide as H.
    + rewrite bool_decide_eq_true_2 by (apply list_elem_of_further; exact H). reflexivity.
    + rewrite bool_decide_eq_false_2; [reflexivity|].
      intros H'. apply elem_of_cons in H' as [->|H']; contradiction.
Qed.

Lemma Map_set_fresh (key : string) (value : Json) (mapping : Mapping) :
  key ∉ mapping.*1 -> Map_set key value mapping = (mapping ++ [(key, value)])%list.
Proof.
  induction mapping as [|[k v] rest IH]; intros H; [reflexivity|].
  cbn [Map_set]. cbn [fmap list_fmap fst] in H.
  apply not_elem_of_cons in H as [Hk Hrest].
  destruct (String.eqb_spec k key) as [->|_]; [contradiction|].
  cbn [app]. rewrite (IH Hrest). reflexivity.
Qed.

Lemma lowerKeys_set (key : string) (value : Json) (mapping : Mapping) :
  lowerKeys mapping -> lowerKeys (Map_set (toLowerCase key) value mapping).
Proof.
  intros [Hnd Hlow]. unfold lowerKeys. rewrite Map_set_keys.
  case_bool_decide as H; [split; assumption|]. split.
  - apply NoDup_app. split; [exact Hnd|]. split; [|apply NoDup_singleton].
    intros k Hk Hk'. apply list_elem_of_singleton in Hk'. subst k. contradiction.
  - apply Forall_app. split; [exact Hlow|].
    apply Forall_singleton. apply toLowerCase_idemp.
Qed.

Lemma Map_delete_keys (key : string) (mapping : Mapping) :
  sublist (Map_delete key mapping).*1 mapping.*1.
Proof.
  induction mapping as [|[k v] rest IH]; [constructor|].
  cbn [Map_delete]. destruct (String.eqb k key); cbn [fmap list_fmap fst].
  - apply sublist_cons. exact IH.
  - apply sublist_skip. exact IH.
Qed.

Lemma lowerKeys_delete (key : string) (mapping : Mapping) :
  lowerKeys mapping -> lowerKeys (Map_delete key mapping).
Proof.
  intros [Hnd Hlow]. pose proof (Map_delete_keys key mapping) as Hsub. split.
  - eapply sublist_NoDup; eassumption.
  - clear Hnd. induction Hsub as [|k l1 l2 _ IH|k l1 l2 _ IH]; [constructor|..].
    + apply Forall_cons in Hlow as [Hk Hlow]. constructor; [exact Hk|exact (IH Hlow)].
    + apply Forall_cons in Hlow as [_ Hlow]. exact (IH Hlow).
Qed.

Lemma lowerKeys_forEach {A : Type} (f : A -> Eff.M Mapping unit) (l : list A) :
  (forall a m, lowerKeys m -> lowerKeys (f a m).1) ->
  forall m, lowerKeys m -> lowerKeys (forEach f l m).1.
Proof.
  intros Hf. induction l as [|a l IH]; intros m Hm; [exact Hm|].
  cbn [forEach]. unfold Eff.bind. specialize (Hf a m Hm).
  destruct (f a m) as [m' [[]|e]]; [apply IH|]; exact Hf.
Qed.

Lemma lowerKeys_setItem (item : Json) (m : Mapping) :
  lowerKeys m -> lowerKeys (setItem item m).1.
Proof.
  intros Hm. unfold setItem.
  destruct item; try exact Hm;
    destruct (property "github" _) as [github|]; try exact Hm;
    destruct (property "ado" _) as [ado|]; try exact Hm;
    destruct (truthyJson github && truthyJson ado); try exact Hm;
    destruct github; try exact Hm; apply lowerKeys_set; exact Hm.
Qed.

Lemma lowerKeys_setTuple (t : Json) (m : Mapping) :
  lowerKeys m -> lowerKeys (setTuple t m).1.
Proof.
  intros Hm. unfold setTuple.
  destruct t as [| | | |[|[] [|ado more]]|]; try exact Hm.
  apply lowerKeys_set; exact Hm.
Qed.

(** Starting from a mapping whose keys are pairwise distinct and in lower
    case (the empty mapping is one), every method that changes the mapping
    leaves one, also when it throws part of the way: names are stored
    lowercased, which is what makes the lookups blind to letter case. *)
Theorem lowerKeys_invariant
    (JSON_parse : string -> option Json) (readFile : string -> option string)
    (mapping : Mapping) (githubUsername text : string) (adoEmail data : Json) :
  lowerKeys mapping ->
  lowerKeys (addMapping githubUsername adoEmail mapping)
  /\ lowerKeys (removeMapping githubUsername mapping)
  /\ lowerKeys (clearAll mapping)
  /\ lowerKeys (loadMappingData JSON_parse readFile data mapping).1
  /\ lowerKeys (loadFromJsonString JSON_parse text mapping).1.
Proof.
  intros Hm.
  assert (Hload : forall d : Json,
    lowerKeys (match d with
               | JsArray items => forEach setItem items
               | JsNull => Eff.throw "TypeError: Cannot convert undefined or null to object"
               | JsObject entries =>
                 forEach (fun e : string * Json => set (toLowerCase e.1) e.2) entries
               | _ => Eff.ret tt
               end mapping).1).
  { intros d. destruct d; try exact Hm.
    - apply lowerKeys_forEach; [apply lowerKeys_setItem|exact Hm].
    - apply lowerKeys_forEach; [|exact Hm]. intros e m. apply lowerKeys_set. }
  split; [|split; [|split; [|split]]].
  - unfold addMapping. destruct (_ && _); [apply lowerKeys_set|]; exact Hm.
  - apply lowerKeys_delete. exact Hm.
  - split; constructor.
  - unfold loadMappingData, Eff.bind.
    destruct data as [|b|n|path|items|entries];
      [exact (Hload JsNull)|exact (Hload (JsBool b))|exact (Hload (JsNumber n))|
      |exact (Hload (JsArray items))|exact (Hload (JsObject entries))].
    destruct (readFile path) as [content|]; [|exact Hm].
    destruct (JSON_parse content) as [parsed|]; [exact (Hload parsed)|exact Hm].
  - unfold loadFromJsonString, Eff.try_catch.
    destruct (JSON_parse text) as [[| | | |items|]|]; try exact Hm.
    pose proof (lowerKeys_forEach setTuple items lowerKeys_setTuple mapping Hm) as H.
    destruct (forEach setTuple items mapping) as [m' [[]|e]]; exact H.
Qed.

Lemma lowerKeys_invariant_witness :
  lowerKeys []
  /\ lowerKeys (addMapping "OctoCat" (JsString "octo@example.com") []).
Proof.
  assert (H : lowerKeys []) by (split; constructor).
  split; [exact H|].
  exact (proj1 (lowerKeys_invariant (fun _ => None) (fun _ => None) [] "OctoCat" ""
                  (JsString "octo@example.com") JsNull H)).
Defined.

Lemma forEach_setItem_export (rest : Mapping) (done : Mapping) :
  NoDup ((done ++ rest)%list).*1 ->
  Forall (fun e : string * Json =>
            toLowerCase e.1 = e.1 /\ e.1 <> "" /\ truthyJson e.2 = true) rest ->
  forEach setItem
    ((fun e : string * Json => JsObject [("github", JsString e.1); ("ado", e.2)]) <$> rest)
    done
  = ((done ++ rest)%list, Eff.Return tt).
Proof.
  revert done. induction rest as [|[k v] rest IH]; intros done Hnd Hall.
  - rewrite app_nil_r. reflexivity.
  - apply Forall_cons in Hall as [(Hlow & Hne & Hv) Hall]. cbn [fst snd] in Hlow, Hne, Hv.
    cbn [fmap list_fmap forEach fst snd]. unfold Eff.bind.
    assert (Hstep : setItem (JsObject [("github", JsString k); ("ado", v)]) done
                    = ((done ++ [(k, v)])%list, Eff.Return tt)).
    { unfold setItem. cbn [property Map_get]. cbn. rewrite Hv.
      destruct (String.eqb_spec k ""); [contradiction|]. cbn [negb andb].
      unfold set. rewrite Hlow, Map_set_fresh; [reflexivity|].
      rewrite fmap_app in Hnd. apply NoDup_app in Hnd as (_ & Hdis & _).
      intros Hin. apply (Hdis k Hin). cbn. apply list_elem_of_here. }
    rewrite Hstep. rewrite (IH (done ++ [(k, v)])%list).
    + rewrite <- app_assoc. reflexivity.
    + rewrite <- app_assoc. exact Hnd.
    + exact Hall.
Qed.

(** Loading what [exportToJson] returns into an empty mapper restores the
    mapping, entry for entry and in the same order, provided its keys are
    pairwise distinct, in lower case and not empty, and its values truthy
    (entries with an empty key or a falsy value are skipped by the
    loader). *)
Theorem exportToJson_round_trip
    (JSON_parse : string -> option Json) (readFile : string -> option string)
    (mapping : Mapping) :
  lowerKeys mapping ->
  Forall (fun e : string * Json => e.1 <> "" /\ truthyJson e.2 = true) mapping ->
  loadMappingData JSON_parse readFile (exportToJson mapping) [] = (mapping, Eff.Return tt).
Proof.
  intros [Hnd Hlow] Hall. unfold loadMappingData, exportToJson, Eff.bind. cbn [Eff.ret].
  apply (forEach_setItem_export mapping []); [exact Hnd|].
  apply Forall_fmap in Hlow. apply Forall_forall. intros e He.
  pose proof (proj1 (Forall_forall _ _) Hlow e He) as H1.
  pose proof (proj1 (Forall_forall _ _) Hall e He) as [H2 H3].
  repeat split; assumption.
Qed.

Lemma exportToJson_round_trip_witness :
  let mapping := [("ann", JsString "ann@example.com"); ("bob", JsString "bob@example.com")] in
  loadMappingData (fun _ => None) (fun _ => None) (exportToJson mapping) []
  = (mapping, Eff.Return tt).
Proof.
  intros mapping.
  apply (exportToJson_round_trip (fun _ => None) (fun _ => None) mapping).
  - split.
    + repeat constructor; cbn; intros H;
        repeat (apply elem_of_cons in H as [H|H]; [discriminate H|]);
        apply elem_of_nil in H; exact H.
    + repeat constructor.
  - repeat constructor; discriminate.
Defined.

(** ** The iteration creator *)

(** When [getWorkApi] fails, [initialize] has already stored the
    connection: the call of [createIteration] throws, and the instance is
    left with a connection and without a work client.  On such an instance,
    as long as the listing has not been loaded, [createIteration] never
    reaches the store again: [initialize] finds the connection and
    returns, the calls on the missing work client throw and are caught,
    and the call returns what the cache holds for the name, [null] when it
    holds nothing, leaving the state as it was. *)
Theorem initialize_failure_permanent
    (s : State) (iterationName : string) (startDate endDate : option Date)
    (path : option string) :
  connection (this s) = false ->
  workClient (this s) = false ->
  head (connects (remote s)) <> Some true ->
  let s1 := (initialize s).1 in
  (exists e, createIteration iterationName startDate endDate path s = (s1, Throw e))
  /\ connection (this s1) = true
  /\ workClient (this s1) = false
  /\ requests (remote s1) = (requests (remote s) ++ [GetWorkApi])%list
  /\ forall s2 iterationName' startDate' endDate' path',
       connection (this s2) = true ->
       workClient (this s2) = false ->
       cacheLoaded (this s2) = false ->
       createIteration iterationName' startDate' endDate' path' s2
       = (s2, Return (existingIterations (this s2) !! toLowerCase iterationName')).
Proof.
  destruct s as [[proj conn wc cache loaded] [cs ls ps rq td]].
  cbn [this remote connection workClient connects requests].
  intros -> -> Hfail.
  assert (Hinit : initialize
                    {| this := {| project := proj; connection := false; workClient := false;
                                  existingIterations := cache; cacheLoaded := loaded |};
                       remote := {| connects := cs; listings := ls; postings := ps;
                                    requests := rq; today := td |} |}
                  = ({| this := {| project := proj; connection := true; workClient := false;
                                   existingIterations := cache; cacheLoaded := loaded |};
                        remote := {| connects := tail cs; listings := ls; postings := ps;
                                     requests := (rq ++ [GetWorkApi])%list; today := td |} |},
                     Throw "getWorkApi failed")).
  { unfold initialize. run_monad. destruct cs as [|[] cs]; cbn; [reflexivity| |reflexivity].
    exfalso. apply Hfail. reflexivity. }
  cbn zeta. rewrite Hinit. cbn [fst this remote connection workClient requests].
  split; [|split; [|split; [|split]]]; try reflexivity.
  - eexists. unfold createIteration, bind. rewrite Hinit. reflexivity.
  - intros [[proj2 conn2 wc2 cache2 loaded2] r2] n' sd' ed' p'. cbn. intros -> -> ->.
    unfold createIteration, iterationExists, getIteration, loadExistingIterations, initialize.
    run_monad.
    destruct (cache2 !! toLowerCase n') as [it|] eqn:E.
    + rewrite bool_decide_eq_true_2 by eauto. cbn. rewrite E. reflexivity.
    + rewrite bool_decide_eq_false_2 by (intros [? [=]]). cbn. reflexivity.
Qed.

Lemma initialize_failure_permanent_witness :
  let s := {| this := {| project := "P"; connection := false; workClient := false;
                         existingIterations := ∅; cacheLoaded := false |};
              remote := {| connects := [false; true]; listings := [Some [iterationA]];
                           postings := [Some iterationA]; requests := [];
                           today := (2024, 0, 1)%Z |} |} in
  let s1 := (initialize s).1 in
  createIteration "Sprint 1" None None None s1 = (s1, Return None)
  /\ requests (remote s1) = [GetWorkApi].
Proof.
  intros s s1.
  destruct (initialize_failure_permanent s "Sprint 1" None None None eq_refl eq_refl)
    as (_ & Hc & Hw & Hr & Hlater).
  - discriminate.
  - split; [|exact Hr].
    exact (Hlater s1 "Sprint 1" None None None Hc Hw eq_refl).
Defined.

(** [initialize] requests no creation and keeps the project. *)
Lemma initialize_log (s s' : State) (r : Result unit) :
  initialize s = (s', r) ->
  creations (requests (remote s')) = creations (requests (remote s))
  /\ project (this s') = project (this s).
Proof.
  destruct s as [[proj conn wc cache loaded] [cs ls ps rq td]].
  unfold initialize. run_monad. destruct conn; cbn.
  - intros [= <- <-]. auto.
  - destruct cs as [|[] cs]; cbn; intros [= <- <-]; cbn;
      rewrite creations_app, app_nil_r; auto.
Qed.

(** [loadExistingIterations], and with it [iterationExists] and
    [getIteration], keeps the project. *)
Lemma loadExistingIterations_project (s : State) :
  project (this (loadExistingIterations s).1) = project (this s).
Proof.
  destruct s as [[proj conn wc cache loaded] [cs ls ps rq td]].
  unfold loadExistingIterations, initialize. run_monad.
  destruct loaded; [reflexivity|].
  destruct conn; cbn.
  - destruct wc; cbn; [|reflexivity].
    destruct ls as [|[l|] ls]; cbn; [reflexivity| |reflexivity].
    rewrite cacheAll_state. reflexivity.
  - destruct cs as [|[] cs]; cbn; [reflexivity| |reflexivity].
    destruct ls as [|[l|] ls]; cbn; [reflexivity| |reflexivity].
    rewrite cacheAll_state. reflexivity.
Qed.

(** The [try] block of [createIteration] issues the one create request,
    or none when there is no work client. *)
Lemma postAndCache_log (iterationName : string) (startDate endDate : option Date)
    (path : option string) (s s' : State) (r : Result (option Iteration)) :
  postAndCache iterationName startDate endDate path s = (s', r) ->
  project (this s') = project (this s)
  /\ (creations (requests (remote s')) = creations (requests (remote s))
      \/ creations (requests (remote s'))
         = (creations (requests (remote s))
            ++ [newIteration (project (this s)) iterationName startDate endDate path])%list).
Proof.
  destruct s as [[proj conn wc cache loaded] [cs ls ps rq td]].
  run_monad. destruct wc; cbn.
  - destruct ps as [|[created|] ps]; cbn; intros [= <- <-]; cbn;
      (split; [reflexivity|]); right; rewrite creations_app; reflexivity.
  - intros [= <- <-]. cbn. auto.
Qed.

(** The create requests of a call of [createIteration]. *)
Lemma createIteration_log
    (iterationName : string) (startDate endDate : option Date) (path : option string)
    (s s' : State) (r : Result (option Iteration)) :
  createIteration iterationName startDate endDate path s = (s', r) ->
  creations (requests (remote s')) = creations (requests (remote s))
  \/ creations (requests (remote s'))
     = (creations (requests (remote s))
        ++ [newIteration (project (this s)) iterationName startDate endDate path])%list.
Proof.
  unfold createIteration, bind. intros H.
  destruct (initialize s) as [sa [[]|e]] eqn:Hi.
  - destruct (initialize_log _ _ _ Hi) as [Hlog Hproj].
    apply initialize_returns in Hi.
    destruct (iterationExists_connected iterationName sa Hi) as (sb & Hex & Hext).
    assert (Hprojb : project (this sb) = project (this sa)).
    { pose proof (loadExistingIterations_project sa) as Hp.
      unfold iterationExists, bind in Hex.
      destruct (loadExistingIterations sa) as [sl [[]|el]]; [|discriminate].
      injection Hex as <- _. exact Hp. }
    rewrite Hex in H. destruct (bool_decide _).
    + destruct (getIteration_connected iterationName sb (proj1 Hext)) as (sc & Hget & Hext').
      rewrite Hget in H. injection H as <- _. left.
      destruct Hext as (_ & _ & Hc & _), Hext' as (_ & _ & Hc' & _). congruence.
    + apply postAndCache_log in H as [_ [Hsame|Hone]].
      * left. destruct Hext as (_ & _ & Hc & _). congruence.
      * right. rewrite Hone. destruct Hext as (_ & _ & Hc & _).
        rewrite Hc, Hlog, Hprojb, Hproj. reflexivity.
  - injection H as <- _. left. apply (initialize_log _ _ _ Hi).
Qed.

(** A call of [createIteration] issues at most one create request,
    whatever the store answers and whether the call returns or throws.
    The request, when there is one, carries the name as given, the dates
    formatted by [formatDate] ([null] for an absent date), and the given
    path or, when the path is absent or empty, a backslash followed by
    the path [getIterationPath] gives for the name. *)
Theorem createIteration_one_request
    (iterationName : string) (startDate endDate : option Date) (path : option string)
    (s s' : State) (r : Result (option Iteration)) :
  createIteration iterationName startDate endDate path s = (s', r) ->
  let before := creations (requests (remote s)) in
  let after := creations (requests (remote s')) in
  after = before
  \/ exists iteration,
       after = (before ++ [iteration])%list
       /\ name iteration = iterationName
       /\ attrStartDate (attributes iteration) = formatDate <$> startDate
       /\ attrFinishDate (attributes iteration) = formatDate <$> endDate
       /\ IterationCreator.path iteration
          = match path with
            | Some p => if String.eqb p "" then "\" +:+ getIterationPath (this s) iterationName
                        else p
            | None => "\" +:+ getIterationPath (this s) iterationName
            end.
Proof.
  intros H. cbn zeta. apply createIteration_log in H as [H|H]; [left; exact H|].
  right. eexists. split; [exact H|]. repeat split.
Qed.

Lemma createIteration_one_request_witness :
  let s := loadedState [Some iterationA] in
  let s' := (createIteration "Sprint 1" (Some (MkDate 2024 9 13)) None None s).1 in
  creations (requests (remote s'))
  = [{| name := "Sprint 1";
        attributes := {| attrStartDate := Some "2024-10-13"; attrFinishDate := None |};
        IterationCreator.path := "\P\Sprint 1" |}].
Proof.
  intros s s'.
  destruct (createIteration_one_request "Sprint 1" (Some (MkDate 2024 9 13)) None None s s'
              (createIteration "Sprint 1" (Some (MkDate 2024 9 13)) None None s).2)
    as [H|(it & H & _)].
  - subst s'. destruct (createIteration _ _ _ _ s). reflexivity.
  - vm_compute in H. discriminate H.
  - vm_compute. reflexivity.
Defined.

(** The cache after a listing has been stored. *)
Lemma foldl_insert_lookup (iterations : list Iteration) (m : gmap string Iteration)
    (key : string) :
  foldl (fun m i => <[toLowerCase (name i) := i]> m) m iterations !! key
  = match lastNamed key iterations with
    | Some i => Some i
    | None => m !! key
    end.
Proof.
  revert m. induction iterations as [|i rest IH]; intros m; [reflexivity|].
  cbn [foldl]. rewrite IH. unfold lastNamed. rewrite filter_cons.
  case_decide as Hk.
  - rewrite last_cons.
    destruct (last (filter _ rest)) as [j|]; [reflexivity|].
    rewrite Hk. apply lookup_insert_eq.
  - destruct (last (filter _ rest)) as [j|]; [reflexivity|].
    apply lookup_insert_ne. exact Hk.
Qed.

(** On an instance connected to the store whose cache is not loaded,
    [loadExistingIterations] asks the store for its iterations once.  When
    the store answers, each key holds the last listed iteration whose
    lowercased name it is (of two iterations whose names differ by letter
    case only, the later one is kept), the other keys are unchanged, and
    the cache is marked as loaded.  When the call fails, the error is
    swallowed: the method returns, the cache is as before and is not
    marked, so the next call asks again. *)
Theorem loadExistingIterations_listing (s : State) :
  connection (this s) = true ->
  workClient (this s) = true ->
  cacheLoaded (this s) = false ->
  exists s',
    loadExistingIterations s = (s', Return tt)
    /\ requests (remote s') = (requests (remote s) ++ [GetTeamIterations])%list
    /\ listings (remote s') = tail (listings (remote s))
    /\ match head (listings (remote s)) with
       | Some (Some iterations) =>
         cacheLoaded (this s') = true
         /\ forall key,
              existingIterations (this s') !! key
              = match lastNamed key iterations with
                | Some i => Some i
                | None => existingIterations (this s) !! key
                end
       | _ =>
         cacheLoaded (this s') = false
         /\ existingIterations (this s') = existingIterations (this s)
       end.
Proof.
  destruct s as [[proj conn wc cache loaded] [cs ls ps rq td]].
  cbn [this remote connection workClient cacheLoaded]. intros -> -> ->.
  unfold loadExistingIterations, initialize. run_monad.
  destruct ls as [|[iterations|] ls]; cbn.
  - eexists. split; [reflexivity|]. cbn. auto.
  - rewrite cacheAll_state. cbn. eexists. split; [reflexivity|]. cbn.
    repeat split. intros key. apply foldl_insert_lookup.
  - eexists. split; [reflexivity|]. cbn. auto.
Qed.

Lemma loadExistingIterations_listing_witness :
  let s := {| this := {| project := "P"; connection := true; workClient := true;
                         existingIterations := ∅; cacheLoaded := false |};
              remote := {| connects := []; listings := [Some [iterationA; iterationB]];
                           postings := []; requests := []; today := (2024, 0, 1)%Z |} |} in
  exists s', loadExistingIterations s = (s', Return tt)
             /\ existingIterations (this s') !! "sprint 1" = Some iterationB.
Proof.
  intros s.
  destruct (loadExistingIterations_listing s eq_refl eq_refl eq_refl)
    as (s' & Hload & _ & _ & Hcache).
  exists s'. split; [exact Hload|].
  cbn in Hcache. destruct Hcache as [_ Hcache]. rewrite Hcache. reflexivity.
Defined.




(** ** Sprint names without dates *)

Lemma try_counts_Some {R : Type} (k lo : nat) (f : nat -> option R) (r : R) :
  RegExp.try_counts k lo f = Some r -> exists j, (lo <= j <= k)%nat /\ f j = Some r.
Proof.
  induction k as [|k IH]; cbn [RegExp.try_counts].
  - destruct (0 <? lo)%nat eqn:E; [discriminate|]. apply Nat.ltb_ge in E.
    destruct (f 0%nat) eqn:F; [|discriminate]. intros [= <-]. exists 0%nat. split; [lia|exact F].
  - destruct (S k <? lo)%nat eqn:E; [discriminate|]. apply Nat.ltb_ge in E.
    destruct (f (S k)) eqn:F.
    + intros [= <-]. exists (S k). split; [lia|exact F].
    + intros H. apply IH in H as (j & Hj & Hf). exists j. split; [lia|exact Hf].
Qed.

Lemma bound_le (hi : option nat) (n : nat) : (RegExp.bound hi n <= n)%nat.
Proof. destruct hi; cbn; lia. Qed.

Lemma run_first (f : ascii -> bool) (s : string) :
  (1 <= RegExp.run f s)%nat -> exists c s', s = String c s' /\ f c = true.
Proof.
  destruct s as [|c s']; cbn; [lia|]. destruct (f c) eqn:E; [eauto|lia].
Qed.

Lemma drop_chars (k : nat) (s : string) (c : ascii) :
  c ∈ list_ascii_of_string (drop k s) -> c ∈ list_ascii_of_string s.
Proof.
  revert s. induction k as [|k IH]; intros s; [destruct s; auto|].
  destruct s as [|d s']; [auto|]. cbn [drop list_ascii_of_string]. intros H.
  apply list_elem_of_further, IH, H.
Qed.

(** A string that a sequence of items matches holds, for each item that
    asks for one character or more, a character of the item's class. *)
Lemma matchItems_chars (p : list RegExp.Item) (s : string) (caps : list string)
    (i : RegExp.Item) :
  RegExp.matchItems p s = Some caps ->
  i ∈ p -> (1 <= RegExp.lo i)%nat ->
  exists c, c ∈ list_ascii_of_string s /\ RegExp.cls i c = true.
Proof.
  revert s caps. induction p as [|i0 p IH]; intros s caps Hm Hin Hlo.
  - apply elem_of_nil in Hin. contradiction.
  - cbn [RegExp.matchItems] in Hm. apply try_counts_Some in Hm as (j & Hj & Hf).
    destruct (RegExp.matchItems p (drop j s)) as [caps'|] eqn:Hrest; [|discriminate].
    apply elem_of_cons in Hin as [->|Hin].
    + pose proof (bound_le (RegExp.hi i0) (RegExp.run (RegExp.cls i0) s)).
      destruct (run_first (RegExp.cls i0) s) as (c & s' & -> & Hc); [lia|].
      exists c. split; [apply list_elem_of_here|exact Hc].
    + destruct (IH _ _ Hrest Hin Hlo) as (c & Hc & Hcls).
      exists c. split; [exact (drop_chars _ _ _ Hc)|exact Hcls].
Qed.

Lemma exec_chars (p : list RegExp.Item) (s : string) (caps : list string) (i : RegExp.Item) :
  RegExp.exec p s = Some caps ->
  i ∈ p -> (1 <= RegExp.lo i)%nat ->
  exists c, c ∈ list_ascii_of_string s /\ RegExp.cls i c = true.
Proof.
  intros H Hin Hlo. induction s as [|d s IH].
  - cbn [RegExp.exec] in H.
    destruct (RegExp.matchItems p "") eqn:Hm; [|discriminate].
    exact (matchItems_chars _ _ _ _ Hm Hin Hlo).
  - cbn [RegExp.exec] in H.
    destruct (RegExp.matchItems p (String d s)) eqn:Hm.
    + exact (matchItems_chars _ _ _ _ Hm Hin Hlo).
    + destruct (IH H) as (c & Hc & Hcls).
      exists c. split; [apply list_elem_of_further, Hc|exact Hcls].
Qed.

(** None of the three expressions matches a name without a hyphen. *)
Lemma firstMatch_hyphen (sprintName : string) :
  "-"%char ∉ list_ascii_of_string sprintName ->
  firstMatch patterns sprintName = None.
Proof.
  intros Hno.
  assert (H : forall p, RegExp.one (RegExp.lit "-") ∈ p -> RegExp.exec p sprintName = None).
  { intros p Hin. destruct (RegExp.exec p sprintName) as [caps|] eqn:E; [|reflexivity].
    destruct (exec_chars _ _ _ _ E Hin) as (c & Hc & Hcls); [cbn; lia|].
    change (Ascii.eqb "-" c = true) in Hcls. apply Ascii.eqb_eq in Hcls. subst c.
    contradiction. }
  unfold patterns. cbn [firstMatch].
  rewrite (H monthNamePattern) by (unfold monthNamePattern; find_elem).
  rewrite (H numericPattern) by (unfold numericPattern; find_elem).
  rewrite (H isoPattern) by (unfold isoPattern; find_elem).
  reflexivity.
Qed.

(** A sprint name without a hyphen has no dates: [parseSprintDates]
    returns [null] for every year.  For a sprint with no start date and
    such a name, [createFromSprintInfo] therefore settles on the current
    date and the current date plus the default duration, whatever the
    duration of the sprint says. *)
Theorem parseSprintDates_needs_hyphen
    (Date_parse : string -> Date) (info : SprintInfo) (year defaultDuration : Z)
    (r : IterationCreator.Remote) :
  "-"%char ∉ list_ascii_of_string (sprintName info) ->
  parseSprintDates (sprintName info) year = None
  /\ (truthy_entry (sprintStartDate info) = false ->
      sprintDates Date_parse r info defaultDuration
      = (Some (currentDate r), Some (addDays (currentDate r) defaultDuration))).
Proof.
  intros Hno. pose proof (firstMatch_hyphen _ Hno) as Hfirst.
  assert (Hparse : forall y, parseSprintDates (sprintName info) y = None).
  { intros y. unfold parseSprintDates. rewrite Hfirst. reflexivity. }
  split; [apply Hparse|].
  intros Hstart. unfold sprintDates. rewrite Hstart, Hparse. reflexivity.
Qed.

Lemma parseSprintDates_needs_hyphen_witness :
  parseSprintDates "Sprint 70" 2024 = None
  /\ sprintDates noDate (remote (loadedState []))
       {| sprintName := "Sprint 70"; sprintStartDate := None; duration := Some 7%Z |} 14
     = (Some (MkDate 2024 0 1), Some (MkDate 2024 0 15)).
Proof.
  assert (Hno : "-"%char ∉ list_ascii_of_string "Sprint 70").
  { cbn. intros H. repeat (apply elem_of_cons in H as [H|H]; [discriminate H|]).
    apply elem_of_nil in H. exact H. }
  destruct (parseSprintDates_needs_hyphen noDate
              {| sprintName := "Sprint 70"; sprintStartDate := None; duration := Some 7%Z |}
              2024 14 (remote (loadedState [])) Hno) as [H1 H2].
  split; [exact H1|]. rewrite (H2 eq_refl). reflexivity.
Defined.

(** ** Bulk migration: the counters *)

(** The loop body counts the issue once: as a success or as a failure. *)
Lemma migrateIssue_outcome
    (features : Features) (makeHtml : string -> string)
    (getWorkItemType : string -> list string -> string)
    (createPatch : VM -> list PatchOperation)
    (vm : VM) (summary : Summary) (r r' : Remote) (res : Result Summary) :
  migrateIssue features true makeHtml getWorkItemType createPatch vm summary r = (r', res) ->
  res = Return (succeeded summary) \/ exists e, res = Return (failed summary vm e).
Proof.
  unfold migrateIssue, try_catch.
  match goal with |- context [match ?m r with _ => _ end] => destruct (m r) as [r1 [x|e]] eqn:E end.
  2:{ intros [= <- <-]. right. eauto. }
  intros [= <- <-].
  unfold bind at 1 in E.
  destruct ((if syncProjectStatus features then getIssueProjectInfo (number vm) else ret None) r)
    as [ra [projectInfo|e]]; [|discriminate].
  unfold bind at 1 in E. destruct (find vm ra) as [rb [workItem|e]]; [|discriminate].
  assert (Hcreate : forall rb,
    (let vm := withType vm (getWorkItemType (title vm) (labels vm)) in
     let! workItem := createWorkItem createPatch vm projectInfo in
     match workItem with
     | Item w =>
       let! _ := if String.eqb (ghToken vm) "" then ret tt else updateIssueBody vm w in
       ret (succeeded summary)
     | _ => ret (failed summary vm "Creation failed")
     end) rb = (r1, Return x) ->
    x = succeeded summary \/ exists e, x = failed summary vm e).
  { clear E. intros rc. cbn zeta. unfold bind at 1.
    destruct (createWorkItem _ _ _ rc) as [rd [[w| |]|e]]; [| | |discriminate].
    - unfold bind at 1.
      destruct ((if String.eqb _ "" then ret tt else updateIssueBody _ w) rd)
        as [re [[]|e]]; [|discriminate].
      intros [= _ <-]. left. reflexivity.
    - intros [= _ <-]. right. eauto.
    - intros [= _ <-]. right. eauto. }
  destruct workItem as [w| |].
  - unfold bind at 1 in E.
    destruct (updateWorkItem _ _ _ _ _ rb) as [rc [l|e]]; [|discriminate].
    injection E as _ <-. left. reflexivity.
  - destruct (Hcreate rb E) as [->|[e ->]]; [left|right]; eauto.
  - destruct (Hcreate rb E) as [->|[e ->]]; [left|right]; eauto.
Qed.

(** With [continueOnError] set, as [config.js] sets it, the loop of
    [handleBulkMigration] never throws, whatever the remote systems
    answer, and counts every issue exactly once: the successes and the
    failures add up to the number of issues, and each failure is listed in
    [failedIssues]. *)
Theorem migrateAll_accounts
    (features : Features) (makeHtml : string -> string)
    (getWorkItemType : string -> list string -> string)
    (createPatch : VM -> list PatchOperation)
    (issues : list VM) (summary : Summary) (r : Remote) :
  exists r' summary',
    migrateAll features true makeHtml getWorkItemType createPatch issues summary r
    = (r', Return summary')
    /\ (successCount summary' + failCount summary'
        = successCount summary + failCount summary + length issues)%nat
    /\ (successCount summary <= successCount summary')%nat
    /\ (length (failedIssues summary') + failCount summary
        = length (failedIssues summary) + failCount summary')%nat.
Proof.
  revert summary r. induction issues as [|vm rest IH]; intros summary r.
  - exists r, summary. split; [reflexivity|]. cbn. lia.
  - cbn [migrateAll]. unfold bind at 1.
    destruct (migrateIssue _ _ _ _ _ vm summary r) as [r1 res] eqn:E.
    apply migrateIssue_outcome in E as [->|[e ->]].
    + destruct (IH (succeeded summary) r1) as (r' & summary' & -> & H1 & H2 & H3).
      exists r', summary'. split; [reflexivity|]. cbn in *. lia.
    + destruct (IH (failed summary vm e) r1) as (r' & summary' & -> & H1 & H2 & H3).
      exists r', summary'. split; [reflexivity|]. cbn in *.
      rewrite length_app in H3. cbn in H3. lia.
Qed.

(** When [find] returns the work item of an issue on no project board and
    the connection for the update is made, the loop body sends one update
    request and counts the issue as a success whatever Azure DevOps
    answers to it: a rejected update makes [updateWorkItemDirect] return
    [null], which the loop body does not look at. *)
Theorem migrateIssue_update_unchecked
    (features : Features) (continueOnError : bool) (makeHtml : string -> string)
    (getWorkItemType : string -> list string -> string)
    (createPatch : VM -> list PatchOperation)
    (vm : VM) (summary : Summary) (r r1 r2 : Remote) (w : WorkItem) (rest : list Answer) :
  (if syncProjectStatus features then getIssueProjectInfo (number vm) else ret None) r
  = (r1, Return None) ->
  find vm r1 = (r2, Return (Item w)) ->
  answers r2 = Resolves :: rest ->
  exists r3,
    migrateIssue features continueOnError makeHtml getWorkItemType createPatch vm summary r
    = (r3, Return (succeeded summary))
    /\ updates (calls r3) = (updates (calls r2) ++ [id w])%list.
Proof.
  intros Hinfo Hfind Hans.
  unfold migrateIssue, try_catch, bind at 1. rewrite Hinfo.
  unfold bind at 1. rewrite Hfind.
  destruct r2 as [ans log]. cbn in Hans. subst ans.
  unfold updateWorkItem, updatePatch. rewrite andb_false_r.
  match goal with |- context [(0 <? length ?l)%nat] =>
    assert (Hlen : (0 <? length l)%nat = true)
      by (rewrite !length_app; cbn [length]; apply Nat.ltb_lt; lia)
  end.
  rewrite Hlen.
  unfold updateWorkItemDirect, getWorkItemTrackingApi, try_catch, bind, call, ret, throw. cbn.
  assert (Hup : forall (log : list Call) c,
    updates (log ++ [c]) = (updates log ++ updates [c])%list)
    by (intros; unfold updates; apply omap_app).
  destruct rest as [|[| |ids|updated|info] rest]; cbn;
    (eexists; split; [reflexivity|]; cbn; rewrite !Hup, app_nil_r; reflexivity).
Qed.

Lemma migrateIssue_update_unchecked_witness :
  let remote :=
    {| answers := [Resolves; Ids [101%Z]; AWorkItem (workItem101 ""); Resolves; Fails];
       calls := [] |} in
  let features :=
    {| syncTitle := true; syncDescription := true; syncState := true; syncAssignees := true;
       syncLabels := true; syncComments := true; syncDates := true; syncHierarchy := true;
       syncProjectStatus := false; syncPullRequests := true; syncMilestones := false;
       syncIterations := true; syncCustomFields := false; syncDevelopmentLinks := true;
       syncReviewers := true; createIterations := true |} in
  exists r3,
    migrateIssue features true (fun body => body) (fun _ _ => "Bug") (fun _ => []) crash
      emptySummary remote
    = (r3, Return (succeeded emptySummary))
    /\ updates (calls r3) = [101%Z].
Proof.
  intros remote features.
  destruct (migrateIssue_update_unchecked features true (fun body => body) (fun _ _ => "Bug")
              (fun _ => []) crash emptySummary remote remote
              {| answers := [Resolves; Fails];
                 calls := [GetWorkItemTrackingApi; QueryByWiql 7 "app"; GetWorkItem 101] |}
              (workItem101 "") [Fails])
    as (r3 & H & Hup).
  - reflexivity.
  - reflexivity.
  - reflexivity.
  - exists r3. split; [exact H|exact Hup].
Defined.

(** ** Bulk migration: fetching the issues *)

Lemma pages_from (page : Z) (n : nat) :
  (fun k => page + Z.of_nat k)%Z <$> seq 0 (S n)
  = page :: ((fun k => page + 1 + Z.of_nat k)%Z <$> seq 0 n).
Proof.
  cbn [seq fmap list_fmap]. rewrite Z.add_0_r. f_equal.
  rewrite <- fmap_S_seq, <- list_fmap_compose. apply list_fmap_ext.
  intros _ k _. cbn. lia.
Qed.

Lemma fetchPages_full (full : list (list Issue)) (last : list Issue)
    (rest : list (option (list Issue))) (page : Z) (asked : list Z) (issues : list Issue) :
  Forall (fun data => length data = perPage) full ->
  (length last < perPage)%nat ->
  fetchPages ((Some <$> full) ++ Some last :: rest) page asked issues
  = ({| pages := rest;
        asked := (asked ++ ((fun k => page + Z.of_nat k)%Z <$> seq 0 (S (length full))))%list |},
     Return (issues
             ++ List.filter (fun issue => negb (pull_request issue)) (concat full ++ last))%list).
Proof.
  intros Hfull Hlast. revert page asked issues.
  induction Hfull as [|data full Hdata _ IH]; intros page asked issues.
  - cbn [fmap list_fmap app fetchPages length seq concat]. rewrite Z.add_0_r.
    destruct (length last =? 0)%nat eqn:E.
    + apply Nat.eqb_eq in E. destruct last; [|discriminate]. cbn. rewrite app_nil_r.
      reflexivity.
    + apply Nat.ltb_lt in Hlast. rewrite Hlast. reflexivity.
  - cbn [fmap list_fmap app fetchPages]. rewrite Hdata.
    change (perPage =? 0)%nat with false. change (perPage <? perPage)%nat with false.
    cbn iota. rewrite IH. cbn [length]. rewrite (pages_from page (S (length full))).
    cbn [concat]. rewrite <- ?app_assoc, ?List.filter_app, <- ?app_assoc. reflexivity.
Qed.

(** The fetch of [handleBulkMigration] asks for page 1, 2, ... until the
    first page with fewer than 100 entries, which may be empty, and
    returns the entries of these pages that are not pull requests, in
    order.  Pull requests count towards the 100 entries of a page: a page
    is full or short by what the service sent, not by what is kept. *)
Theorem fetchIssues_pages (full : list (list Issue)) (last : list Issue)
    (rest : list (option (list Issue))) :
  Forall (fun data => length data = perPage) full ->
  (length last < perPage)%nat ->
  let listing := {| pages := (Some <$> full) ++ Some last :: rest; asked := [] |} in
  let issues := List.filter (fun issue => negb (pull_request issue)) (concat full ++ last) in
  fetchIssues listing
  = ({| pages := rest; asked := Z.of_nat <$> seq 1 (S (length full)) |}, Return issues)
  /\ Forall (fun issue => pull_request issue = false) issues.
Proof.
  intros Hfull Hlast listing issues. split.
  - unfold fetchIssues, listing. cbn [pages asked].
    rewrite (fetchPages_full full last rest 1 [] [] Hfull Hlast). cbn [app].
    f_equal. f_equal. rewrite <- fmap_S_seq, <- list_fmap_compose. apply list_fmap_ext.
    intros _ k _. cbn. lia.
  - apply Forall_forall. intros issue Hin. apply list_elem_of_In, filter_In in Hin as [_ Hin].
    destruct (pull_request issue); [discriminate|reflexivity].
Qed.

Lemma fetchIssues_pages_witness :
  let bug := {| issue_number := 1; issue_title := "Bug"; pull_request := false |} in
  let fix' := {| issue_number := 2; issue_title := "Fix"; pull_request := true |} in
  fetchIssues {| pages := [Some (replicate 100 fix'); Some [bug; fix']; None]; asked := [] |}
  = ({| pages := [None]; asked := [1; 2]%Z |}, Return [bug]).
Proof.
  intros bug fix'.
  destruct (fetchIssues_pages [replicate 100 fix'] [bug; fix'] [None]) as [H _].
  - repeat constructor.
  - cbn. unfold perPage. lia.
  - exact H.
Defined.

(** ** Tags and priority *)

Lemma filter_all {A : Type} (f : A -> bool) (l : list A) :
  List.filter f l = l <-> forallb f l = true.
Proof.
  induction l as [|a l IH]; [cbn; tauto|]. cbn [List.filter forallb].
  destruct (f a) eqn:E; cbn [andb].
  - rewrite <- IH. split; [intros [= H]; exact H|intros ->; reflexivity].
  - split; [|discriminate]. intros H.
    pose proof (List.filter_length_le f l) as Hle. rewrite H in Hle. cbn in Hle. lia.
Qed.




(** ** Labels and links added once *)

Lemma append_cons (c : ascii) (s t : string) : String c s +:+ t = String c (s +:+ t).
Proof. reflexivity. Qed.

Lemma append_empty_r (s : string) : s +:+ "" = s.
Proof. induction s as [|c s IH]; [reflexivity|]. rewrite append_cons, IH. reflexivity. Qed.

Lemma append_assoc (s t u : string) : (s +:+ t) +:+ u = s +:+ t +:+ u.
Proof. induction s as [|c s IH]; [reflexivity|]. rewrite !append_cons, IH. reflexivity. Qed.

Lemma prefix_append (t b : string) : String.prefix t (t +:+ b) = true.
Proof.
  induction t as [|c t IH]; [destruct b; reflexivity|].
  simpl. destruct (ascii_dec c c); [exact IH|contradiction].
Qed.

Lemma includes_here (t s : string) : String.prefix t s = true -> includes t s = true.
Proof. intros H. destruct s; cbn [includes]; rewrite H; reflexivity. Qed.

Lemma includes_append (t a b : string) : includes t (a +:+ t +:+ b) = true.
Proof.
  induction a as [|c a IH].
  - change ("" +:+ t +:+ b) with (t +:+ b). apply includes_here, prefix_append.
  - change (String c a +:+ t +:+ b) with (String c (a +:+ t +:+ b)).
    cbn [includes]. rewrite IH. apply orb_true_r.
Qed.

Lemma includes_end (t a : string) : includes t (a +:+ t) = true.
Proof.
  pose proof (includes_append t a "") as H. rewrite append_empty_r in H. exact H.
Qed.

(** When the label is not found in the current tags, [addLabel] asks for
    the tags to be replaced by the current tags followed by the label (the
    label alone when there were no tags); on a work item whose tags are
    the ones it wrote, [addLabel] finds the label and sends nothing. *)
Theorem addLabel_once (event : Event) (workItem updated : WorkItem) (r : Remote) :
  includes (label event) (currentTags workItem) = false ->
  let newTags := labelled (currentTags workItem) (label event) in
  fields updated !! "System.Tags" = Some newTags ->
  addLabel event workItem r
  = updateWorkItemDirect
      [{| op := "replace"; path := "/fields/System.Tags"; value := newTags |}]
      (id workItem) r
  /\ addLabel event updated r = (r, Return (Item updated)).
Proof.
  intros Hnew newTags Hupdated. split.
  - unfold addLabel. rewrite Hnew. unfold newTags, labelled.
    destruct (String.eqb (currentTags workItem) ""); reflexivity.
  - assert (Hc : currentTags updated = newTags)
      by (unfold currentTags; rewrite Hupdated; reflexivity).
    unfold addLabel. rewrite Hc.
    assert (H : includes (label event) newTags = true).
    { unfold newTags, labelled. destruct (String.eqb (currentTags workItem) "").
      - apply (includes_end _ "").
      - rewrite <- append_assoc. apply includes_end. }
    rewrite H. reflexivity.
Qed.

Lemma addLabel_once_witness :
  let event := {| action := "labeled"; repo_name := "app"; label := "ui"; assignees := [];
                  closed_at := None; bypassRules := false; comment_text := "";
                  comment_url := "" |} in
  let workItem := {| id := 101; fields := list_to_map [("System.Tags", "GitHub Issue; app")] |} in
  let updated :=
    {| id := 101; fields := list_to_map [("System.Tags", "GitHub Issue; app; ui")] |} in
  let r := {| answers := []; calls := [] |} in
  addLabel event updated r = (r, Return (Item updated)).
Proof.
  intros event workItem updated r.
  exact (proj2 (addLabel_once event workItem updated r eq_refl eq_refl)).
Defined.

(** [updateIssueBody] never throws.  When the body does not hold the link
    [AB#id] yet, it asks GitHub once to set the body to the old body, two
    line breaks and the link; on an issue whose body is the one it wrote,
    it finds the link and sends nothing. *)
Theorem updateIssueBody_once (vm : VM) (workItem : WorkItem) (r : Remote) :
  let link := "AB#" +:+ pretty (id workItem) in
  let linked := body vm +:+ crlf +:+ crlf +:+ link in
  (exists r', updateIssueBody vm workItem r = (r', Return tt))
  /\ (includes link (body vm) = false ->
      calls (updateIssueBody vm workItem r).1
      = (calls r ++ [UpdateIssue (number vm) linked])%list)
  /\ (includes link (body vm) = true -> updateIssueBody vm workItem r = (r, Return tt))
  /\ updateIssueBody (withBody vm linked) workItem r = (r, Return tt).
Proof.
  cbn zeta. split; [|split; [|split]].
  - unfold updateIssueBody. destruct (includes _ (body vm)); [eexists; reflexivity|].
    unfold try_catch, bind, call, ret, throw. cbn.
    destruct (head (answers r)) as [[]|]; cbn; eexists; reflexivity.
  - intros H. unfold updateIssueBody. rewrite H.
    unfold try_catch, bind, call, ret, throw. cbn.
    destruct (head (answers r)) as [[]|]; reflexivity.
  - intros H. unfold updateIssueBody. rewrite H. reflexivity.
  - unfold updateIssueBody, withBody. cbn [body].
    replace (body vm +:+ crlf +:+ crlf +:+ "AB#" +:+ pretty (id workItem))
      with ((body vm +:+ crlf +:+ crlf) +:+ ("AB#" +:+ pretty (id workItem)))
      by (rewrite !append_assoc; reflexivity).
    rewrite includes_end. reflexivity.
Qed.

(** ** Closing and reopening *)

(** Under the default configuration a closed item with no project entry
    maps to ["Done"] and a reopened one to ["To Do"] for a task and to
    ["New"] for any other type, a missing type included. *)
Lemma default_closed_reopened (workItemType : jsval) :
  getAdoState getDefaultConfig workItemType (JString "closed") JNull (JString "In Production")
  = "Done"
  /\ getAdoState getDefaultConfig workItemType (JString "open") JNull (JString "No status")
     = if String.eqb (toPropertyKey workItemType) "Task" then "To Do" else "New".
Proof.
  rewrite !getAdoState_stateMapOf by reflexivity.
  unfold stateMapOf.
  change (projects getDefaultConfig !! normalizeProject getDefaultConfig JNull)
    with (Some siwar).
  cbn [mbind option_bind].
  change (normalizeState (JString "closed")) with "closed".
  change (normalizeState (JString "open")) with "open".
  rewrite !default_fallback_closed_or_new.
  destruct (statusMappings siwar !! toPropertyKey workItemType) as [typeMappings|] eqn:E;
    cbn [mbind option_bind].
  - cbn [siwar statusMappings] in E. table_entry E; injection E as Hk ->; rewrite Hk;
      split; vm_compute; reflexivity.
  - split; [reflexivity|].
    destruct (String.eqb_spec (toPropertyKey workItemType) "Task") as [Ht|]; [|reflexivity].
    rewrite Ht in E. vm_compute in E. discriminate E.
Qed.

(** Under the default configuration, closing a work item that is on no
    project board always asks for the state ["Done"], whatever the type of
    the work item, and reopening it asks for ["To Do"] when the work item
    is a task and for ["New"] otherwise; the closing date is sent only
    when dates are synchronised, the issue has one and rules are
    bypassed. *)
Theorem closeWorkItem_default_state
    (features : Features) (vm : VM) (event : Event) (workItem : WorkItem) (r : Remote) :
  let state (s : string) := {| op := "replace"; path := "/fields/System.State"; value := s |} in
  let history (verb : string) :=
    {| op := "add"; path := "/fields/System.History";
       value := "Issue " +:+ verb +:+ " on GitHub by " +:+ user vm |} in
  let closedDate :=
    if syncDates features && truthy_entry (closed_at event) && bypassRules event
    then [{| op := "add"; path := "/fields/System.ClosedDate";
             value := default "" (closed_at event) |}]
    else [] in
  closeWorkItem features getDefaultConfig vm event workItem None r
  = updateWorkItemDirect ([state "Done"; history "closed"] ++ closedDate) (id workItem) r
  /\ reopenWorkItem getDefaultConfig vm workItem None r
     = updateWorkItemDirect
         [state (if bool_decide (fields workItem !! "System.WorkItemType" = Some "Task")
                 then "To Do" else "New");
          history "reopened"]
         (id workItem) r.
Proof.
  cbn zeta. unfold closeWorkItem, reopenWorkItem.
  destruct (default_closed_reopened (workItemType workItem)) as [-> ->]. split.
  - destruct (syncDates features && truthy_entry (closed_at event) && bypassRules event);
      reflexivity.
  - unfold workItemType. destruct (fields workItem !! "System.WorkItemType") as [type|].
    + cbn [toPropertyKey]. destruct (String.eqb_spec type "Task") as [->|Hne].
      * rewrite bool_decide_eq_true_2 by reflexivity. reflexivity.
      * rewrite bool_decide_eq_false_2 by congruence. reflexivity.
    + rewrite bool_decide_eq_false_2 by discriminate. reflexivity.
Qed.

(** ** The lookups and their sentinels *)

(** [find] never throws: it returns a work item, [null] when the query
    finds none, and [-1] when connecting, querying or reading fails.
    [executeWorkItemCreate] returns a work item or [-1], never [null], and
    [updateWorkItemDirect] a work item or [null], never [-1]; unlike [find]
    both throw when the connection cannot be made, and make no request
    then. *)
Theorem lookup_sentinels
    (vm : VM) (patchDocument : list PatchOperation) (type : string) (workItemId : Z)
    (r : Remote) :
  (exists r' found, find vm r = (r', Return found))
  /\ (forall r' created, executeWorkItemCreate patchDocument type r = (r', Return created) ->
        created <> Null)
  /\ (forall r' updated, updateWorkItemDirect patchDocument workItemId r = (r', Return updated) ->
        updated <> MinusOne)
  /\ (head (answers r) <> Some Resolves ->
      let r' := {| answers := tail (answers r);
                   calls := (calls r ++ [GetWorkItemTrackingApi])%list |} in
      find vm r = (r', Return MinusOne)
      /\ (exists e, executeWorkItemCreate patchDocument type r = (r', Throw e))
      /\ (exists e, updateWorkItemDirect patchDocument workItemId r = (r', Throw e))).
Proof.
  split; [|split; [|split]].
  - destruct (find vm r) as [r' res] eqn:E.
    destruct (find_reads_only _ _ _ _ E) as [[found ->] _]. eauto.
  - destruct r as [ans log].
    unfold executeWorkItemCreate, getWorkItemTrackingApi, try_catch, bind, call, ret, throw.
    cbn. intros r' created.
    destruct ans as [|[] [|[] ans]]; cbn; intros [= <- <-]; discriminate.
  - destruct r as [ans log].
    unfold updateWorkItemDirect, getWorkItemTrackingApi, try_catch, bind, call, ret, throw.
    cbn. intros r' updated.
    destruct ans as [|[] [|[] ans]]; cbn; intros [= <- <-]; discriminate.
  - destruct r as [ans log]. cbn [answers calls]. intros Hfail. cbn zeta.
    unfold find, executeWorkItemCreate, updateWorkItemDirect, getWorkItemTrackingApi,
      try_catch, bind, call, ret, throw. cbn.
    destruct ans as [|[] ans]; cbn; try (split; [reflexivity|split; eexists; reflexivity]).
    exfalso. apply Hfail. reflexivity.
Qed.

Lemma lookup_sentinels_witness :
  let r := {| answers := [Fails]; calls := [] |} in
  find crash r = ({| answers := []; calls := [GetWorkItemTrackingApi] |}, Return MinusOne).
Proof.
  intros r.
  destruct (lookup_sentinels crash [] "Bug" 101 r) as (_ & _ & _ & H).
  apply H. discriminate.
Defined.

(** ** The dispatch of the event handlers *)

Lemma updateWorkItemDirect_calls (patchDocument : list PatchOperation) (workItemId : Z)
    (r : Remote) :
  atMostOneUpdate workItemId r (updateWorkItemDirect patchDocument workItemId r).1.
Proof.
  destruct r as [ans log].
  unfold updateWorkItemDirect, getWorkItemTrackingApi, try_catch, bind, call, ret, throw,
    atMostOneUpdate.
  cbn. destruct ans as [|[] [|[] ans]]; cbn; rewrite <- ?app_assoc; eauto.
Qed.

Lemma updateWorkItem_calls (features : Features) (makeHtml : string -> string) (vm : VM)
    (workItem : WorkItem) (projectInfo : option ProjectInfo) (r : Remote) :
  atMostOneUpdate (id workItem) r (updateWorkItem features makeHtml vm workItem projectInfo r).1.
Proof.
  unfold updateWorkItem. destruct (updatePatch _ _ _ _ _) as [patchDocument|e].
  - destruct (0 <? length patchDocument)%nat; [apply updateWorkItemDirect_calls|].
    left. reflexivity.
  - left. reflexivity.
Qed.

(** The calls of a handler whose result [handleAction] drops. *)
Lemma dropped_calls (workItemId : Z) (handler : Eff.M Remote Lookup) (r : Remote) :
  atMostOneUpdate workItemId r (handler r).1 ->
  atMostOneUpdate workItemId r ((let! _ := handler in ret tt) r).1.
Proof.
  unfold bind. destruct (handler r) as [r' [l|e]]; intros H; exact H.
Qed.

(** Whatever the action, [handleAction] touches nothing when there is no
    work item, and with a work item it sends at most one request, an
    update of that work item: no handler creates a work item or writes to
    another one.  The actions ["opened"] and the unknown ones, a comment
    event without text and a label event without label send nothing.  (The
    handler of ["assigned"] and ["unassigned"] is left open here.) *)
Theorem handleAction_one_update
    (features : Features) (comments : Comments) (stateConfig : Config)
    (makeHtml toLocaleString : string -> string) (now : string)
    (updateAssignee : VM -> Event -> WorkItem -> Eff.M Remote Lookup)
    (vm : VM) (event : Event) (projectInfo : option ProjectInfo) (r : Remote) :
  let handle :=
    handleAction features comments stateConfig makeHtml toLocaleString now updateAssignee
      vm event in
  handle None projectInfo r = (r, Return tt)
  /\ (action event ∉ ["edited"; "created"; "closed"; "reopened"; "assigned"; "unassigned";
                      "labeled"; "unlabeled"] ->
      forall workItem, handle workItem projectInfo r = (r, Return tt))
  /\ (action event = "created" /\ comment_text event = ""
      \/ (action event = "labeled" \/ action event = "unlabeled") /\ label event = "" ->
      forall workItem, handle workItem projectInfo r = (r, Return tt))
  /\ (action event <> "assigned" -> action event <> "unassigned" ->
      forall workItem,
        atMostOneUpdate (id workItem) r (handle (Some workItem) projectInfo r).1).
Proof.
  cbn zeta. unfold handleAction. split; [|split; [|split]].
  - repeat first
      [ reflexivity
      | progress cbn [orb]
      | match goal with
        | |- context [String.eqb (action event) ?a] => destruct (String.eqb (action event) a)
        | |- context [negb ?b] => destruct (negb b)
        end ].
  - intros Hnot workItem.
    repeat match goal with
    | |- context [String.eqb (action event) ?a] =>
        destruct (String.eqb_spec (action event) a) as [E|_];
        [exfalso; apply Hnot; rewrite E; find_elem|]
    end.
    cbn [orb]. destruct (String.eqb (action event) "opened"); reflexivity.
  - intros [[Ha Ht]|[[Ha|Ha] Hl]] workItem; rewrite Ha; cbn [String.eqb Ascii.eqb Bool.eqb];
      cbn; rewrite ?Ht, ?Hl; reflexivity.
  - intros H1 H2 workItem.
    destruct (String.eqb (action event) "opened"); [left; reflexivity|].
    destruct (String.eqb (action event) "edited");
      [apply dropped_calls, updateWorkItem_calls|].
    destruct (String.eqb (action event) "created").
    { destruct (negb _); [|left; reflexivity].
      apply dropped_calls. unfold addComment. apply updateWorkItemDirect_calls. }
    destruct (String.eqb (action event) "closed").
    { apply dropped_calls. unfold closeWorkItem.
      destruct projectInfo; [left; reflexivity|].
      destruct (_ && _); apply updateWorkItemDirect_calls. }
    destruct (String.eqb (action event) "reopened").
    { apply dropped_calls. unfold reopenWorkItem.
      destruct projectInfo; [left; reflexivity|]. apply updateWorkItemDirect_calls. }
    destruct (String.eqb_spec (action event) "assigned"); [contradiction|].
    destruct (String.eqb_spec (action event) "unassigned"); [contradiction|]. cbn [orb].
    destruct (String.eqb (action event) "labeled").
    { destruct (negb _); [|left; reflexivity].
      apply dropped_calls. unfold addLabel.
      destruct (includes _ _); [left; reflexivity|]. apply updateWorkItemDirect_calls. }
    destruct (String.eqb (action event) "unlabeled").
    { destruct (negb _); [|left; reflexivity].
      apply dropped_calls. unfold removeLabel.
      destruct (negb (includes _ _)); [left; reflexivity|]. apply updateWorkItemDirect_calls. }
    left. reflexivity.
Qed.

Lemma handleAction_one_update_witness :
  let event := {| action := "closed"; repo_name := "app"; label := ""; assignees := [];
                  closed_at := None; bypassRules := false; comment_text := "";
                  comment_url := "" |} in
  let r := {| answers := [Resolves; AWorkItem (workItem101 "")]; calls := [] |} in
  atMostOneUpdate 101 r
    (handleAction defaultFeatures
       {| includeAuthor := true; includeDate := true; includeLinkBack := true |}
       getDefaultConfig (fun body => body) (fun date => date) "2024-01-01T00:00:00.000Z"
       (fun _ _ w => ret (Item w)) crash event (Some (workItem101 "")) None r).1.
Proof.
  intros event r.
  destruct (handleAction_one_update defaultFeatures
              {| includeAuthor := true; includeDate := true; includeLinkBack := true |}
              getDefaultConfig (fun body => body) (fun date => date)
              "2024-01-01T00:00:00.000Z" (fun _ _ w => ret (Item w)) crash event None r)
    as (_ & _ & _ & H).
  apply (H ltac:(discriminate) ltac:(discriminate) (workItem101 "")).
Defined.

(** ** The project board *)

Section ProjectBoard.

Import GitHubProjects.






(** The sprint [getSprintInfo] returns always has a name: a sprint field
    that is empty, a number or an iteration without title is passed over.
    So [createFromSprintInfo], given the result, returns [null] without a
    request exactly when there is no sprint, and otherwise goes on to
    [createIteration] with the name of the sprint: its guard against a
    sprint without name never fires. *)
Theorem getSprintInfo_named
    (Date_parse : string -> Dates.Date) (projectInfo : option ProjectInfo)
    (defaultDuration : Z) (s : IterationCreator.State) :
  match getSprintInfo projectInfo with
  | None =>
    createFromSprintInfo Date_parse (getSprintInfo projectInfo) defaultDuration s
    = (s, Return None)
  | Some sprint =>
    sprintName sprint <> ""
    /\ createFromSprintInfo Date_parse (getSprintInfo projectInfo) defaultDuration s
       = (let '(startDate, endDate) :=
            sprintDates Date_parse (IterationCreator.remote s) sprint defaultDuration in
          createIteration (sprintName sprint) startDate endDate None) s
  end.
Proof.
  assert (Hname : forall fieldNames fields sprint,
            sprintOf fieldNames fields = Some sprint -> sprintName sprint <> "").
  { intros fieldNames fields sprint. induction fieldNames as [|fieldName rest IH];
      [discriminate|].
    cbn [sprintOf]. destruct (get fieldName fields) as [[|value|n|title startDate duration]|];
      try exact IH.
    - destruct (String.eqb_spec value ""); cbn [negb]; [exact IH|].
      intros [= <-]. assumption.
    - destruct (String.eqb_spec title ""); cbn [negb]; [exact IH|].
      intros [= <-]. assumption. }
  destruct (getSprintInfo projectInfo) as [sprint|] eqn:E; [|reflexivity].
  assert (Hs : sprintName sprint <> "").
  { destruct projectInfo as [info|]; [|discriminate]. exact (Hname _ _ _ E). }
  split; [exact Hs|].
  unfold createFromSprintInfo. destruct (String.eqb_spec (sprintName sprint) "");
    [contradiction|].
  reflexivity.
Qed.


(** One mapping yields no operation, or one on its Azure DevOps field with
    a truthy value, for a work item type the mapping allows. *)
Lemma mapField_result (fields : Object FieldValue) (workItemType fieldName : string)
    (m : FieldMapping) :
  Forall (fun e : string * Z => e.2 <> 0%Z) (default [] (mapping m)) ->
  mapField fields workItemType (fieldName, m) = None
  \/ exists field value,
       adoField m = Some field
       /\ mapField fields workItemType (fieldName, m)
          = Some {| path := "/fields/" +:+ field; value := value |}
       /\ truthyField value = true
       /\ (forall types, workItemTypes m = Some types -> workItemType ∈ types).
Proof.
  intros Htable. unfold mapField.
  destruct (get fieldName fields) as [v|]; [|left; reflexivity].
  destruct (truthyField v) eqn:Hv; cbn [negb]; [|left; reflexivity].
  assert (Htypes : (match workItemTypes m with
                    | Some types => negb (bool_decide (workItemType ∈ types))
                    | None => false
                    end) = false ->
                   forall types, workItemTypes m = Some types -> workItemType ∈ types).
  { intros H types E. rewrite E in H. apply negb_false_iff, bool_decide_eq_true in H.
    exact H. }
  destruct (match workItemTypes m with Some _ => _ | None => _ end);
    [left; reflexivity|]. specialize (Htypes eq_refl).
  destruct (adoField m) as [field|]; [|left; reflexivity].
  destruct (String.eqb field ""); [left; reflexivity|].
  right. eexists field, _. split; [reflexivity|]. split; [reflexivity|].
  split; [|exact Htypes].
  destruct (mapping m) as [table|]; [|exact Hv]. cbn [default] in Htable.
  destruct (get (fieldKey v) table) as [n|] eqn:G; [|exact Hv].
  cbn [truthyField]. apply negb_true_iff, Z.eqb_neq.
  clear -Htable G. induction table as [|[k z] rest IH]; [discriminate|].
  apply Forall_cons in Htable as [Hz Hrest]. cbn [get] in G.
  destruct (String.eqb k (fieldKey v)); [injection G as <-; exact Hz|exact (IH Hrest G)].
Qed.

(** The operations of [mapCustomFields] follow the mappings that have an
    Azure DevOps field and allow the work item type, in order. *)
Lemma mapCustomFields_sublist (fields : Object FieldValue) (workItemType : string)
    (table : list (string * FieldMapping)) :
  Forall (fun e : string * FieldMapping =>
            Forall (fun kv : string * Z => kv.2 <> 0%Z) (default [] (mapping e.2))) table ->
  sublist (path <$> omap (mapField fields workItemType) table)
    (omap (fun e : string * FieldMapping =>
             if match workItemTypes e.2 with
                | Some types => bool_decide (workItemType ∈ types)
                | None => true
                end
             then (fun field => "/fields/" +:+ field) <$> adoField e.2
             else None) table)
  /\ Forall (fun patch => truthyField (value patch) = true)
       (omap (mapField fields workItemType) table).
Proof.
  induction 1 as [|[fieldName m] rest Hm _ [IH1 IH2]]; [split; constructor|].
  cbn [omap list_omap snd].
  destruct (mapField_result fields workItemType fieldName m Hm)
    as [->|(field & v & Hf & -> & Hv & Ht)].
  - split; [|exact IH2].
    match goal with
    | |- sublist _ (match ?o with Some _ => _ | None => _ end) =>
        destruct o; [apply sublist_cons|]; exact IH1
    end.
  - rewrite Hf. cbn [fmap option_fmap option_map list_fmap path].
    assert (Hallowed : match workItemTypes m with
                       | Some types => bool_decide (workItemType ∈ types)
                       | None => true
                       end = true).
    { destruct (workItemTypes m) as [types|]; [|reflexivity].
      apply bool_decide_eq_true. exact (Ht types eq_refl). }
    rewrite Hallowed. split.
    + apply sublist_skip. exact IH1.
    + constructor; [exact Hv|exact IH2].
Qed.

(** With the mappings of [config.js], [mapCustomFields] writes to at most
    five fields, each at most once and in this order: priority, effort,
    start date, target date, business value; the two dates only for a
    work item of type ["Epic"].  Every value it writes is truthy, and the
    fields mapped to no Azure DevOps field (time priority, product,
    category and the like) are never written. *)
Theorem mapCustomFields_paths (projectInfo : option ProjectInfo) (workItemType : string) :
  let patches := mapCustomFields mappings projectInfo workItemType in
  sublist (path <$> patches)
    ["/fields/Microsoft.VSTS.Common.Priority"; "/fields/Microsoft.VSTS.Scheduling.Effort";
     "/fields/Microsoft.VSTS.Scheduling.StartDate";
     "/fields/Microsoft.VSTS.Scheduling.TargetDate";
     "/fields/Microsoft.VSTS.Common.BusinessValue"]
  /\ (workItemType <> "Epic" ->
      sublist (path <$> patches)
        ["/fields/Microsoft.VSTS.Common.Priority"; "/fields/Microsoft.VSTS.Scheduling.Effort";
         "/fields/Microsoft.VSTS.Common.BusinessValue"])
  /\ Forall (fun patch => truthyField (value patch) = true) patches.
Proof.
  cbn zeta. destruct projectInfo as [info|].
  2:{ cbn. repeat split; [apply sublist_nil_l|intros _; apply sublist_nil_l|constructor]. }
  unfold mapCustomFields.
  destruct (mapCustomFields_sublist (fields info) workItemType mappings) as [Hsub Hall].
  { unfold mappings. repeat constructor; discriminate. }
  split; [|split; [|exact Hall]].
  - etrans; [exact Hsub|]. unfold mappings. cbn [omap list_omap snd workItemTypes adoField
      fmap option_fmap option_map].
    destruct (bool_decide (workItemType ∈ ["Epic"])).
    + reflexivity.
    + do 2 apply sublist_skip. do 2 apply sublist_cons. reflexivity.
  - intros Hne. etrans; [exact Hsub|]. unfold mappings. cbn [omap list_omap snd workItemTypes
      adoField fmap option_fmap option_map].
    rewrite bool_decide_eq_false_2; [reflexivity|].
    intros H. apply list_elem_of_singleton in H. contradiction.
Qed.

Lemma mapCustomFields_paths_witness :
  let info :=
    {| projectName := "Siwar"; projectNumber := 31;
       fields := [("Business Priority", FString "High"); ("Start Date", FString "2024-10-13");
                  ("Product", FString "Web")] |} in
  mapCustomFields mappings (Some info) "Bug"
  = [{| path := "/fields/Microsoft.VSTS.Common.Priority"; value := FNumber 1 |}]
  /\ sublist (path <$> mapCustomFields mappings (Some info) "Bug")
       ["/fields/Microsoft.VSTS.Common.Priority"; "/fields/Microsoft.VSTS.Scheduling.Effort";
        "/fields/Microsoft.VSTS.Common.BusinessValue"].
Proof.
  intros info. split; [vm_compute; reflexivity|].
  apply (proj1 (proj2 (mapCustomFields_paths (Some info) "Bug"))). discriminate.
Defined.

(** The readers of the project board return [null] or a truthy value: a
    field that is absent, [null], empty or zero reads as [null].  The
    status is the field ["Status"] when it reads as a value, else the
    field ["State"], else the field ["Column"]; the project name is
    [null] or a non-empty name in lower case. *)
Theorem getProjectStatus_truthy (projectInfo : option ProjectInfo) (fieldName : string) :
  getProjectStatus projectInfo
  = match getCustomField projectInfo "Status" with
    | Some status => Some status
    | None =>
      match getCustomField projectInfo "State" with
      | Some status => Some status
      | None => getCustomField projectInfo "Column"
      end
    end
  /\ (forall value, getCustomField projectInfo fieldName = Some value ->
                    truthyField value = true)
  /\ (forall status, getProjectStatus projectInfo = Some status -> truthyField status = true)
  /\ (forall name, getProjectName projectInfo = Some name ->
                   name <> "" /\ toLowerCase name = name).
Proof.
  assert (Hcustom : forall name value, getCustomField projectInfo name = Some value ->
                                       truthyField value = true).
  { intros name value. unfold getCustomField. destruct projectInfo as [info|]; [|discriminate].
    destruct (get name (fields info)) as [v|]; [|discriminate].
    destruct (truthyField v) eqn:E; [|discriminate]. intros [= <-]. exact E. }
  assert (Hstatus : getProjectStatus projectInfo
                    = match getCustomField projectInfo "Status" with
                      | Some status => Some status
                      | None =>
                        match getCustomField projectInfo "State" with
                        | Some status => Some status
                        | None => getCustomField projectInfo "Column"
                        end
                      end).
  { unfold getProjectStatus, getCustomField. destruct projectInfo as [info|]; [|reflexivity].
    cbn [firstTruthy].
    destruct (get "Status" (fields info)) as [v1|]; [destruct (truthyField v1)|];
      try reflexivity;
      (destruct (get "State" (fields info)) as [v2|]; [destruct (truthyField v2)|]);
      try reflexivity;
      (destruct (get "Column" (fields info)) as [v3|]; [destruct (truthyField v3)|]);
      reflexivity. }
  split; [exact Hstatus|]. split; [apply Hcustom|]. split.
  - intros status. rewrite Hstatus.
    destruct (getCustomField projectInfo "Status") eqn:E1; [intros [= <-]; eauto|].
    destruct (getCustomField projectInfo "State") eqn:E2; [intros [= <-]; eauto|].
    apply Hcustom.
  - intros name. unfold getProjectName. destruct projectInfo as [info|]; [|discriminate].
    destruct (String.eqb_spec (toLowerCase (projectName info)) ""); [discriminate|].
    intros [= <-]. split; [assumption|apply toLowerCase_idemp].
Qed.

End ProjectBoard.

(** ** Sprint names that hold two dates *)

Section SprintNameDates.

Import RegExp Num Calendar.

#[local] Open Scope Z_scope.

(** *** Numbers as text *)

Lemma pretty_pos_go (y : Z) : 0 < y -> pretty y = pretty_N_go (Z.to_N y) "".
Proof. destruct y as [|p|p]; try lia. intros _. reflexivity. Qed.

Lemma go_step (x : Z) (s : string) :
  0 < x ->
  pretty_N_go (Z.to_N x) s = pretty_N_go (Z.to_N (x / 10)) (String (digitChar (x mod 10)) s).
Proof.
  intros H. rewrite pretty_N_go_step by lia. unfold digitChar.
  rewrite Z2N.inj_div, Z2N.inj_mod by lia. reflexivity.
Qed.

Lemma go_zero (x : Z) (s : string) : x = 0 -> pretty_N_go (Z.to_N x) s = s.
Proof. intros ->. reflexivity. Qed.

Lemma pretty_digits4 (y : Z) :
  1000 <= y <= 9999 ->
  pretty y = String (digitChar (y / 1000)) (String (digitChar (y / 100 mod 10))
               (String (digitChar (y / 10 mod 10)) (String (digitChar (y mod 10)) ""))).
Proof.
  intros H. rewrite pretty_pos_go by lia.
  rewrite (go_step y) by lia.
  rewrite (go_step (y / 10)) by (Z.div_mod_to_equations; lia).
  rewrite (go_step (y / 10 / 10)) by (Z.div_mod_to_equations; lia).
  rewrite (go_step (y / 10 / 10 / 10)) by (Z.div_mod_to_equations; lia).
  rewrite go_zero by (Z.div_mod_to_equations; lia).
  rewrite !Z.div_div by lia.
  change (10 * (10 * 10)) with 1000. change (10 * 10) with 100.
  replace (y / 1000 mod 10) with (y / 1000) by (Z.div_mod_to_equations; lia).
  reflexivity.
Qed.

Lemma pad2_digits (n : Z) :
  0 <= n <= 99 -> pad2 n = String (digitChar (n / 10)) (String (digitChar (n mod 10)) "").
Proof.
  intros H. unfold pad2.
  destruct (Z_lt_dec n 10) as [Hlt|Hge].
  - assert (Hp : pretty n = String (digitChar n) "").
    { destruct (Z.eq_dec n 0) as [->|Hn]; [reflexivity|].
      rewrite pretty_pos_go by lia. rewrite go_step by lia.
      rewrite go_zero by (Z.div_mod_to_equations; lia).
      rewrite Z.mod_small by lia. reflexivity. }
    rewrite Hp. cbn [String.length Nat.ltb Nat.leb].
    rewrite Z.div_small, Z.mod_small by lia. reflexivity.
  - assert (Hp : pretty n = String (digitChar (n / 10)) (String (digitChar (n mod 10)) "")).
    { rewrite pretty_pos_go by lia. rewrite go_step by lia.
      rewrite (go_step (n / 10)) by (Z.div_mod_to_equations; lia).
      rewrite go_zero by (Z.div_mod_to_equations; lia).
      replace (n / 10 mod 10) with (n / 10) by (Z.div_mod_to_equations; lia).
      reflexivity. }
    rewrite Hp. reflexivity.
Qed.

Lemma digitChar_digit (k : Z) : 0 <= k <= 9 -> is_digit (digitChar k) = true.
Proof.
  intros H.
  assert (Hk : k = 0 \/ k = 1 \/ k = 2 \/ k = 3 \/ k = 4 \/ k = 5 \/ k = 6
               \/ k = 7 \/ k = 8 \/ k = 9) by lia.
  repeat destruct Hk as [->|Hk]; try subst k; reflexivity.
Qed.

Lemma digitChar_value (k : Z) : 0 <= k <= 9 -> digit_of 10 (digitChar k) = Some k.
Proof.
  intros H.
  assert (Hk : k = 0 \/ k = 1 \/ k = 2 \/ k = 3 \/ k = 4 \/ k = 5 \/ k = 6
               \/ k = 7 \/ k = 8 \/ k = 9) by lia.
  repeat destruct Hk as [->|Hk]; try subst k; reflexivity.
Qed.

(** The year of [formatDate] is four digits that read as the year. *)
Lemma pretty_year (y : Z) :
  1000 <= y <= 9999 ->
  digits 4 (pretty y) = true /\ digits_value 10 0 (pretty y) = y.
Proof.
  intros H. rewrite (pretty_digits4 y H). split.
  - unfold digits. cbn [String.length Nat.eqb allChars andb].
    rewrite !digitChar_digit by (Z.div_mod_to_equations; lia). reflexivity.
  - cbn [digits_value].
    rewrite !digitChar_value by (Z.div_mod_to_equations; lia).
    Z.div_mod_to_equations; lia.
Qed.

(** The month and the day of [formatDate] are two digits each. *)
Lemma pad2_number (n : Z) :
  0 <= n <= 99 ->
  digits 2 (pad2 n) = true /\ digits_value 10 0 (pad2 n) = n.
Proof.
  intros H. rewrite (pad2_digits n H). split.
  - unfold digits. cbn [String.length Nat.eqb allChars andb].
    rewrite !digitChar_digit by (Z.div_mod_to_equations; lia). reflexivity.
  - cbn [digits_value].
    rewrite !digitChar_value by (Z.div_mod_to_equations; lia).
    Z.div_mod_to_equations; lia.
Qed.

(** *** The classes of a digit *)

Lemma digit_classes (c : ascii) :
  is_digit c = true ->
  RegExp.space c = false /\ RegExp.word c = true
  /\ is_digit_of 10 c = true
  /\ (forall d : ascii, is_digit d = false -> Ascii.eqb d c = false).
Proof.
  intros H. split; [|split; [|split]].
  - destruct c as [[] [] [] [] [] [] [] []]; try discriminate H; reflexivity.
  - destruct c as [[] [] [] [] [] [] [] []]; try discriminate H; reflexivity.
  - destruct c as [[] [] [] [] [] [] [] []]; try discriminate H; reflexivity.
  - intros d Hd. destruct (Ascii.eqb_spec d c) as [->|]; [congruence|reflexivity].
Qed.

Lemma digits_inv (n : nat) (s : string) :
  digits n s = true -> String.length s = n /\ allChars is_digit s = true.
Proof.
  unfold digits. intros H. apply andb_true_iff in H as [H1 H2].
  apply Nat.eqb_eq in H1. auto.
Qed.

(** *** Items that leave the engine no choice *)

Lemma try_counts_same {R : Type} (n : nat) (f : nat -> option R) :
  RegExp.try_counts n n f = f n.
Proof.
  destruct n as [|n]; cbn [RegExp.try_counts].
  - rewrite Nat.ltb_irrefl. destruct (f 0%nat); reflexivity.
  - rewrite Nat.ltb_irrefl. destruct (f (S n)) eqn:E; [reflexivity|].
    destruct n as [|n]; cbn [RegExp.try_counts];
      (replace (_ <? _)%nat with true by (symmetry; apply Nat.ltb_lt; lia)); reflexivity.
Qed.

Lemma matchItems_forced (i : RegExp.Item) (p : list RegExp.Item) (s : string) :
  RegExp.bound (RegExp.hi i) (RegExp.run (RegExp.cls i) s) = RegExp.lo i ->
  RegExp.matchItems (i :: p) s
  = match RegExp.matchItems p (drop (RegExp.lo i) s) with
    | Some caps => Some (if RegExp.cap i then take (RegExp.lo i) s :: caps else caps)
    | None => None
    end.
Proof.
  intros H. cbn [RegExp.matchItems]. rewrite H. apply try_counts_same.
Qed.

Lemma run_append (f : ascii -> bool) (a b : string) :
  allChars f a = true -> RegExp.run f (a +:+ b) = (String.length a + RegExp.run f b)%nat.
Proof.
  induction a as [|c a IH]; [reflexivity|]. cbn [allChars]. intros H.
  apply andb_true_iff in H as [Hc Ha]. rewrite append_cons. cbn [RegExp.run String.length].
  rewrite Hc, (IH Ha). reflexivity.
Qed.

Lemma drop_append (a b : string) : drop (String.length a) (a +:+ b) = b.
Proof.
  induction a as [|c a IH]; [destruct b; reflexivity|]. rewrite append_cons. exact IH.
Qed.

Lemma take_append (a b : string) : take (String.length a) (a +:+ b) = a.
Proof.
  induction a as [|c a IH]; [destruct b; reflexivity|]. rewrite append_cons.
  cbn [String.length take]. rewrite IH. reflexivity.
Qed.

(** [(\d{n})] in front of [n] digits *)
Lemma matchItems_digits (n : nat) (p : list RegExp.Item) (a b : string) :
  digits n a = true ->
  RegExp.matchItems (RegExp.group (RegExp.exactly n RegExp.digit) :: p) (a +:+ b)
  = match RegExp.matchItems p b with
    | Some caps => Some (a :: caps)
    | None => None
    end.
Proof.
  intros H. apply digits_inv in H as [Hlen Hall].
  rewrite matchItems_forced.
  - cbn [RegExp.group RegExp.exactly RegExp.lo RegExp.cap]. rewrite <- Hlen.
    rewrite drop_append, take_append. reflexivity.
  - cbn [RegExp.group RegExp.exactly RegExp.lo RegExp.hi RegExp.cls RegExp.bound].
    unfold RegExp.digit. rewrite run_append by exact Hall. lia.
Qed.

(** A literal character in front of itself *)
Lemma matchItems_lit (c : ascii) (p : list RegExp.Item) (s : string) :
  RegExp.matchItems (RegExp.one (RegExp.lit c) :: p) (String c s) = RegExp.matchItems p s.
Proof.
  rewrite matchItems_forced.
  - cbn [RegExp.one RegExp.lo RegExp.cap drop].
    destruct (RegExp.matchItems p _); destruct s; reflexivity.
  - cbn [RegExp.one RegExp.lo RegExp.hi RegExp.cls RegExp.bound RegExp.run].
    unfold RegExp.lit. rewrite Ascii.eqb_refl. lia.
Qed.

(** [\s+] in front of one space *)
Lemma matchItems_one_space (p : list RegExp.Item) (s : string) :
  RegExp.run RegExp.space s = 0%nat ->
  RegExp.matchItems (RegExp.plus RegExp.space :: p) (String " " s) = RegExp.matchItems p s.
Proof.
  intros H. rewrite matchItems_forced.
  - cbn [RegExp.plus RegExp.lo RegExp.cap drop].
    destruct (RegExp.matchItems p _); destruct s; reflexivity.
  - cbn [RegExp.plus RegExp.lo RegExp.hi RegExp.cls RegExp.bound RegExp.run].
    change (RegExp.space " ") with true. cbn iota. rewrite H. reflexivity.
Qed.

Lemma lit_append (c : ascii) (s : string) : String c "" +:+ s = String c s.
Proof. reflexivity. Qed.

Lemma run_space_digits (n : nat) (a b : string) :
  digits (S n) a = true -> RegExp.run RegExp.space (a +:+ b) = 0%nat.
Proof.
  intros H. apply digits_inv in H as [Hlen Hall].
  destruct a as [|c a]; [discriminate Hlen|].
  cbn [allChars] in Hall. apply andb_true_iff in Hall as [Hc _].
  rewrite append_cons. cbn [RegExp.run].
  destruct (digit_classes c Hc) as [-> _]. reflexivity.
Qed.

Lemma exec_here (p : list RegExp.Item) (s : string) (caps : list string) :
  RegExp.matchItems p s = Some caps -> RegExp.exec p s = Some caps.
Proof. intros H. destruct s; cbn [RegExp.exec]; rewrite H; reflexivity. Qed.

(** The third expression on two dates written with digits *)
Lemma isoPattern_match (Ya Ma Da Yb Mb Db rest : string) :
  digits 4 Ya = true -> digits 2 Ma = true -> digits 2 Da = true ->
  digits 4 Yb = true -> digits 2 Mb = true -> digits 2 Db = true ->
  RegExp.exec isoPattern
    (Ya +:+ "-" +:+ Ma +:+ "-" +:+ Da +:+ " to " +:+ Yb +:+ "-" +:+ Mb +:+ "-" +:+ Db +:+ rest)
  = Some [Ya; Ma; Da; Yb; Mb; Db].
Proof.
  intros HYa HMa HDa HYb HMb HDb. apply exec_here. unfold isoPattern.
  rewrite (matchItems_digits 4) by exact HYa. rewrite lit_append, matchItems_lit.
  rewrite (matchItems_digits 2) by exact HMa. rewrite lit_append, matchItems_lit.
  rewrite (matchItems_digits 2) by exact HDa.
  change (" to " +:+ ?x) with (String " " (String "t" (String "o" (String " " x)))).
  rewrite matchItems_one_space by reflexivity.
  rewrite !matchItems_lit.
  rewrite matchItems_one_space by exact (run_space_digits 3 _ _ HYb).
  rewrite (matchItems_digits 4) by exact HYb. rewrite lit_append, matchItems_lit.
  rewrite (matchItems_digits 2) by exact HMb. rewrite lit_append, matchItems_lit.
  rewrite (matchItems_digits 2) by exact HDb.
  reflexivity.
Qed.

(** *** Strings that the classes of an expression cannot tell apart *)

Lemma run_similar (R : ascii -> ascii -> Prop) (f : ascii -> bool) (s s' : string) :
  (forall c c', R c c' -> f c = f c') -> similar R s s' ->
  RegExp.run f s = RegExp.run f s'.
Proof.
  intros Hf. revert s'. induction s as [|c s IH]; intros [|c' s'] H; try contradiction.
  - reflexivity.
  - destruct H as [Hc Hs]. cbn [RegExp.run]. rewrite (Hf _ _ Hc), (IH _ Hs). reflexivity.
Qed.

Lemma drop_similar (R : ascii -> ascii -> Prop) (k : nat) (s s' : string) :
  similar R s s' -> similar R (drop k s) (drop k s').
Proof.
  revert s s'. induction k as [|k IH]; intros s s' H.
  - destruct s, s'; exact H.
  - destruct s as [|c s], s' as [|c' s']; try contradiction; [exact H|].
    destruct H as [_ Hs]. exact (IH _ _ Hs).
Qed.

Lemma try_counts_None {A : Type} (k lo : nat) (f g : nat -> option A) :
  (forall j, f j = None <-> g j = None) ->
  RegExp.try_counts k lo f = None <-> RegExp.try_counts k lo g = None.
Proof.
  intros H. induction k as [|k IH]; cbn [RegExp.try_counts].
  - destruct (0 <? lo)%nat; [tauto|].
    pose proof (H 0%nat). destruct (f 0%nat), (g 0%nat); intuition congruence.
  - destruct (S k <? lo)%nat; [tauto|].
    pose proof (H (S k)). destruct (f (S k)), (g (S k)); intuition congruence.
Qed.

(** Whether a sequence of items matches depends on the characters only
    through the classes of the items. *)
Lemma matchItems_similar (R : ascii -> ascii -> Prop) (p : list RegExp.Item) :
  Forall (fun i => forall c c', R c c' -> RegExp.cls i c = RegExp.cls i c') p ->
  forall s s', similar R s s' ->
  RegExp.matchItems p s = None <-> RegExp.matchItems p s' = None.
Proof.
  induction 1 as [|i p Hi Hp IH]; intros s s' Hs; [tauto|].
  cbn [RegExp.matchItems]. rewrite (run_similar R _ s s' Hi Hs).
  apply try_counts_None. intros j.
  pose proof (IH _ _ (drop_similar R j _ _ Hs)) as Hj.
  destruct (RegExp.matchItems p (drop j s)), (RegExp.matchItems p (drop j s'));
    intuition congruence.
Qed.

Lemma exec_similar (R : ascii -> ascii -> Prop) (p : list RegExp.Item) (s s' : string) :
  Forall (fun i => forall c c', R c c' -> RegExp.cls i c = RegExp.cls i c') p ->
  similar R s s' ->
  RegExp.exec p s' = None -> RegExp.exec p s = None.
Proof.
  intros Hp. revert s'. induction s as [|c s IH]; intros [|c' s'] Hs; try contradiction.
  - tauto.
  - destruct Hs as [Hc Hs]. cbn [RegExp.exec].
    pose proof (matchItems_similar R p Hp (String c s) (String c' s') (conj Hc Hs)) as Hm.
    destruct (RegExp.matchItems p (String c s)), (RegExp.matchItems p (String c' s'));
      try discriminate; try (intros _; exfalso; intuition congruence).
    apply IH, Hs.
Qed.

Lemma similar_append (R : ascii -> ascii -> Prop) (a a' b b' : string) :
  similar R a a' -> similar R b b' -> similar R (a +:+ b) (a' +:+ b').
Proof.
  revert a'. induction a as [|c a IH]; intros [|c' a'] Ha Hb; try contradiction.
  - exact Hb.
  - destruct Ha as [Hc Ha]. rewrite !append_cons. split; [exact Hc|exact (IH _ Ha Hb)].
Qed.

Lemma similar_refl (s : string) : similar digitOrSame s s.
Proof. induction s as [|c s IH]; [exact I|]. split; [right; reflexivity|exact IH]. Qed.

Lemma similar_digits (n : nat) (s : string) :
  digits n s = true -> similar digitOrSame s (zeros n).
Proof.
  intros H. apply digits_inv in H as [Hlen Hall]. subst n.
  induction s as [|c s IH]; [exact I|].
  cbn [allChars] in Hall. apply andb_true_iff in Hall as [Hc Hs].
  split; [left; auto|exact (IH Hs)].
Qed.

Lemma digitOrSame_classes (f : ascii -> bool) :
  (forall c, is_digit c = true -> f c = f "0"%char) ->
  forall c c', digitOrSame c c' -> f c = f c'.
Proof. intros Hf c c' [[Hc ->]| ->]; [exact (Hf c Hc)|reflexivity]. Qed.

(** The first two expressions match nowhere in two dates written with
    digits: the first wants a digit after white space on both sides of a
    hyphen, the second a slash. *)
Lemma other_patterns (Ya Ma Da Yb Mb Db : string) :
  digits 4 Ya = true -> digits 2 Ma = true -> digits 2 Da = true ->
  digits 4 Yb = true -> digits 2 Mb = true -> digits 2 Db = true ->
  let s := Ya +:+ "-" +:+ Ma +:+ "-" +:+ Da +:+ " to " +:+ Yb +:+ "-" +:+ Mb +:+ "-" +:+ Db in
  RegExp.exec monthNamePattern s = None /\ RegExp.exec numericPattern s = None.
Proof.
  intros HYa HMa HDa HYb HMb HDb s.
  assert (Hs : similar digitOrSame s "0000-00-00 to 0000-00-00").
  { subst s.
    change "0000-00-00 to 0000-00-00"
      with (zeros 4 +:+ "-" +:+ zeros 2 +:+ "-" +:+ zeros 2 +:+ " to "
            +:+ zeros 4 +:+ "-" +:+ zeros 2 +:+ "-" +:+ zeros 2).
    repeat first [apply similar_digits; assumption
                 | apply similar_refl
                 | apply similar_append]. }
  assert (Hword : forall c c', digitOrSame c c' -> RegExp.word c = RegExp.word c').
  { apply digitOrSame_classes. intros c Hc.
    destruct (digit_classes c Hc) as (_ & -> & _). reflexivity. }
  assert (Hspace : forall c c', digitOrSame c c' -> RegExp.space c = RegExp.space c').
  { apply digitOrSame_classes. intros c Hc.
    destruct (digit_classes c Hc) as (-> & _). reflexivity. }
  assert (Hdigit : forall c c', digitOrSame c c' -> RegExp.digit c = RegExp.digit c').
  { apply digitOrSame_classes. intros c Hc. unfold RegExp.digit. rewrite Hc. reflexivity. }
  assert (Hlit : forall d, is_digit d = false ->
                 forall c c', digitOrSame c c' -> RegExp.lit d c = RegExp.lit d c').
  { intros d Hd. apply digitOrSame_classes. intros c Hc. unfold RegExp.lit.
    destruct (digit_classes c Hc) as (_ & _ & _ & H). rewrite (H d Hd).
    symmetry. apply Ascii.eqb_neq. intros ->. discriminate Hd. }
  assert (Hsimilar : forall p,
            Forall (fun i => forall c c', digitOrSame c c'
                             -> RegExp.cls i c = RegExp.cls i c') p ->
            RegExp.exec p "0000-00-00 to 0000-00-00" = None -> RegExp.exec p s = None).
  { intros p Hp. exact (exec_similar digitOrSame p _ _ Hp Hs). }
  split; apply Hsimilar.
  - unfold monthNamePattern.
    repeat constructor;
      cbn [RegExp.cls RegExp.group RegExp.plus RegExp.star RegExp.one]; auto.
  - vm_compute. reflexivity.
  - unfold numericPattern.
    repeat constructor;
      cbn [RegExp.cls RegExp.group RegExp.plus RegExp.star RegExp.one]; auto.
  - vm_compute. reflexivity.
Qed.

(** *** Digits as numbers *)

Lemma trimStart_digits (s : string) : allChars is_digit s = true -> trimStart s = s.
Proof.
  intros H. destruct s as [|c s]; [reflexivity|]. cbn [allChars] in H.
  apply andb_true_iff in H as [Hc _]. cbn [trimStart]. unfold white.
  destruct (digit_classes c Hc) as [-> _]. reflexivity.
Qed.

Lemma trim_digits (s : string) : allChars is_digit s = true -> trim s = s.
Proof.
  intros H. unfold trim. rewrite (trimStart_digits s H).
  induction s as [|c s IH]; [reflexivity|].
  cbn [allChars] in H. apply andb_true_iff in H as [Hc Hs]. cbn [trimEnd]. unfold white.
  destruct (digit_classes c Hc) as [-> _]. rewrite andb_false_r.
  rewrite (IH Hs). reflexivity.
Qed.

Lemma run_all (f : ascii -> bool) (s : string) :
  allChars f s = true -> RegExp.run f s = String.length s.
Proof.
  induction s as [|c s IH]; [reflexivity|]. cbn [allChars]. intros H.
  apply andb_true_iff in H as [Hc Hs]. cbn [RegExp.run String.length].
  rewrite Hc, (IH Hs). reflexivity.
Qed.

Lemma all_digit_of (s : string) :
  allChars is_digit s = true -> allChars (is_digit_of 10) s = true.
Proof.
  induction s as [|c s IH]; [reflexivity|]. cbn [allChars]. intros H.
  apply andb_true_iff in H as [Hc Hs].
  destruct (digit_classes c Hc) as (_ & _ & -> & _). exact (IH Hs).
Qed.

Lemma drop_all (s : string) : drop (String.length s) s = "".
Proof. induction s as [|c s IH]; [reflexivity|exact IH]. Qed.

Lemma starts_with_sign (sign : ascii) (s : string) :
  is_digit sign = false -> allChars is_digit s = true ->
  starts_with (String sign "") s = false.
Proof.
  intros Hsign H. unfold starts_with. destruct s as [|c s]; [reflexivity|].
  cbn [allChars] in H. apply andb_true_iff in H as [Hc _].
  cbn [String.length take]. replace (take 0 s) with "" by (destruct s; reflexivity).
  apply String.eqb_neq. intros [= ->]. congruence.
Qed.

Lemma starts_with_prefix (c1 c2 : ascii) (s : string) :
  is_digit c2 = false -> allChars is_digit s = true ->
  starts_with (String c1 (String c2 "")) s = false.
Proof.
  intros Hc2 H. unfold starts_with. destruct s as [|d1 [|d2 s]]; try reflexivity.
  - cbn [String.length take]. apply String.eqb_neq. intros H'. discriminate H'.
  - cbn [allChars] in H. apply andb_true_iff in H as [_ H].
    apply andb_true_iff in H as [Hd2 _].
    cbn [String.length take]. replace (take 0 s) with "" by (destruct s; reflexivity).
    apply String.eqb_neq. intros [= _ ->]. congruence.
Qed.

(** [isNaN] of a run of digits is false. *)
Lemma isNaN_digits (n : nat) (s : string) : digits (S n) s = true -> isNaN s = false.
Proof.
  intros H. apply digits_inv in H as [Hlen Hall]. unfold isNaN.
  rewrite (trim_digits s Hall).
  rewrite (starts_with_sign "+" s eq_refl Hall), (starts_with_sign "-" s eq_refl Hall).
  cbn [orb].
  assert (Hdec : decimal_literal s = true).
  { unfold decimal_literal. rewrite (run_all _ s Hall), drop_all.
    change (starts_with "." "") with false. cbn iota.
    rewrite Hlen. cbn. apply orb_true_r. }
  rewrite Hdec, orb_true_r. reflexivity.
Qed.

Lemma all_digits_digits (n : nat) (s : string) :
  digits (S n) s = true -> all_digits 10 s = true.
Proof.
  intros H. apply digits_inv in H as [Hlen Hall]. unfold all_digits.
  rewrite (run_all _ s (all_digit_of s Hall)), Nat.eqb_refl.
  destruct s; [discriminate Hlen|reflexivity].
Qed.

(** [parseInt] of a run of digits is their value. *)
Lemma parseInt_digits (n : nat) (s : string) :
  digits (S n) s = true -> parseInt s = Some (digits_value 10 0 s).
Proof.
  intros H. apply digits_inv in H as [Hlen Hall]. unfold parseInt.
  rewrite (trimStart_digits s Hall).
  rewrite (starts_with_sign "+" s eq_refl Hall), (starts_with_sign "-" s eq_refl Hall).
  cbn [orb]. cbv zeta.
  rewrite (starts_with_prefix "0" "x" s eq_refl Hall), (starts_with_prefix "0" "X" s eq_refl Hall).
  cbn [orb]. rewrite (run_all _ s (all_digit_of s Hall)), Hlen. reflexivity.
Qed.

(** *** The date constructor on the dates of the calendar *)

(** The year of the era from the day of the era *)
Lemma yoe_recover (yoe doy : Z) :
  0 <= yoe < 400 -> 0 <= doy <= 365 ->
  (doy = 365 -> (yoe + 1) mod 4 = 0 /\ ((yoe + 1) mod 100 <> 0 \/ yoe = 399)) ->
  let doe := yoe * 365 + yoe / 4 - yoe / 100 + doy in
  0 <= doe <= 146096 /\
  (doe - doe / 1460 + doe / 36524 - doe / 146096) / 365 = yoe.
Proof. intros Hy Hd Hleap doe. subst doe. Z.div_mod_to_equations; lia. Qed.

(** The month and the day from the day of the year, counted from March *)
Lemma doy_recover (mp d : Z) :
  0 <= mp <= 11 ->
  1 <= d <= (153 * (mp + 1) + 2) / 5 - (153 * mp + 2) / 5 ->
  let doy := (153 * mp + 2) / 5 + d - 1 in
  (5 * doy + 2) / 153 = mp /\ doy - (153 * mp + 2) / 5 + 1 = d.
Proof. intros Hmp Hd doy. subst doy. Z.div_mod_to_equations; lia. Qed.

Lemma civil_era (era yoe doy : Z) :
  0 <= yoe < 400 -> 0 <= doy <= 365 ->
  (doy = 365 -> (yoe + 1) mod 4 = 0 /\ ((yoe + 1) mod 100 <> 0 \/ yoe = 399)) ->
  let doe := yoe * 365 + yoe / 4 - yoe / 100 + doy in
  let z := era * 146097 + doe - 719468 + 719468 in
  z / 146097 = era /\ z - era * 146097 = doe.
Proof.
  intros Hy Hd Hleap doe z.
  destruct (yoe_recover yoe doy Hy Hd Hleap) as [Hdoe _]. fold doe in Hdoe.
  subst z. generalize dependent doe. intros doe Hdoe. Z.div_mod_to_equations; lia.
Qed.

Lemma daysInMonth_cases (y m : Z) :
  0 <= m <= 11 ->
  let mp := m + 1 + (if 2 <? m + 1 then -3 else 9) in
  0 <= mp <= 11
  /\ daysInMonth y m <= (153 * (mp + 1) + 2) / 5 - (153 * mp + 2) / 5
  /\ (153 * mp + 2) / 5 + daysInMonth y m - 1 <= 365
  /\ ((153 * mp + 2) / 5 + daysInMonth y m - 1 = 365 -> m = 1 /\ leapYear y = true)
  /\ (if mp <? 10 then mp + 3 else mp - 9) = m + 1.
Proof.
  intros Hm.
  assert (Hcases : m = 0 \/ m = 1 \/ m = 2 \/ m = 3 \/ m = 4 \/ m = 5 \/ m = 6
                   \/ m = 7 \/ m = 8 \/ m = 9 \/ m = 10 \/ m = 11) by lia.
  unfold daysInMonth.
  repeat destruct Hcases as [->|Hcases]; try subst m;
    cbn; try destruct (leapYear y); cbn; repeat split; try lia; try discriminate.
Qed.

(** The days since the epoch of a date of the calendar give the date back. *)
Lemma civil_round_trip (y m d : Z) :
  0 <= m <= 11 -> 1 <= d <= daysInMonth y m ->
  civil_from_days (days_from_civil y (m + 1) 1 + d - 1) = (y, m + 1, d).
Proof.
  intros Hm Hd.
  destruct (daysInMonth_cases y m Hm) as (Hmp & Hlen & Hmax & Hleap & Hmonth).
  set (mp := m + 1 + (if 2 <? m + 1 then -3 else 9)) in *.
  set (y' := if m + 1 <=? 2 then y - 1 else y).
  set (era := y' / 400). set (yoe := y' - era * 400).
  set (doy := (153 * mp + 2) / 5 + d - 1).
  assert (Hyoe : 0 <= yoe < 400).
  { subst yoe era. generalize y'. clear. intros y'. Z.div_mod_to_equations; lia. }
  assert (Hdiv : 0 <= (153 * mp + 2) / 5) by (apply Z.div_pos; lia).
  assert (Hdoy : 0 <= doy <= 365) by (subst doy; lia).
  assert (Hfeb : doy = 365 -> (yoe + 1) mod 4 = 0 /\ ((yoe + 1) mod 100 <> 0 \/ yoe = 399)).
  { intros E. assert (Hd' : d = daysInMonth y m) by (subst doy; lia).
    destruct Hleap as [-> Hy]; [subst doy; lia|].
    unfold leapYear in Hy. apply andb_true_iff in Hy as [H4 H100].
    apply Z.eqb_eq in H4. apply orb_true_iff in H100.
    assert (H100' : y mod 100 <> 0 \/ y mod 400 = 0).
    { destruct H100 as [H|H]; [left|right].
      - apply negb_true_iff, Z.eqb_neq in H. exact H.
      - apply Z.eqb_eq in H. exact H. }
    subst yoe era y'. change (1 + 1 <=? 2) with true. cbn iota.
    clear - H4 H100'. Z.div_mod_to_equations; lia. }
  destruct (yoe_recover yoe doy Hyoe Hdoy Hfeb) as [_ Hy1].
  destruct (civil_era era yoe doy Hyoe Hdoy Hfeb) as [He1 He2].
  destruct (doy_recover mp (doy - (153 * mp + 2) / 5 + 1)) as [Hd1 Hd2];
    [exact Hmp|subst doy; lia|].
  cbv zeta in Hy1, He1, He2, Hd1, Hd2.
  replace ((153 * mp + 2) / 5 + (doy - (153 * mp + 2) / 5 + 1) - 1) with doy in Hd1, Hd2 by lia.
  set (doe := yoe * 365 + yoe / 4 - yoe / 100 + doy) in *.
  assert (Hz : days_from_civil y (m + 1) 1 + d - 1 = era * 146097 + doe - 719468).
  { unfold days_from_civil. fold y'. cbv zeta. fold era. fold yoe. fold mp.
    subst doe doy. lia. }
  rewrite Hz. unfold civil_from_days. cbv zeta.
  rewrite He1, He2, Hy1.
  replace (doe - (365 * yoe + yoe / 4 - yoe / 100)) with doy by (subst doe; lia).
  rewrite Hd1, Hmonth.
  replace (doy - (153 * mp + 2) / 5 + 1) with d by (subst doy; lia).
  replace (yoe + era * 400) with y' by (subst yoe; lia).
  subst y'. destruct (m + 1 <=? 2); f_equal; f_equal; lia.
Qed.

Lemma calendarDate_inv (y m d : Z) :
  calendarDate (MkDate y m d) = true ->
  1000 <= y <= 9999 /\ 0 <= m <= 11 /\ 1 <= d <= daysInMonth y m.
Proof.
  unfold calendarDate. intros H.
  repeat (apply andb_true_iff in H as [H ?]).
  repeat match goal with H : (_ <=? _) = true |- _ => apply Z.leb_le in H end.
  lia.
Qed.

Lemma daysInMonth_le (y m : Z) : daysInMonth y m <= 31.
Proof.
  unfold daysInMonth.
  repeat match goal with |- context [if ?b then _ else _] => destruct b end; lia.
Qed.

(** [new Date(y, m, d)] of a date of the calendar is that date. *)
Lemma new_Date_calendar (y m d : Z) :
  calendarDate (MkDate y m d) = true ->
  new_Date (Some y) (Some m) (Some d) = MkDate y m d.
Proof.
  intros H. apply calendarDate_inv in H as (Hy & Hm & Hd). unfold new_Date.
  replace ((0 <=? y) && (y <=? 99)) with false
    by (symmetry; apply andb_false_iff; right; apply Z.leb_gt; lia).
  cbv zeta. rewrite Z.div_small, Z.mod_small, Z.add_0_r by lia.
  pose proof (civil_round_trip y m d Hm Hd) as Hciv.
  assert (Hrange : (Z.abs (days_from_civil y (m + 1) 1 + d - 1) <=? 100000000) = true).
  { apply Z.leb_le. pose proof (daysInMonth_le y m).
    unfold days_from_civil. cbv zeta.
    destruct (m + 1 <=? 2), (2 <? m + 1); Z.div_mod_to_equations; lia. }
  rewrite Hrange, Hciv. f_equal. lia.
Qed.

(** *** The round trip *)

Lemma formatDate_digits (y m d : Z) :
  calendarDate (MkDate y m d) = true ->
  exists Y M D,
    formatDate (MkDate y m d) = Y +:+ "-" +:+ M +:+ "-" +:+ D
    /\ digits 4 Y = true /\ digits 2 M = true /\ digits 2 D = true
    /\ digits_value 10 0 Y = y /\ digits_value 10 0 M = m + 1
    /\ digits_value 10 0 D = d.
Proof.
  intros H. apply calendarDate_inv in H as (Hy & Hm & Hd).
  pose proof (daysInMonth_le y m).
  destruct (pretty_year y Hy) as [HY1 HY2].
  destruct (pad2_number (m + 1)) as [HM1 HM2]; [lia|].
  destruct (pad2_number d) as [HD1 HD2]; [lia|].
  exists (pretty y), (pad2 (m + 1)), (pad2 d). repeat split; assumption.
Qed.

(** X29.  A sprint name made of two dates as [formatDate] writes them,
    with [ to ] between them, is read back by [parseSprintDates] as these
    two dates, whatever the year passed along: the third expression is the
    one that matches.  The dates are dates of the calendar with a year of
    four digits. *)
Theorem parseSprintDates_formatDate (a b : Date) (year : Z) :
  calendarDate a = true -> calendarDate b = true ->
  parseSprintDates (formatDate a +:+ " to " +:+ formatDate b) year
  = Some {| startDate := a; endDate := b |}.
Proof.
  intros Ha Hb.
  destruct a as [|ya ma da]; [discriminate Ha|].
  destruct b as [|yb mb db]; [discriminate Hb|].
  destruct (formatDate_digits ya ma da Ha)
    as (Ya & Ma & Da & -> & HYa & HMa & HDa & VYa & VMa & VDa).
  destruct (formatDate_digits yb mb db Hb)
    as (Yb & Mb & Db & -> & HYb & HMb & HDb & VYb & VMb & VDb).
  rewrite !append_assoc.
  unfold parseSprintDates, patterns. cbn [firstMatch].
  destruct (other_patterns Ya Ma Da Yb Mb Db HYa HMa HDa HYb HMb HDb) as [-> ->].
  pose proof (isoPattern_match Ya Ma Da Yb Mb Db "" HYa HMa HDa HYb HMb HDb) as Hiso.
  rewrite append_empty_r in Hiso. rewrite Hiso.
  unfold extractDatesFromMatch, isNaN_at, toNumber_at, parseInt_at.
  cbn [lookup list_lookup length Nat.eqb].
  rewrite (isNaN_digits 3 Ya HYa).
  rewrite (all_digits_digits 3 Ya HYa), (all_digits_digits 1 Da HDa),
    (all_digits_digits 3 Yb HYb), (all_digits_digits 1 Db HDb).
  rewrite (parseInt_digits 1 Ma HMa), (parseInt_digits 1 Mb HMb).
  cbn [minus_one]. rewrite VYa, VMa, VDa, VYb, VMb, VDb.
  replace (ma + 1 - 1) with ma by lia. replace (mb + 1 - 1) with mb by lia.
  rewrite (new_Date_calendar ya ma da Ha), (new_Date_calendar yb mb db Hb).
  reflexivity.
Qed.

Lemma parseSprintDates_formatDate_witness :
  parseSprintDates "2024-02-29 to 2024-03-13" 2031
  = Some {| startDate := MkDate 2024 1 29; endDate := MkDate 2024 2 13 |}.
Proof.
  exact (parseSprintDates_formatDate (MkDate 2024 1 29) (MkDate 2024 2 13) 2031
           eq_refl eq_refl).
Defined.

End SprintNameDates.

(** ** A label added and removed again *)

Lemma prefix_separator (s : string) :
  String.prefix "; " s = true -> exists s', s = "; " +:+ s'.
Proof.
  intros H. destruct s as [|c [|d s']]; cbn [String.prefix] in H;
    repeat match type of H with
           | context [ascii_dec ?a ?b] => destruct (ascii_dec a b); [subst|]
           end; try discriminate H.
  exists s'. reflexivity.
Qed.

(** Strings read as [split] reads them: from separator to separator. *)
Lemma separator_ind (P : string -> Prop) :
  P "" ->
  (forall s, P s -> P ("; " +:+ s)) ->
  (forall c s, String.prefix "; " (String c s) = false -> P s -> P (String c s)) ->
  forall s, P s.
Proof.
  intros Hempty Hsep Hchar s.
  assert (H : forall n s, (String.length s <= n)%nat -> P s).
  { clear s. induction n as [|n IH]; intros s Hlen.
    - destruct s; [exact Hempty|cbn in Hlen; lia].
    - destruct s as [|c s]; [exact Hempty|].
      destruct (String.prefix "; " (String c s)) eqn:E.
      + apply prefix_separator in E as [s' E].
        change (String c s = String ";" (String " " s')) in E. injection E as -> ->.
        apply (Hsep s'), IH. cbn [String.length] in Hlen. lia.
      + apply Hchar; [exact E|]. apply IH. cbn in Hlen. lia. }
  exact (H (String.length s) s (le_n _)).
Qed.

Lemma splitFrom_separator (s piece : string) :
  splitFrom "; " ("; " +:+ s) 0 piece = piece :: splitFrom "; " s 0 "".
Proof. destruct s; reflexivity. Qed.

Lemma splitFrom_char (c : ascii) (s piece : string) :
  String.prefix "; " (String c s) = false ->
  splitFrom "; " (String c s) 0 piece = splitFrom "; " s 0 (piece +:+ String c "").
Proof. intros H. cbn [splitFrom]. rewrite H. reflexivity. Qed.

Lemma append_char (piece : string) (c : ascii) (s : string) :
  (piece +:+ String c "") +:+ s = piece +:+ String c s.
Proof. rewrite append_assoc. reflexivity. Qed.

Lemma splitFrom_pieces (s piece : string) :
  exists pieces last, splitFrom "; " s 0 piece = (pieces ++ [last])%list.
Proof.
  revert piece. induction s as [|s IH|c s E IH] using separator_ind; intros piece.
  - exists [], piece. reflexivity.
  - rewrite splitFrom_separator. destruct (IH "") as (pieces & last & ->).
    exists (piece :: pieces), last. reflexivity.
  - rewrite (splitFrom_char c s piece E). apply IH.
Qed.

(** Joining the pieces gives the string back. *)
Lemma join_splitFrom (s piece : string) :
  GitHubProjects.join "; " (splitFrom "; " s 0 piece) = piece +:+ s.
Proof.
  revert piece. induction s as [|s IH|c s E IH] using separator_ind; intros piece.
  - cbn. rewrite append_empty_r. reflexivity.
  - rewrite splitFrom_separator.
    destruct (splitFrom_pieces s "") as (pieces & last & Hp).
    specialize (IH ""). 
    assert (Hjoin : forall rest : list string, rest <> [] ->
              GitHubProjects.join "; " (piece :: rest)
              = piece +:+ "; " +:+ GitHubProjects.join "; " rest).
    { intros [|x rest] Hne; [contradiction|reflexivity]. }
    rewrite Hjoin by (rewrite Hp; destruct pieces; discriminate).
    rewrite IH. reflexivity.
  - rewrite (splitFrom_char c s piece E), IH. apply append_char.
Qed.

(** A string without separator is one piece. *)
Lemma splitFrom_whole (l piece : string) :
  includes "; " l = false -> splitFrom "; " l 0 piece = [piece +:+ l].
Proof.
  revert piece. induction l as [|c l IH]; intros piece H.
  - cbn. rewrite append_empty_r. reflexivity.
  - cbn [includes] in H. apply orb_false_iff in H as [Hp Hl].
    rewrite (splitFrom_char c l piece Hp), (IH _ Hl), append_char. reflexivity.
Qed.

Lemma prefix_separator_append (c : ascii) (s l : string) :
  String.prefix "; " (String c s) = false ->
  String.prefix "; " (String c (s +:+ "; " +:+ l)) = false.
Proof.
  intros H. destruct s as [|d s]; rewrite ?append_cons; cbn [String.prefix] in H |- *;
    repeat match goal with
           | |- context [ascii_dec ?a ?b] => destruct (ascii_dec a b); [subst|]
           end; try reflexivity; try discriminate.
  destruct s; discriminate H.
Qed.

(** One more tag at the end is one more piece. *)
Lemma splitFrom_append (s l piece : string) :
  includes "; " l = false ->
  splitFrom "; " (s +:+ "; " +:+ l) 0 piece = (splitFrom "; " s 0 piece ++ [l])%list.
Proof.
  intros Hl. revert piece.
  induction s as [|s IH|c s E IH] using separator_ind; intros piece.
  - change ("" +:+ "; " +:+ l) with ("; " +:+ l).
    rewrite splitFrom_separator, (splitFrom_whole l "" Hl). reflexivity.
  - rewrite append_assoc, !splitFrom_separator, IH. reflexivity.
  - rewrite append_cons.
    rewrite (splitFrom_char c _ piece (prefix_separator_append c s l E)).
    rewrite (splitFrom_char c s piece E). apply IH.
Qed.

(** Each piece is part of the string. *)
Lemma splitFrom_includes (s piece x : string) :
  x ∈ splitFrom "; " s 0 piece -> exists a b, piece +:+ s = a +:+ x +:+ b.
Proof.
  revert piece. induction s as [|s IH|c s E IH] using separator_ind; intros piece.
  - cbn. intros H. apply list_elem_of_singleton in H as ->. exists "", "". reflexivity.
  - rewrite splitFrom_separator. intros H. apply elem_of_cons in H as [->|H].
    + exists "", ("; " +:+ s). reflexivity.
    + destruct (IH "" H) as (a & b & Hab). change ("" +:+ s) with s in Hab.
      exists (piece +:+ "; " +:+ a), b. rewrite Hab, !append_assoc. reflexivity.
  - rewrite (splitFrom_char c s piece E). intros H.
    destruct (IH _ H) as (a & b & Hab). rewrite append_char in Hab.
    exists a, b. exact Hab.
Qed.

Lemma split_keeps (t label : string) :
  includes label t = false ->
  List.filter (fun tag => negb (String.eqb tag label)) (split "; " t) = split "; " t.
Proof.
  intros H. apply filter_all, forallb_forall. intros x Hx.
  apply list_elem_of_In in Hx.
  apply negb_true_iff, String.eqb_neq. intros ->.
  destruct (splitFrom_includes t "" label Hx) as (a & b & Hab).
  change ("" +:+ t) with t in Hab. rewrite Hab, includes_append in H. discriminate H.
Qed.

(** The tags without the label that [addLabel] put at their end *)
Lemma labelled_removed (t label : string) :
  includes label t = false -> includes "; " label = false ->
  GitHubProjects.join "; "
    (List.filter (fun tag => negb (String.eqb tag label)) (split "; " (labelled t label)))
  = t.
Proof.
  intros Hnew Hsep. unfold labelled. destruct (String.eqb_spec t "") as [->|Hne].
  - unfold split. rewrite (splitFrom_whole label "" Hsep).
    change ("" +:+ label) with label. cbn [List.filter].
    rewrite String.eqb_refl. reflexivity.
  - unfold split. rewrite (splitFrom_append t label "" Hsep), List.filter_app.
    fold (split "; " t). rewrite (split_keeps t label Hnew).
    cbn [List.filter]. rewrite String.eqb_refl. cbn [negb]. rewrite app_nil_r.
    unfold split. apply join_splitFrom.
Qed.

(** X30.  [removeLabel] undoes [addLabel]: when the label holds no
    separator and is not found in the tags of the work item, then on the
    work item with the tags that [addLabel] wrote, [removeLabel] finds the
    label and asks for the tags to be replaced by the tags from before. *)
Theorem removeLabel_after_addLabel
    (event : Event) (workItem updated : WorkItem) (r : Remote) :
  includes (label event) (currentTags workItem) = false ->
  includes "; " (label event) = false ->
  fields updated !! "System.Tags" = Some (labelled (currentTags workItem) (label event)) ->
  removeLabel event updated r
  = updateWorkItemDirect
      [{| op := "replace"; path := "/fields/System.Tags"; value := currentTags workItem |}]
      (id updated) r.
Proof.
  intros Hnew Hsep Hupdated.
  assert (Hc : currentTags updated = labelled (currentTags workItem) (label event))
    by (unfold currentTags at 1; rewrite Hupdated; reflexivity).
  assert (Hfound : includes (label event) (labelled (currentTags workItem) (label event)) = true).
  { unfold labelled. destruct (String.eqb (currentTags workItem) "").
    - apply (includes_end _ "").
    - rewrite <- append_assoc. apply includes_end. }
  unfold removeLabel. rewrite Hc, Hfound. cbn [negb].
  rewrite (labelled_removed _ _ Hnew Hsep). reflexivity.
Qed.

Lemma removeLabel_after_addLabel_witness :
  let event := {| action := "unlabeled"; repo_name := "app"; label := "ui"; assignees := [];
                  closed_at := None; bypassRules := false; comment_text := "";
                  comment_url := "" |} in
  let workItem := {| id := 101; fields := list_to_map [("System.Tags", "GitHub Issue; app")] |} in
  let updated :=
    {| id := 101; fields := list_to_map [("System.Tags", "GitHub Issue; app; ui")] |} in
  let r := {| answers := []; calls := [] |} in
  removeLabel event updated r
  = updateWorkItemDirect
      [{| op := "replace"; path := "/fields/System.Tags"; value := "GitHub Issue; app" |}]
      101 r.
Proof.
  intros event workItem updated r.
  exact (removeLabel_after_addLabel event workItem updated r eq_refl eq_refl eq_refl).
Defined.
